(** * Document redaction engine: a shallow embedding and its properties

    The development follows [src/redaction/src/redaction_engine.py] and
    [src/redaction/src/file_handler.py].  Python strings are lists of code
    points, Python integers are [Z], coordinates are rationals, exceptions
    are values of [Exn], and the file system is an explicit store threaded
    through a state-and-error monad. *)

From Stdlib Require Import ZArith QArith Qabs List String Ascii Lia Bool.
From Stdlib Require Import Sorting.Permutation Sorting.Sorted.
From stdpp Require Import gmap.

Import ListNotations.
Local Open Scope Z_scope.
Local Open Scope list_scope.

(** ** Python strings *)

Module PyStr.

(** A code point. *)
Definition char := N.

(** [str]: an immutable sequence of code points. *)
Definition str := list char.

(** An ASCII literal as a Python string. *)
Definition py (s : string) : str :=
  map N_of_ascii (list_ascii_of_string s).

Arguments py : simpl never.

(** [len(s)] *)
Definition len (s : str) : Z := Z.of_nat (length s).

(** [s.startswith(sub)] *)
Fixpoint startswith (s sub : str) : bool :=
  match sub, s with
  | [], _ => true
  | _ :: _, [] => false
  | a :: sub', b :: s' => N.eqb a b && startswith s' sub'
  end.

(** The scan behind [str.find]: [s] is the part of the string that starts
    at index [i]. *)
Fixpoint find_at (s sub : str) (i : Z) : Z :=
  if startswith s sub then i
  else match s with
       | [] => -1
       | _ :: s' => find_at s' sub (i + 1)
       end.

(** Python clamps a slice bound into [0 .. len]; a negative bound counts
    from the end. *)
Definition clamp (n i : Z) : Z :=
  if i <? 0 then Z.max 0 (i + n) else Z.min i n.

(** [s.find(sub, start)]: the lowest index at or after [start] where
    [sub] occurs, [-1] when there is none. *)
Definition find (s sub : str) (start : Z) : Z :=
  let st := clamp (len s) start in
  if len s <? start then -1
  else find_at (skipn (Z.to_nat st) s) sub st.

(** [sub in s] *)
Definition contains (s sub : str) : bool :=
  negb (find s sub 0 =? -1).

(** [s[i:j]] *)
Definition slice (s : str) (i j : Z) : str :=
  let a := clamp (len s) i in
  let b := clamp (len s) j in
  firstn (Z.to_nat (b - a)) (skipn (Z.to_nat a) s).

(** [l[i:j] = r] on a list: the slice is cut out and [r] put in its
    place; when the bounds cross, [r] is inserted at [i]. *)
Definition slice_assign {A} (l : list A) (i j : Z) (r : list A) : list A :=
  let n := Z.of_nat (length l) in
  let a := clamp n i in
  let b := Z.max a (clamp n j) in
  firstn (Z.to_nat a) l ++ r ++ skipn (Z.to_nat b) l.

(** [s * n] *)
Definition times (s : str) (n : Z) : str :=
  concat (repeat s (Z.to_nat n)).

(** [sep.join(parts)] *)
Fixpoint join (sep : str) (parts : list str) : str :=
  match parts with
  | [] => []
  | [p] => p
  | p :: rest => p ++ sep ++ join sep rest
  end.

(** [s.replace(old, new)] for a non-empty [old]: occurrences are replaced
    left to right without overlap; [skip] counts the characters of the
    occurrence just replaced that are still to be passed over. *)
Fixpoint replace_from (s old new : str) (skip : nat) : str :=
  match s with
  | [] => []
  | c :: s' =>
      match skip with
      | S k => replace_from s' old new k
      | O =>
          if startswith s old
          then new ++ replace_from s' old new (length old - 1)
          else c :: replace_from s' old new 0
      end
  end.

(** [s.replace(old, new)]; an empty [old] matches before every character
    and at the end. *)
Definition replace (s old new : str) : str :=
  match old with
  | [] => new ++ flat_map (fun c => c :: new) s
  | _ :: _ => replace_from s old new 0
  end.

(** [a <= b] on strings: lexicographic on code points. *)
Fixpoint str_le (a b : str) : bool :=
  match a, b with
  | [], _ => true
  | _ :: _, [] => false
  | x :: a', y :: b' =>
      if N.ltb x y then true
      else if N.eqb x y then str_le a' b' else false
  end.

(** [s.rfind(c)] for a single character, as an index or [-1]. *)
Fixpoint rfind_char (s : str) (c : char) (i : Z) : Z :=
  match s with
  | [] => -1
  | x :: s' =>
      let r := rfind_char s' c (i + 1) in
      if r =? -1 then (if N.eqb x c then i else -1) else r
  end.

(** The loop of [genericpath._splitext] that skips the leading dots of a
    file name: is there a character other than a dot in [p[k:dot]]? *)
Fixpoint has_non_dot (name : str) : bool :=
  match name with
  | [] => false
  | x :: rest => negb (N.eqb x 46%N) || has_non_dot rest
  end.

(** [os.path.splitext(p)] (posixpath): the extension starts at the last
    dot of the last path component, leading dots of the name apart. *)
Definition splitext (p : str) : str * str :=
  let sepIndex := rfind_char p 47%N 0 in
  let dotIndex := rfind_char p 46%N 0 in
  if (sepIndex <? dotIndex)
     && has_non_dot (slice p (sepIndex + 1) dotIndex)
  then (slice p 0 dotIndex, slice p dotIndex (len p))
  else (p, []).

(** Lower-casing of the ASCII letters.  Python's [str.lower] agrees with
    it on ASCII text; outside ASCII it follows the Unicode case tables,
    which is why the engine takes [lower] through the [Unicode] class. *)
Definition ascii_lower_char (c : char) : char :=
  if (N.leb 65 c && N.leb c 90)%N then (c + 32)%N else c.

Definition ascii_lower (s : str) : str := map ascii_lower_char s.

End PyStr.

Export PyStr.

(** [str.lower], supplied by the Python runtime. *)
Class Unicode := { lower : str -> str }.

(** ** Stable sorting, as [list.sort] does it *)

Module PySort.

Section Sort.
Context {A : Type}.
Variable le : A -> A -> bool.

(** [x] goes in front of the first element it is not above, so that it
    stays ahead of the equal elements that followed it. *)
Fixpoint insert_by (x : A) (l : list A) : list A :=
  match l with
  | [] => [x]
  | y :: l' => if le x y then x :: l else y :: insert_by x l'
  end.

Definition sort_by (l : list A) : list A :=
  fold_right insert_by [] l.
End Sort.

End PySort.

Export PySort.

(** ** Exceptions, the file store and the monad of the engine *)

Module Runtime.

Inductive ExnClass :=
| FileNotFoundError
| ValueError
| RuntimeError
| OSError
| UnicodeDecodeError
| PackageNotFoundError
| FileDataError
| KeyError.

(** An exception: its class and [str(e)]. *)
Record Exn := mkExn { exn_class : ExnClass; exn_msg : str }.

Inductive result (A : Type) :=
| Ok (a : A)
| Raise (e : Exn).
Arguments Ok {A} a.
Arguments Raise {A} e.

(** A rectangle [(x0, y0, x1, y1)]. *)
Record Rect := mkRect { rx0 : Q; ry0 : Q; rx1 : Q; ry1 : Q }.

(** *** python-docx: runs, paragraphs, documents *)

Record Font := mkFont {
  font_name : option str;
  font_size : option Z;            (* points *)
  font_bold : option bool;
  font_color : option (Z * Z * Z)
}.

Record Run := mkRun { run_text : str; run_font : Font }.

(** What carries text in a paragraph, in the order of the document: a
    run, or a hyperlink with the runs inside it. *)
Inductive Inline :=
| InlineRun (r : Run)
| Hyperlink (inner : list Run).

Record Paragraph := mkParagraph { inlines : list Inline }.

(** [doc.paragraphs] *)
Definition Document := list Paragraph.

Definition is_run (i : Inline) : bool :=
  match i with
  | InlineRun _ => true
  | Hyperlink _ => false
  end.

(** [paragraph.runs]: the runs that are children of the paragraph; the
    runs inside a hyperlink are not among them. *)
Definition runs (p : Paragraph) : list Run :=
  flat_map (fun i => match i with
                     | InlineRun r => [r]
                     | Hyperlink _ => []
                     end) (inlines p).

(** [run.text] of a run, [hyperlink.text] of a hyperlink. *)
Definition inline_text (i : Inline) : str :=
  match i with
  | InlineRun r => run_text r
  | Hyperlink inner => concat (map run_text inner)
  end.

(** [paragraph.text]: the text of the runs and of the hyperlinks of the
    paragraph, concatenated in the order of the document. *)
Definition paragraph_text (p : Paragraph) : str :=
  concat (map inline_text (inlines p)).

(** *** PyMuPDF and the container formats

    The page type, the search and text extraction of a page, the removal
    of the glyphs under a list of redaction annotations, and the number of
    bytes a saved container occupies belong to the libraries; the engine
    is parametric in them. *)
Class Fitz := {
  Page : Type;
  search_for : Page -> str -> list Rect;
  get_text_words : Page -> list (Rect * str);
  apply_redactions : Page -> list Rect -> Page;
  get_text : Page -> str;
  pdf_bytes : list Page -> Z;
  docx_bytes : Document -> Z
}.

Section Store.
Context `{Fitz}.

Inductive Body :=
| TextFile (content : str)
| DocxFile (doc : Document)
| PdfFile (pages : list Page)
| Truncated.                      (* a container whose writing broke off *)

(** Number of bytes of the UTF-8 encoding. *)
Definition utf8_len (s : str) : Z :=
  fold_right
    (fun c n =>
       (if N.ltb c 128 then 1
        else if N.ltb c 2048 then 2
        else if N.ltb c 65536 then 3 else 4) + n) 0 s.

(** [os.path.getsize] of a stored file. *)
Definition body_size (b : Body) : Z :=
  match b with
  | TextFile c => utf8_len c
  | DocxFile d => docx_bytes d
  | PdfFile ps => pdf_bytes ps
  | Truncated => 0
  end.

Inductive Event :=
| EvExists (p : str)
| EvGetsize (p : str)
| EvOpenRead (p : str)
| EvOpenWrite (p : str)
| EvRemove (p : str).

(** The world of one call: the files by path, the paths on which the
    device refuses data once the file has been created, and the file
    operations performed so far, latest first.  The files are kept under
    their paths as spelled: two spellings of one file would be two
    entries, and no statement of the development rests on two different
    strings naming different files. *)
Record World := mkWorld {
  files : gmap str Body;
  failing_writes : str -> bool;
  trace : list Event
}.

Definition IO (A : Type) : Type := World -> result A * World.

Definition ret {A} (a : A) : IO A := fun w => (Ok a, w).

Definition bind {A B} (m : IO A) (k : A -> IO B) : IO B :=
  fun w =>
    match m w with
    | (Ok a, w') => k a w'
    | (Raise e, w') => (Raise e, w')
    end.

Definition raise {A} (c : ExnClass) (msg : str) : IO A :=
  fun w => (Raise (mkExn c msg), w).

(** [try: m  except Exception as e: h e] *)
Definition try_except {A} (m : IO A) (h : Exn -> IO A) : IO A :=
  fun w =>
    match m w with
    | (Ok a, w') => (Ok a, w')
    | (Raise e, w') => h e w'
    end.

Definition log (e : Event) : IO unit :=
  fun w => (Ok tt, mkWorld (files w) (failing_writes w) (e :: trace w)).

Definition lookup_file (p : str) : IO (option Body) :=
  fun w => (Ok (files w !! p), w).

Definition store (p : str) (b : Body) : IO unit :=
  fun w => (Ok tt, mkWorld (<[p := b]> (files w)) (failing_writes w) (trace w)).

Definition unlink (p : str) : IO unit :=
  fun w => (Ok tt, mkWorld (delete p (files w)) (failing_writes w) (trace w)).

Definition refuses (p : str) : IO bool :=
  fun w => (Ok (failing_writes w p), w).

End Store.

Declare Scope io_scope.
Delimit Scope io_scope with io.
Notation "'do' x <- m ; k" := (bind m (fun x => k))
  (at level 10, x name, m at level 100, k at level 200) : io_scope.
Notation "m ;; k" := (bind m (fun _ => k))
  (at level 100, k at level 200, right associativity) : io_scope.

Section FileOps.
Context `{Fitz}.
Local Open Scope io_scope.

Definition no_such_file (p : str) : str :=
  py "[Errno 2] No such file or directory: '" ++ p ++ py "'".

Definition no_space : str := py "[Errno 28] No space left on device".

Arguments no_such_file : simpl never.
Arguments no_space : simpl never.

(** [os.path.exists(p)] *)
Definition os_path_exists (p : str) : IO bool :=
  log (EvExists p);;
  do f <- lookup_file p;
  ret (match f with Some _ => true | None => false end).

(** [os.path.getsize(p)] *)
Definition os_path_getsize (p : str) : IO Z :=
  log (EvGetsize p);;
  do f <- lookup_file p;
  match f with
  | Some b => ret (body_size b)
  | None => raise FileNotFoundError (no_such_file p)
  end.

(** [os.remove(p)] *)
Definition os_remove (p : str) : IO unit :=
  log (EvRemove p);;
  do f <- lookup_file p;
  match f with
  | Some _ => unlink p
  | None => raise FileNotFoundError (no_such_file p)
  end.

(** What a file opened in text mode with the default [newline=None]
    gives for the stored characters: a carriage return, with the line feed
    that follows it if there is one, is read as one line feed. *)
Fixpoint universal_newlines (stored : str) : str :=
  match stored with
  | [] => []
  | c :: rest =>
      if N.eqb c 13
      then 10%N :: match rest with
                   | d :: rest' =>
                       if N.eqb d 10 then universal_newlines rest'
                       else universal_newlines rest
                   | [] => []
                   end
      else c :: universal_newlines rest
  end.

(** [with open(p, 'r', encoding='utf-8') as f: f.read()] *)
Definition read_text (p : str) : IO str :=
  log (EvOpenRead p);;
  do f <- lookup_file p;
  match f with
  | None => raise FileNotFoundError (no_such_file p)
  | Some (TextFile c) => ret (universal_newlines c)
  | Some _ =>
      raise UnicodeDecodeError (py "'utf-8' codec can't decode byte")
  end.

(** [with open(p, 'w', encoding='utf-8') as f: f.write(content)]:
    opening creates or empties the file, then the data goes in; a line
    feed is written as [os.linesep], which is the line feed itself on the
    POSIX systems whose [os.path] the model follows. *)
Definition write_text (p : str) (content : str) : IO unit :=
  log (EvOpenWrite p);;
  store p (TextFile []);;
  do full <- refuses p;
  if full then raise OSError no_space
  else store p (TextFile content).

(** [docx.Document(p)] *)
Definition docx_open (p : str) : IO Document :=
  log (EvOpenRead p);;
  do f <- lookup_file p;
  match f with
  | Some (DocxFile d) => ret d
  | _ => raise PackageNotFoundError (py "Package not found at '" ++ p ++ py "'")
  end.

(** [doc.save(p)] of python-docx *)
Definition docx_save (p : str) (d : Document) : IO unit :=
  log (EvOpenWrite p);;
  store p Truncated;;
  do full <- refuses p;
  if full then raise OSError no_space
  else store p (DocxFile d).

(** [fitz.open(p)] *)
Definition fitz_open (p : str) : IO (list Page) :=
  log (EvOpenRead p);;
  do f <- lookup_file p;
  match f with
  | Some (PdfFile ps) => ret ps
  | None => raise FileNotFoundError (py "no such file: '" ++ p ++ py "'")
  | Some _ => raise FileDataError (py "Failed to open file '" ++ p ++ py "'.")
  end.

(** [doc.save(p, ...)] of PyMuPDF *)
Definition fitz_save (p : str) (ps : list Page) : IO unit :=
  log (EvOpenWrite p);;
  store p Truncated;;
  do full <- refuses p;
  if full then raise OSError no_space
  else store p (PdfFile ps).

End FileOps.

End Runtime.

Export Runtime.

(** ** The file handler ([file_handler.py]) *)

(** [mimetypes.guess_type(path)[0]], a table of the Python runtime. *)
Class Mimetypes := { guess_type : str -> option str }.

Module FileHandler.

Section FileHandler.
Context `{Fitz} `{Unicode} `{Mimetypes}.
Local Open Scope io_scope.

Definition str_eqb (a b : str) : bool := bool_decide (a = b).

(** [x in l] for a list of strings *)
Definition str_in_list (x : str) (l : list str) : bool :=
  existsb (str_eqb x) l.

(** The class attribute [MIME_TYPE_MAPPING], in the order it is
    written. *)
Definition MIME_TYPE_MAPPING : list (str * (str * list str)) :=
  [ (py "application/pdf", (py "pdf", [py ".pdf"]));
    (py "application/vnd.openxmlformats-officedocument.wordprocessingml.document",
     (py "docx", [py ".docx"; py ".doc"]));
    (py "text/plain", (py "txt", [py ".txt"; py ".text"]));
    (py "application/rtf", (py "rtf", [py ".rtf"])) ].

(** [MIME_TYPE_MAPPING.get(k)] *)
Fixpoint mapping_get (k : str) (m : list (str * (str * list str)))
  : option (str * list str) :=
  match m with
  | [] => None
  | (k', v) :: m' => if str_eqb k k' then Some v else mapping_get k m'
  end.

(** [file_mime and file_mime in self.MIME_TYPE_MAPPING] *)
Definition known_mime (file_mime : option str) : option (str * list str) :=
  match file_mime with
  | None => None
  | Some [] => None
  | Some m => mapping_get m MIME_TYPE_MAPPING
  end.

(** The size ceiling of [validate_file], in MiB. *)
Definition size_limit_mb : Q := 100.

Definition validate_file (file_path : str) : IO bool :=
  do present <- os_path_exists file_path;
  if negb present
  then raise FileNotFoundError (py "File does not exist")
  else
    do size <- os_path_getsize file_path;
    if negb (Qle_bool (inject_Z size / inject_Z (1024 * 1024)) size_limit_mb)
    then raise ValueError (py "File exceeds 100MB limit")
    else
      match known_mime (guess_type file_path) with
      | Some _ => ret true
      | None =>
          let ext := lower (snd (splitext file_path)) in
          let valid_extensions :=
            flat_map (fun mime_info => snd (snd mime_info)) MIME_TYPE_MAPPING in
          if negb (str_in_list ext valid_extensions)
          then raise ValueError (py "Unsupported file type: " ++ ext)
          else ret true
      end.

(** The loop of [get_file_type] over [MIME_TYPE_MAPPING.items()]. *)
Fixpoint type_of_extension (ext : str) (m : list (str * (str * list str)))
  : option str :=
  match m with
  | [] => None
  | (_, (file_type, extensions)) :: m' =>
      if str_in_list ext extensions then Some file_type
      else type_of_extension ext m'
  end.

Definition get_file_type (file_path : str) : option str :=
  match known_mime (guess_type file_path) with
  | Some v => Some (fst v)
  | None =>
      let ext := lower (snd (splitext file_path)) in
      type_of_extension ext MIME_TYPE_MAPPING
  end.

(** [_extract_docx_text] *)
Definition _extract_docx_text (file_path : str) : IO str :=
  try_except
    (do doc <- docx_open file_path;
     ret (join (py (String (ascii_of_nat 10) EmptyString))
               (map paragraph_text doc)))
    (fun e => raise RuntimeError
                (py "DOCX text extraction failed: " ++ exn_msg e)).

(** [_extract_plain_text] *)
Definition _extract_plain_text (file_path : str) : IO str :=
  try_except
    (read_text file_path)
    (fun e => raise RuntimeError
                (py "Text file extraction failed: " ++ exn_msg e)).

End FileHandler.

End FileHandler.

(** ** The redaction engine ([redaction_engine.py], class [RedactionEngine]) *)

(** A redaction suggestion: the dictionary the suggester and the operator
    hand to the engine, by its keys. *)
Record Suggestion := mkSuggestion {
  text : str;
  kind : str;
  confidence : Z;
  reason : str
}.

Module RedactionEngine.

(** One entry of [redactions]: [(start, end, replacement)]. *)
Definition Redaction : Type := Z * Z * str.

Definition red_start (r : Redaction) : Z := fst (fst r).
Definition red_end (r : Redaction) : Z := snd (fst r).
Definition red_repl (r : Redaction) : str := snd r.

Definition REDACTED : str := py "[REDACTED]".

(** The literal of line 421, as the source file holds it: the three code
    points U+00E2, U+2013, U+02C6. *)
Definition FILLER : str := [226%N; 8211%N; 710%N].

(** The test of line 402 on an extracted text: does one of the texts
    occur in it? *)
Definition survives (extracted : str) (suggestions : list Suggestion) : bool :=
  existsb (fun suggestion => contains extracted (text suggestion)) suggestions.

Section Text.
Context `{Unicode}.

(** The sort key [(-len(x['text']), x['text'].lower())], compared as
    Python compares tuples. *)
Definition suggestion_key_le (a b : Suggestion) : bool :=
  let ka := - len (text a) in
  let kb := - len (text b) in
  (ka <? kb) || ((ka =? kb) && str_le (lower (text a)) (lower (text b))).

(** [suggestions.sort(key=...)] *)
Definition sort_suggestions (suggestions : list Suggestion) : list Suggestion :=
  sort_by suggestion_key_le suggestions.

(** The [while True] loop of lines 454-459; [fuel] bounds the number of
    iterations. *)
Fixpoint find_loop (fuel : nat) (content txt : str) (start : Z)
         (redactions : list Redaction) : option (list Redaction) :=
  match fuel with
  | O => None
  | S fuel' =>
      let pos := find content txt start in
      if pos =? -1 then Some redactions
      else find_loop fuel' content txt (pos + 1)
             (redactions ++ [(pos, pos + len txt, REDACTED)])
  end.

(** Iterations that always suffice: one per index of the content, one
    for its end and one for the failing search. *)
Definition enough_fuel (content : str) : nat := S (S (length content)).

(** Lines 450-459: the occurrences of every suggestion, appended in the
    order of the suggestions. *)
Fixpoint collect_redactions (content : str) (suggestions : list Suggestion)
         (redactions : list Redaction) : list Redaction :=
  match suggestions with
  | [] => redactions
  | suggestion :: rest =>
      let redactions' :=
        match find_loop (enough_fuel content) content (text suggestion) 0
                        redactions with
        | Some r => r
        | None => redactions
        end in
      collect_redactions content rest redactions'
  end.

(** [redactions.sort(key=lambda x: x[0], reverse=True)] *)
Definition sort_redactions (redactions : list Redaction) : list Redaction :=
  sort_by (fun a b => red_start b <=? red_start a) redactions.

(** Lines 465-470: the slice assignments, in the order of the list. *)
Definition apply_redactions_to (content : str) (redactions : list Redaction)
  : str :=
  fold_left
    (fun content_chars r =>
       slice_assign content_chars (red_start r) (red_end r) (red_repl r))
    redactions content.

(** What [_redact_text] writes for a given content. *)
Definition redacted_content (content : str) (suggestions : list Suggestion)
  : str :=
  let suggestions := sort_suggestions suggestions in
  let redactions := collect_redactions content suggestions [] in
  let redactions := sort_redactions redactions in
  apply_redactions_to content redactions.
End Text.


(** The constructor of [AIRedactionSuggester] ([ai_suggestions.py] is not
    among the sources): all the engine sees of it is whether it raises. *)
Class Suggester := { suggester_init : result unit }.

Section Engine.
Context `{Fitz} `{Unicode} `{Suggester}.
Local Open Scope io_scope.

(** *** Plain text *)

Definition _redact_text (file_path : str) (suggestions : list Suggestion)
           (output_path : str) : IO (option str) :=
  try_except
    (do content <- read_text file_path;
     write_text output_path (redacted_content content suggestions);;
     ret (Some output_path))
    (fun e => raise RuntimeError (py "Text redaction failed: " ++ exn_msg e)).

(** *** DOCX *)

(** The font of the run that carries the redacted text. *)
Definition redaction_font : Font :=
  mkFont (Some (py "Calibri")) (Some 11) (Some true) (Some (0, 0, 0)).

(** Lines 424-425: [run.text = ""] for every run of [paragraph.runs];
    a hyperlink keeps its runs. *)
Definition cleared (rs : list Run) : list Run :=
  map (fun run => mkRun [] (run_font run)) rs.

Definition clear_inline (i : Inline) : Inline :=
  match i with
  | InlineRun run => InlineRun (mkRun [] (run_font run))
  | Hyperlink inner => Hyperlink inner
  end.

(** Lines 418-432, for one paragraph and one text. *)
Definition redact_paragraph (text_to_redact : str) (paragraph : Paragraph)
  : Paragraph :=
  if contains (paragraph_text paragraph) text_to_redact
  then
    let text := paragraph_text paragraph in
    let redacted_text :=
      replace text text_to_redact (times FILLER (len text_to_redact)) in
    mkParagraph (map clear_inline (inlines paragraph)
                 ++ [InlineRun (mkRun redacted_text redaction_font)])
  else paragraph.

(** Lines 413-432: every suggestion over every paragraph. *)
Definition redact_paragraphs (doc : Document) (suggestions : list Suggestion)
  : Document :=
  fold_left
    (fun doc suggestion => map (redact_paragraph (text suggestion)) doc)
    suggestions doc.

Definition _redact_docx (file_path : str) (suggestions : list Suggestion)
           (output_path : str) : IO (option str) :=
  try_except
    (do doc <- docx_open file_path;
     (fun w => (suggester_init, w));;
     docx_save output_path (redact_paragraphs doc suggestions);;
     ret (Some output_path))
    (fun e => raise RuntimeError (py "DOCX redaction failed: " ++ exn_msg e)).

(** *** PDF *)

(** [_create_pdf_redaction_annot]: the rectangle of the annotation. *)
Definition _create_pdf_redaction_annot (rect : Rect) (padding : Q) : Rect :=
  mkRect (rx0 rect - padding) (ry0 rect - padding)
         (rx1 rect + padding) (ry1 rect + padding).

(** Lines 369-378: the annotations one suggestion adds to a page. *)
Definition page_annotations (page : Page) (suggestion : Suggestion)
  : list Rect :=
  let text_to_redact := text suggestion in
  map (fun quad_rect => _create_pdf_redaction_annot quad_rect 2)
      (search_for page text_to_redact)
  ++ map (fun inst => _create_pdf_redaction_annot (fst inst) 2)
         (List.filter (fun inst => contains (snd inst) text_to_redact)
                 (get_text_words page)).

(** Lines 368-380, for one page. *)
Definition redact_page (suggestions : list Suggestion) (page : Page) : Page :=
  apply_redactions page (flat_map (page_annotations page) suggestions).

(** [_verify_redaction] *)
Definition _verify_redaction (file_path : str) (suggestions : list Suggestion)
  : IO bool :=
  try_except
    (do doc <- fitz_open file_path;
     let text_ := join (py " ") (map get_text doc) in
     ret (negb (existsb (fun suggestion => contains text_ (text suggestion))
                        suggestions)))
    (fun _ => ret false).

Definition _redact_pdf (file_path : str) (suggestions : list Suggestion)
           (output_path : str) : IO (option str) :=
  try_except
    (do doc <- fitz_open file_path;
     fitz_save output_path (map (redact_page suggestions) doc);;
     do verified <- _verify_redaction output_path suggestions;
     ret (if verified then Some output_path else None))
    (fun e =>
       do present <- os_path_exists output_path;
       (if present then os_remove output_path else ret tt);;
       raise RuntimeError (py "PDF redaction failed: " ++ exn_msg e)).

(** *** The public entry point *)

Definition supported_formats
  : list (str * (str -> list Suggestion -> str -> IO (option str))) :=
  [ (py "pdf", _redact_pdf); (py "docx", _redact_docx); (py "txt", _redact_text) ].

(** [self.supported_formats.get(k)] *)
Fixpoint formats_get {V} (k : str) (m : list (str * V)) : option V :=
  match m with
  | [] => None
  | (k', v) :: m' => if bool_decide (k = k') then Some v else formats_get k m'
  end.

Definition redact_document (file_path : str) (suggestions : list Suggestion)
           (output_path : str) : IO (option str) :=
  match suggestions with
  | [] => raise ValueError (py "No redaction suggestions provided")
  | _ :: _ =>
      let file_extension :=
        replace (lower (snd (splitext file_path))) (py ".") [] in
      match formats_get file_extension supported_formats with
      | None =>
          raise ValueError (py "Unsupported file format: " ++ file_extension)
      | Some redaction_method =>
          try_except
            (redaction_method file_path suggestions output_path)
            (fun e => raise RuntimeError
                        (py "Document redaction failed: " ++ exn_msg e))
      end
  end.

End Engine.

End RedactionEngine.

(** ** Layout analysis ([redaction_engine.py], class [AdvancedPDFTextExtractor]) *)

(** A word as pdfplumber extracts it, by the keys the analysis reads. *)
Record Word := mkWord {
  word_text : str;
  x0 : Q;
  x1 : Q;
  top : Q;
  bottom : Q
}.

(** A detected column: [{'x_range': (min, max), 'words': [...]}]. *)
Record Column := mkColumn {
  x_range : Q * Q;
  words : list Word
}.

(** scikit-learn, as the detector uses it.  [fit_predict n_clusters
    random_state X] runs on the state of numpy's global generator and
    returns the label of every sample; [silhouette_score X labels] returns
    the mean silhouette coefficient.  Either may raise. *)
Class Sklearn := {
  Rng : Type;
  fit_predict : nat -> option Z -> list Q -> Rng -> result (list nat) * Rng;
  silhouette_score : list Q -> list nat -> result Q
}.

Module Layout.

(** [a < b] on rationals, as a boolean. *)
Definition Qlt_bool (a b : Q) : bool := negb (Qle_bool b a).

(** [min(xs)] and [max(xs)] of a non-empty sequence: the first of the
    least (greatest) elements. *)
Definition py_min (x : Q) (xs : list Q) : Q :=
  fold_left (fun m y => if Qlt_bool y m then y else m) xs x.

Definition py_max (x : Q) (xs : list Q) : Q :=
  fold_left (fun m y => if Qlt_bool m y then y else m) xs x.

(** [zip(a, b)] *)
Fixpoint zip {A B} (a : list A) (b : list B) : list (A * B) :=
  match a, b with
  | x :: a', y :: b' => (x, y) :: zip a' b'
  | _, _ => []
  end.

(** [range(a, b)] *)
Definition range (a b : nat) : list nat := seq a (b - a).

Section Detect.
Context `{Sklearn}.

(** The seed written at both constructions of [KMeans]. *)
Definition random_state : option Z := Some 42.

(** One turn of the loop of lines 131-138 on the pair
    [(best_n_clusters, best_score)]. *)
Definition score_candidate (x_coords : list Q) (best : nat * Q) (n : nat)
           (g : Rng) : result (nat * Q) * Rng :=
  if (1 <? n)%nat then
    match fit_predict n random_state x_coords g with
    | (Ok cluster_labels, g') =>
        match silhouette_score x_coords cluster_labels with
        | Ok score =>
            if Qlt_bool (snd best) score
            then (Ok (n, score), g')
            else (Ok best, g')
        | Raise e => (Raise e, g')
        end
    | (Raise e, g') => (Raise e, g')
    end
  else (Ok best, g).

(** The loop of lines 131-138 over the candidate counts. *)
Fixpoint best_clusters (x_coords : list Q) (candidates : list nat)
         (best : nat * Q) (g : Rng) : result (nat * Q) * Rng :=
  match candidates with
  | [] => (Ok best, g)
  | n :: rest =>
      match score_candidate x_coords best n g with
      | (Ok best', g') => best_clusters x_coords rest best' g'
      | (Raise e, g') => (Raise e, g')
      end
  end.

(** Lines 147-155 for one cluster: its words, and the column when there
    are any. *)
Definition cluster_column (ws : list Word) (cluster_labels : list nat)
           (cluster : nat) : list Column :=
  let cluster_words :=
    map fst (List.filter (fun wl => Nat.eqb (snd wl) cluster)
                    (zip ws cluster_labels)) in
  match cluster_words with
  | [] => []
  | w :: rest =>
      [ mkColumn (py_min (x0 w) (map x0 rest), py_max (x1 w) (map x1 rest))
                 cluster_words ]
  end.

(** Lines 144-157: the columns of the clusters [0 .. best_n_clusters-1]. *)
Definition group_columns (ws : list Word) (cluster_labels : list nat)
           (best_n_clusters : nat) : list Column :=
  flat_map (cluster_column ws cluster_labels) (range 0 best_n_clusters).

(** The candidate counts of the loop:
    [range(1, min(max_columns + 1, len(x_coords)))]. *)
Definition candidates (max_columns : nat) (x_coords : list Q) : list nat :=
  range 1 (Nat.min (max_columns + 1) (length x_coords)).

(** The [try] block of [_detect_columns], lines 125-157. *)
Definition detect_try (ws : list Word) (max_columns : nat) (g : Rng)
  : result (list Column) * Rng :=
  let x_coords := map x0 ws in
  match best_clusters x_coords (candidates max_columns x_coords)
                      (1%nat, -1 # 1) g with
  | (Raise e, g') => (Raise e, g')
  | (Ok (best_n_clusters, _), g') =>
      match fit_predict best_n_clusters random_state x_coords g' with
      | (Raise e, g'') => (Raise e, g'')
      | (Ok cluster_labels, g'') =>
          (Ok (group_columns ws cluster_labels best_n_clusters), g'')
      end
  end.

(** [_detect_columns(words, max_columns)]: no words, no columns; an
    exception anywhere in the [try] block ends in the empty list. *)
Definition _detect_columns_with (ws : list Word) (max_columns : nat)
           (g : Rng) : list Column * Rng :=
  match ws with
  | [] => ([], g)
  | _ :: _ =>
      match detect_try ws max_columns g with
      | (Ok columns, g') => (columns, g')
      | (Raise _, g') => ([], g')
      end
  end.

(** [_detect_columns(words)], with the default [max_columns=3]. *)
Definition _detect_columns (ws : list Word) (g : Rng) : list Column * Rng :=
  _detect_columns_with ws 3 g.

End Detect.

End Layout.

(** ** Column detection in the words of the specification *)

Module LayoutSpec.

Import Layout.

Section Contract.
Context `{Sklearn}.

(** With a seed, the labels do not depend on the global generator. *)
Definition seeded : Prop :=
  forall (n : nat) (seed : Z) (x : list Q) (g1 g2 : Rng),
    fst (fit_predict n (Some seed) x g1) = fst (fit_predict n (Some seed) x g2).

(** The labels of a clustering: one per sample, each below the number of
    clusters. *)
Definition well_labelled : Prop :=
  forall (n : nat) (rs : option Z) (x : list Q) (g g' : Rng) (labels : list nat),
    fit_predict n rs x g = (Ok labels, g') ->
    length labels = length x /\ List.Forall (fun l => (l < n)%nat) labels.

(** The silhouette score of the k-means clustering of [x] into [n]
    clusters, as the loop computes it. *)
Definition candidate_score (x : list Q) (g : Rng) (n : nat) : result Q :=
  match fst (fit_predict n random_state x g) with
  | Ok cluster_labels => silhouette_score x cluster_labels
  | Raise e => Raise e
  end.

(** A count the loop scores: from 2 to 3 and below the number of words. *)
Definition scored (x : list Q) (n : nat) : Prop :=
  (2 <= n)%nat /\ (n <= 3)%nat /\ (n < length x)%nat.

(** [k] with score [s] is the choice among the scored counts: the least
    count of greatest score when that score exceeds -1, and otherwise the
    single cluster with the score -1 it starts from. *)
Definition best_count (x : list Q) (g : Rng) (k : nat) (s : Q) : Prop :=
  (k = 1%nat /\ s = (-1 # 1)
   /\ forall n, scored x n ->
        exists sn, candidate_score x g n = Ok sn /\ (sn <= -1 # 1)%Q)
  \/ (scored x k /\ candidate_score x g k = Ok s /\ (-1 # 1 < s)%Q
      /\ forall n, scored x n ->
           exists sn, candidate_score x g n = Ok sn /\ (sn <= s)%Q
                      /\ ((n < k)%nat -> (sn < s)%Q)).

End Contract.

(** The horizontal extent of a column covers each of its words. *)
Definition covers (c : Column) : Prop :=
  forall w, In w (words c) ->
    (fst (x_range c) <= x0 w)%Q /\ (x1 w <= snd (x_range c))%Q.



End LayoutSpec.

(** ** Instances of the runtime parameters, for running the model

    [ExactSklearn] is k-means and the silhouette coefficient in exact
    rational arithmetic: farthest-first initialisation from a first centre
    drawn with the seed (with the global generator, when no seed is
    given), Lloyd's iteration to a fixed point, the first nearest centre on
    ties, and the library's check on the number of labels before scoring.
    The theorems below hold for every instance of [Sklearn] that meets the
    contract they state; this one is there to run the detector on concrete
    pages. *)

Module Instances.

Import RedactionEngine Layout.

#[export] Instance AsciiUnicode : Unicode := {| lower := ascii_lower |}.

(** The extensions [mimetypes] knows among those the handler meets. *)
Definition guess_by_extension (path : str) : option str :=
  let ext := ascii_lower (snd (splitext path)) in
  if bool_decide (ext = py ".pdf") then Some (py "application/pdf")
  else if bool_decide (ext = py ".docx")
  then Some (py "application/vnd.openxmlformats-officedocument.wordprocessingml.document")
  else if bool_decide (ext = py ".doc") then Some (py "application/msword")
  else if bool_decide (ext = py ".txt") then Some (py "text/plain")
  else if bool_decide (ext = py ".rtf") then Some (py "application/rtf")
  else if bool_decide (ext = py ".png") then Some (py "image/png")
  else None.

#[export] Instance ExtensionMimetypes : Mimetypes :=
  {| guess_type := guess_by_extension |}.

(** A PDF page as the list of its words; a search finds the words equal to
    the text, a redaction removes the words its rectangle touches.  A saved
    page takes 32 MiB (its words and a raster image). *)
Definition touches (r : Rect) (a : Rect) : bool :=
  Qle_bool (rx0 a) (rx1 r) && Qle_bool (rx0 r) (rx1 a)
  && Qle_bool (ry0 a) (ry1 r) && Qle_bool (ry0 r) (ry1 a).

#[export] Instance WordPages : Fitz := {|
  Page := list (Rect * str);
  search_for := fun page t =>
    map fst (List.filter (fun w => bool_decide (snd w = t)) page);
  get_text_words := fun page => page;
  apply_redactions := fun page annots =>
    List.filter (fun w => negb (existsb (touches (fst w)) annots)) page;
  get_text := fun page => join (py " ") (map snd page);
  pdf_bytes := fun pages => 1024 + 33554432 * Z.of_nat (length pages);
  docx_bytes := fun doc => 4096 + Z.of_nat (length (concat (map paragraph_text doc)))
|}.

#[export] Instance SuggesterReady : Suggester := {| suggester_init := Ok tt |}.

Module ExactSklearn.

Local Open Scope Q_scope.

Definition dist (a b : Q) : Q := Qred (Qabs (a - b)).

Definition qsum (l : list Q) : Q := fold_right (fun a b => Qred (a + b)) 0 l.

Definition mean (l : list Q) : Q :=
  Qred (qsum l / inject_Z (Z.of_nat (length l))).

(** Index of the first centre nearest to [x]. *)
Fixpoint nearest (x : Q) (centers : list Q) (i : nat) (best : nat) (d : Q)
  : nat :=
  match centers with
  | [] => best
  | c :: rest =>
      if Qlt_bool (dist x c) d
      then nearest x rest (S i) i (dist x c)
      else nearest x rest (S i) best d
  end.

Definition label_of (centers : list Q) (x : Q) : nat :=
  match centers with
  | [] => O
  | c :: rest => nearest x rest 1%nat 0%nat (dist x c)
  end.

Definition members (xs : list Q) (labels : list nat) (j : nat) : list Q :=
  map fst (List.filter (fun xl => Nat.eqb (snd xl) j) (zip xs labels)).

(** An empty cluster keeps its centre. *)
Definition update (xs : list Q) (labels : list nat) (centers : list Q)
  : list Q :=
  map (fun jc =>
         match members xs labels (fst jc) with
         | [] => snd jc
         | pts => mean pts
         end)
      (zip (seq 0%nat (length centers)) centers).

Definition same_centers (a b : list Q) : bool :=
  forallb (fun p => Qeq_bool (fst p) (snd p)) (zip a b).

Fixpoint lloyd (max_iter : nat) (xs centers : list Q) : list nat :=
  let labels := map (label_of centers) xs in
  match max_iter with
  | O => labels
  | S k =>
      let centers' := update xs labels centers in
      if same_centers centers centers' then labels
      else lloyd k xs centers'
  end.

(** Distance of [x] to the nearest of the centres chosen so far. *)
Definition gap (centers : list Q) (x : Q) : Q :=
  match centers with
  | [] => 0
  | c :: rest => fold_left (fun d c' => if Qlt_bool (dist x c') d then dist x c' else d)
                           rest (dist x c)
  end.

(** The first point farthest from the centres chosen so far. *)
Definition farthest (xs centers : list Q) : Q :=
  match xs with
  | [] => 0
  | x :: rest =>
      fold_left (fun b y => if Qlt_bool (gap centers b) (gap centers y) then y else b)
                rest x
  end.

Fixpoint more_centers (k : nat) (xs centers : list Q) : list Q :=
  match k with
  | O => centers
  | S k' => more_centers k' xs (centers ++ [farthest xs centers])
  end.

Definition init (n_clusters : nat) (seed : Z) (xs : list Q) : list Q :=
  let first := nth (Z.to_nat (seed mod Z.of_nat (length xs))%Z) xs 0 in
  more_centers (n_clusters - 1)%nat xs [first].

Definition exn (m : string) : Exn := mkExn ValueError (py m).

(** [KMeans(n_clusters, random_state).fit_predict(X)]: with a seed the
    global generator is neither read nor advanced. *)
Definition kmeans (n_clusters : nat) (rs : option Z) (xs : list Q) (g : Z)
  : result (list nat) * Z :=
  let seed := match rs with Some s => s | None => g end in
  let g' := match rs with Some _ => g | None => ((g * 1103515245 + 12345) mod 2147483648)%Z end in
  if (n_clusters =? 0)%nat then (Raise (exn "n_clusters must be >= 1"), g)
  else if (length xs <? n_clusters)%nat
  then (Raise (exn "n_samples should be >= n_clusters"), g)
  else (Ok (lloyd 300%nat xs (init n_clusters seed xs)), g').

Definition distinct_labels (labels : list nat) : list nat :=
  nodup Nat.eq_dec labels.

(** The silhouette coefficient of the sample [i]. *)
Definition coefficient (xs : list Q) (labels : list nat) (x : Q) (l : nat) : Q :=
  let own := members xs labels l in
  match (length own - 1)%nat with
  | O => 0
  | S _ as others =>
      let a := Qred (qsum (map (dist x) own) / inject_Z (Z.of_nat others)) in
      let bs := map (fun l' => mean (map (dist x) (members xs labels l')))
                    (List.filter (fun l' => negb (Nat.eqb l' l)) (distinct_labels labels)) in
      match bs with
      | [] => 0
      | b0 :: rest =>
          let b := py_min b0 rest in
          let m := if Qlt_bool a b then b else a in
          if Qeq_bool m 0 then 0 else Qred ((b - a) / m)
      end
  end.

(** [silhouette_score(X, labels)] *)
Definition silhouette (xs : list Q) (labels : list nat) : result Q :=
  let n_labels := length (distinct_labels labels) in
  if ((1 <? n_labels) && (n_labels <? length xs))%nat
  then Ok (mean (map (fun xl => coefficient xs labels (fst xl) (snd xl))
                     (zip xs labels)))
  else Raise (exn "Number of labels is invalid. Valid values are 2 to n_samples - 1 (inclusive)").

#[export] Instance Exact : Sklearn := {|
  Rng := Z;
  fit_predict := kmeans;
  silhouette_score := silhouette
|}.

End ExactSklearn.

End Instances.

(** ** Sample data: requests, disks and pages *)

Module Samples.

Import RedactionEngine Layout Instances.

Definition request (t : string) : Suggestion :=
  mkSuggestion (py t) (py "PII") 100 (py "entered by the operator").

(** A disk holding the listed files, on which the paths of [full] accept no
    data, with no file operation performed yet. *)
Definition disk `{Fitz} (l : list (str * Body)) (full : list str) : World :=
  mkWorld (list_to_map l)
          (fun p => existsb (fun q => bool_decide (p = q)) full) [].

Definition ssn_text : str :=
  py "John Doe's SSN is 123-45-6789 and email is john@example.com".

Definition ssn_redacted : str :=
  py "John Doe's SSN is [REDACTED] and email is john@example.com".

Definition run_of (t : string) : Run := mkRun (py t) (mkFont None None None None).

(** The line feed that [_extract_docx_text] puts between paragraphs. *)
Definition line_feed : str := [10%N].

(** A letter of two paragraphs, and a text selected across them in the
    extracted view. *)
Definition letter : Document :=
  [ mkParagraph [InlineRun (run_of "Contact: Jane")];
    mkParagraph [InlineRun (run_of "Roe lives here")] ].

Definition across_paragraphs : Suggestion :=
  mkSuggestion (py "Jane" ++ line_feed ++ py "Roe") (py "PII") 100
               (py "entered by the operator").

Definition word_at (a b : Z) : Word :=
  mkWord (py "word") (inject_Z a) (inject_Z b) 100 112.

(** Forty words, twenty starting at x0 = 72 and twenty at x0 = 320. *)
Definition two_column_page : list Word :=
  repeat (word_at 72 112) 20 ++ repeat (word_at 320 360) 20.


(** Two words, far apart. *)
Definition short_page : list Word := [word_at 5 9; word_at 50 90].

(** Three words that all start at x0 = 5. *)
Definition aligned_page : list Word :=
  [word_at 5 9; word_at 5 9; word_at 5 9].

End Samples.

(** ** The text applier in the words of the specification *)

Module Spec.

Import RedactionEngine.

(** Every index of [content] at which [txt] occurs, in increasing order;
    occurrences that overlap one another are all listed. *)
Definition occurrences (content txt : str) : list Z :=
  map Z.of_nat
      (List.filter (fun p => startswith (skipn p content) txt)
              (seq 0 (S (length content)))).

(** The same indices, read off the suffix [s] that starts at index [i]. *)
Fixpoint occurrences_at (s txt : str) (i : Z) : list Z :=
  (if startswith s txt then [i] else [])
  ++ match s with
     | [] => []
     | _ :: s' => occurrences_at s' txt (i + 1)
     end.

(** The span recorded for an occurrence of [txt] at [p]. *)
Definition span_of (txt : str) (p : Z) : Redaction :=
  (p, p + len txt, REDACTED).

(** Two spans do not overlap: one ends where or before the other starts. *)
Definition disjoint (a b : Redaction) : Prop :=
  red_end a <= red_start b \/ red_end b <= red_start a.

(** A span lies inside the content. *)
Definition inside (content : str) (r : Redaction) : Prop :=
  0 <= red_start r /\ red_start r <= red_end r /\ red_end r <= len content.

(** The content with every span of an increasing list of non-overlapping
    spans replaced: the text from [cursor] up to the next span is kept,
    the span gives way to its replacement, and so on to the end. *)
Fixpoint splice (content : str) (cursor : Z) (spans : list Redaction) : str :=
  match spans with
  | [] => slice content cursor (len content)
  | r :: rest =>
      slice content cursor (red_start r) ++ red_repl r
      ++ splice content (red_end r) rest
  end.

(** In the order of rewriting, every span ends where or before the spans
    rewritten ahead of it start. *)
Definition backwards (redactions : list Redaction) : Prop :=
  ForallOrdPairs (fun a b => red_end b <= red_start a) redactions.

(** No two spans of the list overlap. *)
Definition pairwise_disjoint (redactions : list Redaction) : Prop :=
  ForallOrdPairs disjoint redactions.

(** The order of the sort key: longer texts first, texts of one length by
    their lower-cased form. *)
Definition key_order `{Unicode} (a b : Suggestion) : Prop :=
  len (text b) < len (text a)
  \/ (len (text a) = len (text b)
      /\ str_le (lower (text a)) (lower (text b)) = true).

End Spec.

(** ** What the DOCX applier can remove *)

Module DocxSpec.

Import RedactionEngine.

(** No code point of the text is one of the three of the filler. *)
Definition filler_free (t : str) : Prop :=
  forall c, In c t -> ~ In c FILLER.

(** A text the rewriting of a paragraph removes for good: it is not empty
    and shares no code point with the filler. *)
Definition removable (t : str) : Prop :=
  t <> [] /\ filler_free t.

(** No paragraph of the document contains the text. *)
Definition clean (t : str) (doc : Document) : Prop :=
  forall p, In p doc -> contains (paragraph_text p) t = false.

(** The line feed that joins the paragraphs of an extracted text. *)
Definition LF : char := 10%N.

(** A paragraph without hyperlinks, and a document of such paragraphs. *)
Definition no_hyperlink (p : Paragraph) : Prop :=
  forallb is_run (inlines p) = true.

Definition plain (doc : Document) : Prop :=
  forall p, In p doc -> no_hyperlink p.

End DocxSpec.

(** ** pdfplumber, text extraction and temporary files ([file_handler.py]) *)

(** A word as pdfplumber extracts it with [extra_attrs]: the keys of
    [Word], and the font name and size when the dictionary has them. *)
Record PlumbWord := mkPlumbWord {
  pw_word : Word;
  pw_fontname : option str;
  pw_size : option Q
}.

(** pdfplumber on a page: [page.extract_text()], which is [None] for a
    page without text, and [page.extract_words(...)] with the parameters of
    [analyze_document_layout], which raises when a character of the page
    lacks one of the attributes asked for in [extra_attrs]. *)
Class Pdfplumber `{Fitz} := {
  extract_page_text : Page -> option str;
  extract_words : Page -> result (list PlumbWord)
}.

Module Extraction.

Section Extraction.
Context `{Fitz} `{Unicode} `{Mimetypes} `{Pdfplumber}.
Local Open Scope io_scope.

(** [pdfplumber.open(p)], and its [pages]. *)
Definition plumber_open (p : str) : IO (list Page) :=
  log (EvOpenRead p);;
  do f <- lookup_file p;
  match f with
  | Some (PdfFile ps) => ret ps
  | None => raise FileNotFoundError (no_such_file p)
  | Some _ => raise FileDataError (py "No /Root object! - Is this really a PDF?")
  end.

(** [page.extract_text() or ''] *)
Definition page_text_or_empty (page : Page) : str :=
  match extract_page_text page with
  | Some (_ :: _ as t) => t
  | _ => []
  end.

(** [_extract_pdf_text] *)
Definition _extract_pdf_text (file_path : str) : IO str :=
  try_except
    (do pages <- plumber_open file_path;
     ret (join (py (String (ascii_of_nat 10) EmptyString))
               (map page_text_or_empty pages)))
    (fun e => raise RuntimeError
                (py "PDF text extraction failed: " ++ exn_msg e)).

(** The dictionary [extractors] of [extract_text], in the order it is
    written. *)
Definition extractors : list (str * (str -> IO str)) :=
  [ (py "pdf", _extract_pdf_text);
    (py "docx", FileHandler._extract_docx_text);
    (py "txt", FileHandler._extract_plain_text);
    (py "rtf", FileHandler._extract_plain_text) ].

(** [str(file_type)] in the message of [extract_text]. *)
Definition show_type (file_type : option str) : str :=
  match file_type with
  | Some t => t
  | None => py "None"
  end.

(** [extractors.get(file_type)] *)
Definition extractor_for (file_type : option str) : option (str -> IO str) :=
  match file_type with
  | Some t => RedactionEngine.formats_get t extractors
  | None => None
  end.

(** [extract_text] *)
Definition extract_text (file_path : str) : IO str :=
  let file_type := FileHandler.get_file_type file_path in
  match extractor_for file_type with
  | None =>
      raise ValueError
            (py "No text extractor available for file type: "
             ++ show_type file_type)
  | Some extractor => extractor file_path
  end.

End Extraction.

End Extraction.

Module TempFiles.

(** An uploaded file: its name and [getvalue()]. *)
Record UploadedFile `{Fitz} := mkUpload {
  upload_name : str;
  upload_value : Body
}.
Arguments mkUpload {_} upload_name upload_value.

(** [tempfile.NamedTemporaryFile(delete=False, suffix=...)]: the name it
    picks on a given disk, and whether data of a given size goes through
    the buffer of the file object at once, so that a refusal of the device
    shows in [write] rather than when the file is closed. *)
Class Tempfile `{Fitz} := {
  temp_name : gmap str Body -> str -> str;
  unbuffered : Body -> bool
}.

(** How [save_temp_file] ends: with the path, with an exception of the
    engine's classes, or with the [UnboundLocalError] of a local variable
    read before its assignment. *)
Inductive Outcome :=
| Returned (path : str)
| Raised (e : Exn)
| UnboundLocalError (name : str).

Section SaveTemp.
Context `{Fitz} `{Unicode} `{Mimetypes} `{Tempfile}.
Local Open Scope io_scope.

(** The [except] block of [save_temp_file] once [temp_path] is bound. *)
Definition discard_temp (temp_path : str) (e : Exn) (w : World)
  : Outcome * World :=
  match (do present <- os_path_exists temp_path;
         if present then os_remove temp_path else ret tt) w with
  | (Ok _, w') =>
      (Raised (mkExn RuntimeError
                     (py "Failed to save temporary file: " ++ exn_msg e)),
       w')
  | (Raise e', w') => (Raised e', w')
  end.

(** [save_temp_file] *)
Definition save_temp_file (uploaded_file : UploadedFile) (w : World)
  : Outcome * World :=
  let file_extension := lower (snd (splitext (upload_name uploaded_file))) in
  let name := temp_name (files w) file_extension in
  let created :=
    mkWorld (<[name := Truncated]> (files w)) (failing_writes w)
            (EvOpenWrite name :: trace w) in
  if failing_writes w name
  then
    if unbuffered (upload_value uploaded_file)
    then (UnboundLocalError (py "temp_path"), created)
    else discard_temp name (mkExn OSError no_space) created
  else
    let written :=
      mkWorld (<[name := upload_value uploaded_file]> (files created))
              (failing_writes w) (trace created) in
    match FileHandler.validate_file name written with
    | (Ok _, w') => (Returned name, w')
    | (Raise e, w') => discard_temp name e w'
    end.

End SaveTemp.

End TempFiles.

(** ** The rest of the layout analysis ([redaction_engine.py]) *)

Module LayoutAnalysis.

Import Layout.
Local Open Scope Q_scope.

(** [max(a, b)]: [b] only when it is greater. *)
Definition max2 (a b : Q) : Q := if Qlt_bool a b then b else a.

(** [_detect_text_direction] *)
Definition _detect_text_direction (ws : list Word) : str :=
  let word_progressions := map (fun w => Qlt_bool (x0 w) (x1 w)) ws in
  let ltr_ratio :=
    match word_progressions with
    | [] => 0
    | _ :: _ =>
        inject_Z (Z.of_nat (length (List.filter (fun b => b) word_progressions)))
        / inject_Z (Z.of_nat (length word_progressions))
    end in
  if Qlt_bool (9 # 10) ltr_ratio then py "ltr"
  else if Qlt_bool ltr_ratio (1 # 10) then py "rtl"
  else py "mixed".

(** A reading zone: [{'top', 'bottom', 'words', 'text'}]. *)
Record Zone := mkZone {
  zone_top : Q;
  zone_bottom : Q;
  zone_words : list Word;
  zone_text : str
}.

(** The zone a word opens, and the zone extended by a word. *)
Definition open_zone (w : Word) : Zone :=
  mkZone (top w) (bottom w) [w] (word_text w).

Definition extend_zone (z : Zone) (w : Word) : Zone :=
  mkZone (zone_top z) (max2 (zone_bottom z) (bottom w))
         (zone_words z ++ [w]) (zone_text z ++ py " " ++ word_text w).

(** One turn of the loop of lines 201-216 on [(zones, current_zone)]. *)
Definition zone_step (st : list Zone * option Zone) (w : Word)
  : list Zone * option Zone :=
  match snd st with
  | None => (fst st, Some (open_zone w))
  | Some current =>
      if Qlt_bool 10 (top w - zone_bottom current)
      then (fst st ++ [current], Some (open_zone w))
      else (fst st, Some (extend_zone current w))
  end.

(** [_identify_reading_zones] *)
Definition _identify_reading_zones (ws : list Word) : list Zone :=
  let sorted_words := sort_by (fun a b => Qle_bool (top a) (top b)) ws in
  let st := fold_left zone_step sorted_words ([], None) in
  match snd st with
  | Some current => fst st ++ [current]
  | None => fst st
  end.

(** A text block of [_extract_text_blocks]. *)
Record Block := mkBlock {
  block_top : Q;
  block_bottom : Q;
  block_left : Q;
  block_right : Q;
  block_text : str;
  block_words : list PlumbWord;
  block_sizes : list Q;
  block_names : list str
}.

(** [word.get('size', 0)] and [word.get('fontname', 'unknown')] *)
Definition size_of (w : PlumbWord) : Q :=
  match pw_size w with Some s => s | None => 0 end.

Definition fontname_of (w : PlumbWord) : str :=
  match pw_fontname w with Some n => n | None => py "unknown" end.

Definition open_block (w : PlumbWord) : Block :=
  mkBlock (top (pw_word w)) (bottom (pw_word w)) (x0 (pw_word w)) (x1 (pw_word w))
          (word_text (pw_word w)) [w] [size_of w] [fontname_of w].

Definition extend_block (b : Block) (w : PlumbWord) : Block :=
  mkBlock (block_top b)
          (max2 (block_bottom b) (bottom (pw_word w)))
          (block_left b)
          (max2 (block_right b) (x1 (pw_word w)))
          (block_text b ++ py " " ++ word_text (pw_word w))
          (block_words b ++ [w])
          (block_sizes b ++ [size_of w])
          (block_names b ++ [fontname_of w]).

(** The test of lines 255-257 for a block in progress. *)
Definition breaks_block (current : Block) (w : PlumbWord) : bool :=
  Qlt_bool 5 (Qabs (top (pw_word w) - block_bottom current))
  || Qlt_bool 20 (x0 (pw_word w) - block_right current).

Definition block_step (st : list Block * option Block) (w : PlumbWord)
  : list Block * option Block :=
  match snd st with
  | None => (fst st, Some (open_block w))
  | Some current =>
      if breaks_block current w
      then (fst st ++ [current], Some (open_block w))
      else (fst st, Some (extend_block current w))
  end.

(** The order of the key [(w['top'], w['x0'])]. *)
Definition top_left_le (a b : PlumbWord) : bool :=
  Qlt_bool (top (pw_word a)) (top (pw_word b))
  || (Qeq_bool (top (pw_word a)) (top (pw_word b))
      && Qle_bool (x0 (pw_word a)) (x0 (pw_word b))).

(** [_extract_text_blocks] *)
Definition _extract_text_blocks (ws : list PlumbWord) : list Block :=
  match ws with
  | [] => []
  | _ :: _ =>
      let sorted_words := sort_by top_left_le ws in
      let st := fold_left block_step sorted_words ([], None) in
      match snd st with
      | Some current => fst st ++ [current]
      | None => fst st
      end
  end.

(** [_calculate_vertical_spread] *)
Definition _calculate_vertical_spread (ws : list Word) : Q :=
  match ws with
  | [] => 0
  | w :: rest =>
      py_max (bottom w) (map bottom rest) - py_min (top w) (map top rest)
  end.

(** [statistics.median] of a non-empty sequence. *)
Definition median (data : list Q) : Q :=
  let sorted := sort_by Qle_bool data in
  let n := length sorted in
  let i := (n / 2)%nat in
  if Nat.odd n then nth i sorted 0
  else (nth (i - 1) sorted 0 + nth i sorted 0) / 2.

(** [statistics.mean] of a non-empty sequence. *)
Definition mean (data : list Q) : Q :=
  fold_right Qplus 0 data / inject_Z (Z.of_nat (length data)).

(** [Counter(names)] as a dictionary: the names in the order of their first
    occurrence, each with its count. *)
Fixpoint count_name (n : str) (counts : list (str * nat)) : list (str * nat) :=
  match counts with
  | [] => [(n, 1%nat)]
  | (m, k) :: rest =>
      if bool_decide (m = n) then (m, S k) :: rest
      else (m, k) :: count_name n rest
  end.

Definition Counter (names : list str) : list (str * nat) :=
  fold_left (fun counts n => count_name n counts) names [].

Record SizeStats := mkSizeStats {
  stat_min : Q;
  stat_max : Q;
  stat_median : Q;
  stat_mean : Q
}.

(** The dictionary of [_analyze_font_distribution]; [size_stats] is [{}]
    for a page without words. *)
Record FontDistribution := mkFontDistribution {
  size_stats : option SizeStats;
  font_counts : list (str * nat)
}.

(** [_analyze_font_distribution] *)
Definition _analyze_font_distribution (ws : list PlumbWord) : FontDistribution :=
  match ws with
  | [] => mkFontDistribution None []
  | w :: rest =>
      let font_sizes := map size_of ws in
      let font_names := map fontname_of ws in
      mkFontDistribution
        (Some (mkSizeStats (py_min (size_of w) (map size_of rest))
                           (py_max (size_of w) (map size_of rest))
                           (median font_sizes)
                           (mean font_sizes)))
        (Counter font_names)
  end.



Section Analysis.
Context `{Sklearn}.




End Analysis.

Section Document.
Context `{Fitz} `{Pdfplumber} `{Sklearn}.



End Document.

End LayoutAnalysis.

(** ** What the zones and blocks are, said of their words *)

Module AnalysisSpec.

Import Layout LayoutAnalysis.
Local Open Scope Q_scope.

(** The greatest of a sequence of coordinates. *)
Definition greatest (qs : list Q) : Q :=
  match qs with
  | [] => 0
  | q :: rest => py_max q rest
  end.

(** The zone that holds the words [ws], in this order. *)
Definition zone_of (ws : list Word) : Zone :=
  mkZone (match ws with w :: _ => top w | [] => 0 end)
         (greatest (map bottom ws))
         ws
         (join (py " ") (map word_text ws)).

(** The block that holds the words [ws], in this order. *)
Definition block_of (ws : list PlumbWord) : Block :=
  mkBlock (match ws with w :: _ => top (pw_word w) | [] => 0 end)
          (greatest (map (fun w => bottom (pw_word w)) ws))
          (match ws with w :: _ => x0 (pw_word w) | [] => 0 end)
          (greatest (map (fun w => x1 (pw_word w)) ws))
          (join (py " ") (map (fun w => word_text (pw_word w)) ws))
          ws
          (map size_of ws)
          (map fontname_of ws).

(** The number of words whose [x1] is to the right of their [x0]. *)
Definition progressing (ws : list Word) : nat :=
  length (List.filter (fun w => Qlt_bool (x0 w) (x1 w)) ws).

(** [counts.get(n, 0)] *)
Fixpoint count_of (n : str) (counts : list (str * nat)) : nat :=
  match counts with
  | [] => 0%nat
  | (m, k) :: rest => if bool_decide (m = n) then k else count_of n rest
  end.

(** The sum of the counts of a [Counter]. *)
Definition total (counts : list (str * nat)) : nat :=
  fold_right (fun c n => (snd c + n)%nat) 0%nat counts.

End AnalysisSpec.

(** ** The list of accepted redactions ([main.py]) *)

Module App.

(** What [_handle_suggestion_acceptance] shows. *)
Inductive Notice :=
| Success (msg : str)
| Warning (msg : str).

(** [_handle_suggestion_acceptance], on
    [st.session_state.custom_redactions]. *)
Definition _handle_suggestion_acceptance (suggestion : Suggestion)
           (custom_redactions : list Suggestion) : list Suggestion * Notice :=
  if negb (existsb (fun t => bool_decide (text suggestion = t))
                   (map text custom_redactions))
  then (custom_redactions ++ [suggestion],
        Success (py "Suggestion added to redaction list!"))
  else (custom_redactions,
        Warning (py "This text is already in the redaction list!")).

End App.

(** ** Further instances, for running the model *)

Module MoreInstances.

Import Instances.

(** pdfplumber on the pages of [WordPages]: the text is the words joined
    by spaces.  The characters of a page carry no attribute [color], which
    [analyze_document_layout] asks for, so the word extraction raises
    [KeyError] on every page that has text, and finds no word on a page
    that has none. *)
#[export] Instance WordPlumber : Pdfplumber := {|
  extract_page_text := fun page =>
    match page with
    | [] => None
    | _ :: _ => Some (join (py " ") (map snd page))
    end;
  extract_words := fun page =>
    match page with
    | [] => Ok []
    | _ :: _ => Raise (mkExn KeyError (py "'color'"))
    end
|}.

(** Temporary files named [/tmp/tmp] and as many [x] as there are files on
    the disk, then the suffix; data of 8192 bytes or more is written
    through. *)
#[export] Instance CountingTempfile : TempFiles.Tempfile := {|
  TempFiles.temp_name := fun fs suffix =>
    py "/tmp/tmp" ++ repeat 120%N (size fs) ++ suffix;
  TempFiles.unbuffered := fun b => 8192 <=? body_size b
|}.

End MoreInstances.

(** ** The file operations of a redaction *)

Module OperationSpec.

Section Operations.
Context `{Fitz}.

(** What a redaction of [file_path] into [output_path] may do: open either
    path for reading, and open for writing, test or remove the output path
    alone; the paths are the strings the caller passed. *)
Definition allowed (file_path output_path : str) (ev : Event) : Prop :=
  match ev with
  | EvOpenRead p => p = file_path \/ p = output_path
  | EvOpenWrite p | EvExists p | EvRemove p => p = output_path
  | EvGetsize _ => False
  end.

End Operations.

End OperationSpec.

(** * Properties *)

Import RedactionEngine Layout Instances.

(** String literals stay folded while the monad is unfolded. *)
Opaque py.

Ltac io :=
  unfold bind, ret, raise, try_except, log, lookup_file, store, unlink,
         refuses in *; simpl in *.

(** ** The public entry point *)

Section EntryPoint.
Context `{Fitz} `{Unicode} `{Suggester}.

(** C10: with an empty suggestion list [redact_document] raises
    [ValueError("No redaction suggestions provided")] for every file
    path and output path, and the world after the call is the world
    before it: no file was looked up, opened, read, written or removed. *)
Theorem C10_empty_suggestions_rejected
        (file_path output_path : str) (w : World) :
  redact_document file_path [] output_path w
  = (Raise (mkExn ValueError (py "No redaction suggestions provided")), w).
Proof. reflexivity. Qed.

End EntryPoint.

(** ** Plain text: the scenario of the specification *)

Section TextScenario.
Context `{Fitz} `{Unicode} `{Suggester}.

Lemma redact_text_ok (w : World) (file_path output_path content : str)
      (suggestions : list Suggestion) :
  files w !! file_path = Some (TextFile content) ->
  failing_writes w output_path = false ->
  _redact_text file_path suggestions output_path w
  = (Ok (Some output_path),
     mkWorld (<[output_path :=
                  TextFile (redacted_content (universal_newlines content)
                                             suggestions)]>
                (<[output_path := TextFile []]> (files w)))
             (failing_writes w)
             (EvOpenWrite output_path :: EvOpenRead file_path :: trace w)).
Proof.
  intros Hin Hout. unfold _redact_text, read_text, write_text. io.
  rewrite Hin. simpl. rewrite Hout. reflexivity.
Qed.

(** C3: on a document that reads
    "John Doe's SSN is 123-45-6789 and email is john@example.com", the
    single request for "123-45-6789" makes the text applier return the
    output path and write exactly
    "John Doe's SSN is [REDACTED] and email is john@example.com";
    re-extracting the output gives that text, and the check of
    [_verify_redaction] on it (no requested text is a substring) holds. *)
Theorem C3_ssn_scenario (w : World) (file_path output_path : str) :
  files w !! file_path = Some (TextFile Samples.ssn_text) ->
  failing_writes w output_path = false ->
  let requests := [mkSuggestion (py "123-45-6789") (py "PII") 100 []] in
  let after := snd (_redact_text file_path requests output_path w) in
  fst (_redact_text file_path requests output_path w) = Ok (Some output_path)
  /\ files after !! output_path = Some (TextFile Samples.ssn_redacted)
  /\ fst (FileHandler._extract_plain_text output_path after)
     = Ok Samples.ssn_redacted
  /\ negb (existsb (fun s => contains Samples.ssn_redacted (text s)) requests)
     = true.
Proof.
  intros Hin Hout requests after. subst after.
  rewrite (redact_text_ok w _ _ _ requests Hin Hout). simpl.
  assert (Hc : redacted_content (universal_newlines Samples.ssn_text) requests
               = Samples.ssn_redacted)
    by (vm_compute; reflexivity).
  rewrite Hc. split; [reflexivity | split; [| split]].
  - apply lookup_insert_eq.
  - unfold FileHandler._extract_plain_text, read_text. io.
    rewrite lookup_insert_eq. simpl. vm_compute. reflexivity.
  - vm_compute. reflexivity.
Qed.

End TextScenario.

(** The scenario on a disk that holds the document as [ssn.txt]. *)
Lemma C3_ssn_scenario_witness :
  let w := Samples.disk [(py "ssn.txt", TextFile Samples.ssn_text)] [] in
  let requests := [mkSuggestion (py "123-45-6789") (py "PII") 100 []] in
  let after := snd (_redact_text (py "ssn.txt") requests (py "out.txt") w) in
  fst (_redact_text (py "ssn.txt") requests (py "out.txt") w)
  = Ok (Some (py "out.txt"))
  /\ files after !! py "out.txt" = Some (TextFile Samples.ssn_redacted)
  /\ fst (FileHandler._extract_plain_text (py "out.txt") after)
     = Ok Samples.ssn_redacted
  /\ negb (existsb (fun s => contains Samples.ssn_redacted (text s)) requests)
     = true.
Proof.
  apply (C3_ssn_scenario
           (Samples.disk [(py "ssn.txt", TextFile Samples.ssn_text)] [])
           (py "ssn.txt") (py "out.txt")).
  - vm_compute. reflexivity.
  - reflexivity.
Defined.

(** ** The file handler *)

Section Validation.
Context `{Fitz} `{Unicode} `{Mimetypes}.

(** The quotient [size / (1024 * 1024)] exceeds 100 exactly when the size
    exceeds 104857600 bytes. *)
Lemma within_limit (size : Z) :
  Qle_bool (inject_Z size / inject_Z (1024 * 1024)) FileHandler.size_limit_mb
  = true <-> size <= 100 * 1024 * 1024.
Proof.
  rewrite Qle_bool_iff. unfold FileHandler.size_limit_mb, Qle, Qdiv, Qmult, Qinv.
  simpl. lia.
Qed.

(** A type [get_file_type] answers is a type [validate_file] accepts. *)
Lemma extension_accepted (ext : str) (m : list (str * (str * list str))) (t : str) :
  FileHandler.type_of_extension ext m = Some t ->
  FileHandler.str_in_list ext (flat_map (fun mime_info => snd (snd mime_info)) m)
  = true.
Proof.
  induction m as [| [k [ft exts]] m IH]; simpl; [discriminate |].
  unfold FileHandler.str_in_list in *. rewrite existsb_app.
  destruct (existsb (FileHandler.str_eqb ext) exts); simpl; auto.
Qed.

Lemma exists_result (w : World) (p : str) :
  os_path_exists p w
  = (Ok (match files w !! p with Some _ => true | None => false end),
     mkWorld (files w) (failing_writes w) (EvExists p :: trace w)).
Proof. reflexivity. Qed.

Lemma getsize_result (w : World) (p : str) (b : Body) :
  files w !! p = Some b ->
  os_path_getsize p w
  = (Ok (body_size b),
     mkWorld (files w) (failing_writes w) (EvGetsize p :: trace w)).
Proof.
  intros Hb. unfold os_path_getsize. io. rewrite Hb. reflexivity.
Qed.

(** C9: a missing file makes [validate_file] raise
    [FileNotFoundError]; an existing file of more than 100 MiB makes it
    raise [ValueError("File exceeds 100MB limit")], whatever its type,
    after the existence and size queries only; an existing file of at
    most 100 MiB whose type [get_file_type] knows is accepted. *)
Theorem C9_validate_file (w : World) (file_path : str) :
  (files w !! file_path = None ->
   fst (FileHandler.validate_file file_path w)
   = Raise (mkExn FileNotFoundError (py "File does not exist")))
  /\ (forall b, files w !! file_path = Some b ->
      100 * 1024 * 1024 < body_size b ->
      FileHandler.validate_file file_path w
      = (Raise (mkExn ValueError (py "File exceeds 100MB limit")),
         mkWorld (files w) (failing_writes w)
                 (EvGetsize file_path :: EvExists file_path :: trace w)))
  /\ (forall b t, files w !! file_path = Some b ->
      body_size b <= 100 * 1024 * 1024 ->
      FileHandler.get_file_type file_path = Some t ->
      fst (FileHandler.validate_file file_path w) = Ok true).
Proof.
  unfold FileHandler.validate_file.
  split; [| split].
  - intros Hnone. unfold bind. rewrite exists_result, Hnone. reflexivity.
  - intros b Hb Hbig. unfold bind at 1. rewrite exists_result, Hb.
    cbv beta iota. cbn [negb]. unfold bind.
    rewrite (getsize_result _ _ b) by exact Hb.
    destruct (Qle_bool _ _) eqn:E; [| reflexivity].
    apply within_limit in E. lia.
  - intros b t Hb Hsmall Ht. unfold bind at 1. rewrite exists_result, Hb.
    cbv beta iota. cbn [negb]. unfold bind.
    rewrite (getsize_result _ _ b) by exact Hb.
    rewrite (proj2 (within_limit (body_size b)) Hsmall). cbn [negb].
    unfold FileHandler.get_file_type in Ht.
    destruct (FileHandler.known_mime (guess_type file_path)); [reflexivity |].
    rewrite (extension_accepted _ _ _ Ht). reflexivity.
Qed.

End Validation.

(** The three cases on a disk with a small text file and a PDF of four
    pages, which [WordPages] stores in more than 100 MiB. *)
Lemma C9_validate_file_witness :
  let scan := PdfFile (repeat [(mkRect 0 0 1 1, py "x")] 4) in
  let w := Samples.disk [(py "a.txt", TextFile (py "hello"));
                         (py "scan.pdf", scan)] [] in
  fst (FileHandler.validate_file (py "missing.txt") w)
  = Raise (mkExn FileNotFoundError (py "File does not exist"))
  /\ FileHandler.validate_file (py "scan.pdf") w
     = (Raise (mkExn ValueError (py "File exceeds 100MB limit")),
        mkWorld (files w) (failing_writes w)
                (EvGetsize (py "scan.pdf") :: EvExists (py "scan.pdf") :: trace w))
  /\ fst (FileHandler.validate_file (py "a.txt") w) = Ok true.
Proof.
  intros scan w. split; [| split].
  - apply (proj1 (C9_validate_file w (py "missing.txt"))).
    vm_compute. reflexivity.
  - apply (proj1 (proj2 (C9_validate_file w (py "scan.pdf"))) scan).
    + vm_compute. reflexivity.
    + vm_compute. reflexivity.
  - apply (proj2 (proj2 (C9_validate_file w (py "a.txt")))
             (TextFile (py "hello")) (py "txt")).
    + vm_compute. reflexivity.
    + vm_compute. discriminate.
    + vm_compute. reflexivity.
Defined.

(** ** Verification and failure handling of the three appliers *)

Section Appliers.
Context `{Fitz} `{Unicode} `{Suggester}.

(** The PDF applier returns the output path only after
    [_verify_redaction] has reopened the saved file and found none of the
    texts in it. *)
Lemma redact_pdf_returns_verified (w w' : World) (file_path output_path p : str)
      (suggestions : list Suggestion) :
  _redact_pdf file_path suggestions output_path w = (Ok (Some p), w') ->
  p = output_path
  /\ exists pages,
      files w' !! output_path = Some (PdfFile pages)
      /\ survives (join (py " ") (map get_text pages)) suggestions = false
      /\ In (EvOpenRead output_path) (trace w').
Proof.
  unfold _redact_pdf, _verify_redaction, fitz_open, fitz_save, os_path_exists,
    os_remove, survives. io.
  destruct (files w !! file_path) as [[c | d | ps |] |] eqn:Hin; simpl.
  1, 2, 4, 5:
    destruct (files w !! output_path) eqn:Hout; simpl; rewrite ?Hout; simpl;
    discriminate.
  destruct (failing_writes w output_path) eqn:Hfull; simpl.
  - rewrite lookup_insert_eq. simpl. rewrite lookup_insert_eq. simpl.
    discriminate.
  - rewrite lookup_insert_eq. simpl.
    destruct (existsb _ suggestions) eqn:Hs; simpl; [discriminate |].
    intros [= <- <-]. split; [reflexivity |].
    eexists. simpl. rewrite lookup_insert_eq.
    split; [reflexivity |]. split; [exact Hs | left; reflexivity].
Qed.

(** When the PDF applier raises, no file is left at the output path. *)
Lemma redact_pdf_failure_removes_output (w w' : World)
      (file_path output_path : str) (suggestions : list Suggestion) (e : Exn) :
  _redact_pdf file_path suggestions output_path w = (Raise e, w') ->
  files w' !! output_path = None.
Proof.
  unfold _redact_pdf, _verify_redaction, fitz_open, fitz_save, os_path_exists,
    os_remove. io.
  destruct (files w !! file_path) as [[c | d | ps |] |] eqn:Hin; simpl.
  1, 2, 4, 5:
    destruct (files w !! output_path) eqn:Hout; simpl; rewrite ?Hout; simpl;
    intros Heq; inversion Heq; subst; simpl;
    [apply lookup_delete_eq | exact Hout].
  destruct (failing_writes w output_path) eqn:Hfull; simpl.
  - rewrite !lookup_insert_eq. simpl. rewrite !lookup_insert_eq. simpl.
    intros Heq; inversion Heq; subst; simpl.
    apply lookup_delete_eq.
  - rewrite lookup_insert_eq. simpl.
    destruct (existsb _ suggestions); simpl; discriminate.
Qed.

(** The DOCX applier saves and returns; the saved file is not opened
    again. *)
Lemma redact_docx_ok (w : World) (file_path output_path : str) (doc : Document)
      (suggestions : list Suggestion) :
  files w !! file_path = Some (DocxFile doc) ->
  suggester_init = Ok tt ->
  failing_writes w output_path = false ->
  _redact_docx file_path suggestions output_path w
  = (Ok (Some output_path),
     mkWorld (<[output_path := DocxFile (redact_paragraphs doc suggestions)]>
                (<[output_path := Truncated]> (files w)))
             (failing_writes w)
             (EvOpenWrite output_path :: EvOpenRead file_path :: trace w)).
Proof.
  intros Hin Hs Hout. unfold _redact_docx, docx_open, docx_save. io.
  rewrite Hin. simpl. rewrite Hs. simpl. rewrite Hout. reflexivity.
Qed.

(** When the data of the output is refused, the text applier raises and
    the emptied output file stays. *)
Lemma redact_text_write_failure (w : World) (file_path output_path content : str)
      (suggestions : list Suggestion) :
  files w !! file_path = Some (TextFile content) ->
  failing_writes w output_path = true ->
  _redact_text file_path suggestions output_path w
  = (Raise (mkExn RuntimeError (py "Text redaction failed: " ++ no_space)),
     mkWorld (<[output_path := TextFile []]> (files w)) (failing_writes w)
             (EvOpenWrite output_path :: EvOpenRead file_path :: trace w)).
Proof.
  intros Hin Hout. unfold _redact_text, read_text, write_text. io.
  rewrite Hin. simpl. rewrite Hout. reflexivity.
Qed.

(** Likewise for the DOCX applier and the container it had begun. *)
Lemma redact_docx_write_failure (w : World) (file_path output_path : str)
      (doc : Document) (suggestions : list Suggestion) :
  files w !! file_path = Some (DocxFile doc) ->
  suggester_init = Ok tt ->
  failing_writes w output_path = true ->
  _redact_docx file_path suggestions output_path w
  = (Raise (mkExn RuntimeError (py "DOCX redaction failed: " ++ no_space)),
     mkWorld (<[output_path := Truncated]> (files w)) (failing_writes w)
             (EvOpenWrite output_path :: EvOpenRead file_path :: trace w)).
Proof.
  intros Hin Hs Hout. unfold _redact_docx, docx_open, docx_save. io.
  rewrite Hin. simpl. rewrite Hs. simpl. rewrite Hout. reflexivity.
Qed.

End Appliers.

(** C1, what the code does: for a text document reading
    "The RED team met" and the single request "RED", [redact_document]
    returns the output path although the only file operations were the
    read of the input and the write of the output (the output is never
    reopened for verification), and the text re-extracted from the output,
    "The [REDACTED] team met", still contains the requested text.  For a
    DOCX letter whose paragraphs are "Contact: Jane" and "Roe lives here"
    and the request for "Jane", a line feed and "Roe", as selected in the
    extracted text, the same holds: the output path is returned after the
    read and the write alone, and the text re-extracted from the output
    still contains the requested text. *)
Theorem C1_text_artifact_returned_unverified :
  let w := Samples.disk [(py "memo.txt", TextFile (py "The RED team met"))] [] in
  let requests := [Samples.request "RED"] in
  let out := py "memo_redacted.txt" in
  let run := redact_document (py "memo.txt") requests out w in
  let wx := Samples.disk [(py "letter.docx", DocxFile Samples.letter)] [] in
  let outx := py "letter_redacted.docx" in
  let runx := redact_document (py "letter.docx") [Samples.across_paragraphs]
                              outx wx in
  (fst run = Ok (Some out)
   /\ trace (snd run) = [EvOpenWrite out; EvOpenRead (py "memo.txt")]
   /\ fst (FileHandler._extract_plain_text out (snd run))
      = Ok (py "The [REDACTED] team met")
   /\ survives (py "The [REDACTED] team met") requests = true)
  /\ (fst runx = Ok (Some outx)
      /\ trace (snd runx) = [EvOpenWrite outx; EvOpenRead (py "letter.docx")]
      /\ fst (FileHandler._extract_docx_text outx (snd runx))
         = Ok (py "Contact: Jane" ++ Samples.line_feed ++ py "Roe lives here")
      /\ survives (py "Contact: Jane" ++ Samples.line_feed ++ py "Roe lives here")
                  [Samples.across_paragraphs] = true).
Proof. vm_compute. repeat split. Qed.

(** C4, what the code does: with a text document on the disk, no file at
    the output path, and a device that refuses the data of the output,
    [redact_document] raises [RuntimeError] and an empty file is left at
    the output path; the same call on a DOCX document leaves the container
    it had begun. *)
Theorem C4_failed_apply_leaves_output :
  let out := py "memo_redacted.txt" in
  let w := Samples.disk [(py "memo.txt", TextFile (py "call 555-0100"))] [out] in
  let run := redact_document (py "memo.txt") [Samples.request "555-0100"] out w in
  let outx := py "memo_redacted.docx" in
  let wx := Samples.disk
              [(py "memo.docx",
                DocxFile [mkParagraph
                            [InlineRun (Samples.run_of "call 555-0100")]])]
              [outx] in
  let runx := redact_document (py "memo.docx") [Samples.request "555-0100"] outx wx in
  (files w !! out = None
   /\ (exists msg, fst run = Raise (mkExn RuntimeError msg))
   /\ files (snd run) !! out = Some (TextFile []))
  /\ (files wx !! outx = None
      /\ (exists msg, fst runx = Raise (mkExn RuntimeError msg))
      /\ files (snd runx) !! outx = Some Truncated).
Proof.
  intros out w run outx wx runx.
  split; [split; [| split] | split; [| split]].
  - vm_compute. reflexivity.
  - exists (py "Document redaction failed: Text redaction failed: [Errno 28] No space left on device").
    vm_compute. reflexivity.
  - vm_compute. reflexivity.
  - vm_compute. reflexivity.
  - exists (py "Document redaction failed: DOCX redaction failed: [Errno 28] No space left on device").
    vm_compute. reflexivity.
  - vm_compute. reflexivity.
Qed.

(** ** DOCX: the scenario of the specification *)

Section DocxScenario.
Context `{Fitz} `{Unicode} `{Suggester}.

Lemma cleared_text (rs : list Run) : concat (map run_text (cleared rs)) = [].
Proof. induction rs as [| r rs IH]; simpl; auto. Qed.

Lemma cleared_length (rs : list Run) : length (cleared rs) = length rs.
Proof. apply length_map. Qed.


(** In a paragraph without hyperlinks the runs are all there is. *)
Lemma plain_inlines (p : Paragraph) :
  DocxSpec.no_hyperlink p -> inlines p = map InlineRun (runs p).
Proof.
  unfold DocxSpec.no_hyperlink, runs.
  induction (inlines p) as [| i l IH]; [reflexivity |].
  cbn [forallb flat_map map]. intros Hall. apply andb_prop in Hall.
  destruct Hall as [Hi Hl]. destruct i as [r | inner]; [| discriminate].
  cbn [app map]. rewrite <- IH by exact Hl. reflexivity.
Qed.


Lemma clear_inline_runs (rs : list Run) :
  map clear_inline (map InlineRun rs) = map InlineRun (cleared rs).
Proof. unfold cleared. rewrite !map_map. reflexivity. Qed.



End DocxScenario.



(** ** The text applier *)

Section Strings.

Lemma startswith_length (s sub : str) :
  startswith s sub = true -> (length sub <= length s)%nat.
Proof.
  revert s. induction sub as [| a sub IH]; intros [| b s]; simpl; intros Hs;
    try lia; try discriminate.
  apply andb_prop in Hs. destruct Hs as [_ Hs].
  apply IH in Hs. lia.
Qed.

Lemma clamp_inside (n i : Z) : 0 <= i <= n -> clamp n i = i.
Proof. intros Hi. unfold clamp. destruct (Z.ltb_spec i 0); lia. Qed.

Lemma skipn_cons_tail {A} (n : nat) (l : list A) (c : A) (s' : list A) :
  skipn n l = c :: s' -> skipn (S n) l = s'.
Proof.
  revert l. induction n as [| n IH]; intros [| x l]; simpl; try discriminate.
  - intros [= _ ->]. reflexivity.
  - intros Hs. destruct n; simpl in *.
    + destruct l; [discriminate |]. injection Hs as _ ->. reflexivity.
    + apply IH in Hs. exact Hs.
Qed.

Lemma skipn_nil_length {A} (n : nat) (l : list A) :
  skipn n l = [] -> (n <= length l)%nat -> n = length l.
Proof.
  intros Hs Hn. assert (Hl := length_skipn n l). rewrite Hs in Hl.
  simpl in Hl. lia.
Qed.

(** [find] from an index inside the content is the scan of the suffix. *)
Lemma find_inside (content sub : str) (start : nat) :
  (start <= length content)%nat ->
  find content sub (Z.of_nat start)
  = find_at (skipn start content) sub (Z.of_nat start).
Proof.
  intros Hs. unfold find, len.
  destruct (Z.ltb_spec (Z.of_nat (length content)) (Z.of_nat start)); [lia |].
  rewrite clamp_inside by lia. rewrite Nat2Z.id. reflexivity.
Qed.

Lemma find_beyond (content sub : str) (start : Z) :
  len content < start -> find content sub start = -1.
Proof.
  intros Hs. unfold find.
  destruct (Z.ltb_spec (len content) start); [reflexivity | lia].
Qed.

Lemma find_at_lower_bound (s sub : str) (i : Z) :
  find_at s sub i = -1 \/ i <= find_at s sub i.
Proof.
  revert i. induction s as [| c s IH]; intros i; cbn [find_at].
  - destruct (startswith [] sub); [right; lia | left; reflexivity].
  - destruct (startswith (c :: s) sub); [right; lia |].
    destruct (IH (i + 1)) as [-> | Hle]; [left; reflexivity | right; lia].
Qed.

(** The indices of [Spec.occurrences], by suffix. *)
Lemma occurrences_by_suffix (content txt s : str) (i : nat) :
  skipn i content = s ->
  map Z.of_nat
      (List.filter (fun p => startswith (skipn p content) txt)
              (seq i (S (length s))))
  = Spec.occurrences_at s txt (Z.of_nat i).
Proof.
  revert i. induction s as [| c s IH]; intros i Hs.
  - cbn [length seq List.filter Spec.occurrences_at]. rewrite Hs.
    destruct (startswith [] txt); reflexivity.
  - cbn [length seq List.filter Spec.occurrences_at]. rewrite Hs.
    assert (Hs' := skipn_cons_tail _ _ _ _ Hs).
    specialize (IH (S i) Hs').
    replace (Z.of_nat i + 1) with (Z.of_nat (S i)) by lia.
    rewrite <- IH.
    destruct (startswith (c :: s) txt); reflexivity.
Qed.

Lemma occurrences_from_start (content txt : str) :
  Spec.occurrences content txt = Spec.occurrences_at content txt 0.
Proof.
  unfold Spec.occurrences.
  apply (occurrences_by_suffix content txt content 0%nat). reflexivity.
Qed.

End Strings.

Section Collecting.

Lemma skipn_cons_inside {A} (n : nat) (l : list A) (c : A) (s' : list A) :
  skipn n l = c :: s' -> (S n <= length l)%nat.
Proof.
  intros Hs. assert (Hl := length_skipn n l). rewrite Hs in Hl.
  simpl in Hl. lia.
Qed.

(** The loop looks at [start] only through the search. *)
Lemma find_loop_same_find (fuel : nat) (content txt : str) (a b : Z)
      (acc : list Redaction) :
  find content txt a = find content txt b ->
  find_loop fuel content txt a acc = find_loop fuel content txt b acc.
Proof. destruct fuel; simpl; [reflexivity |]. intros ->. reflexivity. Qed.

(** From an index inside the content, and with two turns more than there
    are characters left, the loop ends and has appended the span of every
    occurrence at or after that index. *)
Lemma find_loop_from (content txt : str) :
  forall (s : str) (start fuel : nat) (acc : list Redaction),
    skipn start content = s ->
    (start <= length content)%nat ->
    (length s + 2 <= fuel)%nat ->
    find_loop fuel content txt (Z.of_nat start) acc
    = Some (acc ++ map (Spec.span_of txt)
                       (Spec.occurrences_at s txt (Z.of_nat start))).
Proof.
  induction s as [| c s IH]; intros start fuel acc Hs Hstart Hfuel.
  - destruct fuel as [| fuel]; [simpl in Hfuel; lia |].
    cbn [find_loop Spec.occurrences_at].
    rewrite (find_inside _ _ _ Hstart), Hs. cbn [find_at].
    destruct (startswith [] txt) eqn:Hsw.
    + destruct (Z.eqb_spec (Z.of_nat start) (-1)); [lia |].
      destruct fuel as [| fuel]; [simpl in Hfuel; lia |].
      cbn [find_loop]. rewrite find_beyond.
      * simpl. reflexivity.
      * apply skipn_nil_length in Hs; [| exact Hstart]. unfold len. lia.
    + simpl. rewrite app_nil_r. reflexivity.
  - assert (Hin := skipn_cons_inside _ _ _ _ Hs).
    assert (Hs' := skipn_cons_tail _ _ _ _ Hs).
    destruct (startswith (c :: s) txt) eqn:Hsw.
    + destruct fuel as [| fuel]; [simpl in Hfuel; lia |].
      cbn [find_loop Spec.occurrences_at].
      rewrite (find_inside _ _ _ Hstart), Hs. cbn [find_at]. rewrite Hsw.
      destruct (Z.eqb_spec (Z.of_nat start) (-1)); [lia |].
      replace (Z.of_nat start + 1) with (Z.of_nat (S start)) by lia.
      rewrite (IH (S start) fuel _ Hs' Hin) by (simpl in Hfuel; lia).
      rewrite <- app_assoc. reflexivity.
    + rewrite (find_loop_same_find fuel content txt
                 (Z.of_nat start) (Z.of_nat (S start))).
      * rewrite (IH (S start) fuel acc Hs' Hin) by (simpl in Hfuel; lia).
        cbn [Spec.occurrences_at]. rewrite Hsw.
        replace (Z.of_nat start + 1) with (Z.of_nat (S start)) by lia.
        reflexivity.
      * rewrite (find_inside _ _ _ Hstart), Hs, (find_inside _ _ _ Hin), Hs'.
        cbn [find_at]. rewrite Hsw.
        replace (Z.of_nat start + 1) with (Z.of_nat (S start)) by lia.
        reflexivity.
Qed.

(** The loop of one suggestion terminates within [enough_fuel] turns and
    records every occurrence of its text. *)
Lemma find_loop_terminates (content txt : str) (acc : list Redaction) :
  find_loop (enough_fuel content) content txt 0 acc
  = Some (acc ++ map (Spec.span_of txt) (Spec.occurrences content txt)).
Proof.
  rewrite occurrences_from_start.
  apply (find_loop_from content txt content 0%nat (enough_fuel content) acc).
  - reflexivity.
  - lia.
  - unfold enough_fuel. lia.
Qed.

Lemma collect_redactions_spec (content : str) (suggestions : list Suggestion)
      (acc : list Redaction) :
  collect_redactions content suggestions acc
  = acc ++ flat_map (fun s => map (Spec.span_of (text s))
                                  (Spec.occurrences content (text s)))
                    suggestions.
Proof.
  revert acc. induction suggestions as [| s rest IH]; intros acc;
    cbn [collect_redactions flat_map].
  - rewrite app_nil_r. reflexivity.
  - rewrite find_loop_terminates, IH, <- app_assoc. reflexivity.
Qed.

(** Every recorded span lies inside the content. *)
Lemma occurrence_inside (content txt : str) (p : Z) :
  In p (Spec.occurrences content txt) ->
  Spec.inside content (Spec.span_of txt p).
Proof.
  unfold Spec.occurrences. intros Hp. apply in_map_iff in Hp.
  destruct Hp as (n & <- & Hn). apply filter_In in Hn.
  destruct Hn as [Hn Hsw]. apply in_seq in Hn.
  apply startswith_length in Hsw. rewrite length_skipn in Hsw.
  unfold Spec.inside, Spec.span_of, red_start, red_end, len. simpl. lia.
Qed.

End Collecting.

(** ** Sorting *)

Section SortFacts.
Context {A : Type}.
Variable le : A -> A -> bool.

Lemma insert_by_perm (x : A) (l : list A) :
  Permutation (insert_by le x l) (x :: l).
Proof.
  induction l as [| y l IH]; simpl; [apply Permutation_refl |].
  destruct (le x y); [apply Permutation_refl |].
  apply perm_trans with (y :: x :: l); [apply perm_skip, IH | apply perm_swap].
Qed.

Lemma sort_by_perm (l : list A) : Permutation (sort_by le l) l.
Proof.
  induction l as [| x l IH]; simpl; [apply perm_nil |].
  apply perm_trans with (x :: sort_by le l);
    [apply insert_by_perm | apply perm_skip, IH].
Qed.

Lemma insert_by_sorted (x : A) (l : list A) :
  (forall a b, le a b = false -> le b a = true) ->
  (forall a b c, le a b = true -> le b c = true -> le a c = true) ->
  StronglySorted (fun a b => le a b = true) l ->
  StronglySorted (fun a b => le a b = true) (insert_by le x l).
Proof.
  intros Htotal Htrans. induction l as [| y l IH]; simpl; intros Hl.
  - constructor; constructor.
  - inversion Hl as [| y' l' Hl' Hy]; subst.
    destruct (le x y) eqn:Hxy.
    + constructor; [exact Hl |]. constructor; [exact Hxy |].
      eapply List.Forall_impl; [| exact Hy]. intros z Hz. simpl in Hz.
      eapply Htrans; eassumption.
    + constructor; [apply IH; exact Hl' |].
      apply (Permutation_Forall (Permutation_sym (insert_by_perm x l))).
      constructor; [apply Htotal; exact Hxy | exact Hy].
Qed.

Lemma sort_by_sorted (l : list A) :
  (forall a b, le a b = false -> le b a = true) ->
  (forall a b c, le a b = true -> le b c = true -> le a c = true) ->
  StronglySorted (fun a b => le a b = true) (sort_by le l).
Proof.
  intros Htotal Htrans. induction l as [| x l IH]; simpl.
  - constructor.
  - apply insert_by_sorted; assumption.
Qed.

End SortFacts.

Section KeyOrder.
Context `{Unicode}.

Lemma str_le_total (a b : str) : str_le a b = false -> str_le b a = true.
Proof.
  revert b. induction a as [| x a IH]; intros [| y b]; simpl;
    try discriminate; try reflexivity.
  destruct (N.ltb_spec x y), (N.ltb_spec y x), (N.eqb_spec x y), (N.eqb_spec y x);
    try discriminate; try reflexivity; try lia; try congruence.
  apply IH.
Qed.

Lemma str_le_trans (a b c : str) :
  str_le a b = true -> str_le b c = true -> str_le a c = true.
Proof.
  revert b c. induction a as [| x a IH]; intros [| y b] [| z c]; simpl;
    try discriminate; try reflexivity.
  destruct (N.ltb_spec x y), (N.ltb_spec y z), (N.ltb_spec x z),
    (N.eqb_spec x y), (N.eqb_spec y z), (N.eqb_spec x z);
    try discriminate; try reflexivity; try lia.
  apply IH.
Qed.

Lemma suggestion_key_le_order (a b : Suggestion) :
  suggestion_key_le a b = true <-> Spec.key_order a b.
Proof.
  unfold suggestion_key_le, Spec.key_order. rewrite orb_true_iff, andb_true_iff.
  rewrite Z.ltb_lt, Z.eqb_eq. split; intros [Hlt | [Heq Hle]];
    [left | right | left | right]; try split; try lia; assumption.
Qed.

Lemma suggestion_key_le_total (a b : Suggestion) :
  suggestion_key_le a b = false -> suggestion_key_le b a = true.
Proof.
  unfold suggestion_key_le. rewrite orb_false_iff, andb_false_iff.
  rewrite orb_true_iff, andb_true_iff, !Z.ltb_lt, !Z.ltb_ge, Z.eqb_neq, Z.eqb_eq.
  intros [Hge [Hne | Hle]].
  - left. lia.
  - destruct (Z.eq_dec (len (text a)) (len (text b))) as [Heq | Hne].
    + right. split; [lia | apply str_le_total; exact Hle].
    + left. lia.
Qed.

Lemma suggestion_key_le_trans (a b c : Suggestion) :
  suggestion_key_le a b = true -> suggestion_key_le b c = true ->
  suggestion_key_le a c = true.
Proof.
  rewrite !suggestion_key_le_order. unfold Spec.key_order.
  intros [Hab | [Hab Hab']] [Hbc | [Hbc Hbc']].
  - left; lia.
  - left; lia.
  - left; lia.
  - right. split; [lia | eapply str_le_trans; eassumption].
Qed.

(** The suggestions are processed in the order of the key, and none is
    lost or added. *)
Lemma sort_suggestions_sorted (suggestions : list Suggestion) :
  StronglySorted Spec.key_order (sort_suggestions suggestions)
  /\ Permutation (sort_suggestions suggestions) suggestions.
Proof.
  split; [| apply sort_by_perm].
  assert (Hs := sort_by_sorted suggestion_key_le suggestions
                  suggestion_key_le_total suggestion_key_le_trans).
  unfold sort_suggestions. induction Hs as [| x l Hl IH Hx]; constructor.
  - exact IH.
  - eapply List.Forall_impl; [| exact Hx]. intros y Hy.
    apply suggestion_key_le_order. exact Hy.
Qed.

(** The spans are rewritten by descending start. *)
Lemma sort_redactions_sorted (redactions : list Redaction) :
  StronglySorted (fun a b => red_start b <= red_start a)
                 (sort_redactions redactions)
  /\ Permutation (sort_redactions redactions) redactions.
Proof.
  split; [| apply sort_by_perm].
  assert (Hs := sort_by_sorted (fun a b => red_start b <=? red_start a) redactions).
  unfold sort_redactions. simpl in Hs.
  assert (Hs' : StronglySorted
                  (fun a b => (red_start b <=? red_start a) = true)
                  (sort_by (fun a b => red_start b <=? red_start a) redactions)).
  { apply Hs.
    - intros a b. rewrite Z.leb_gt, Z.leb_le. lia.
    - intros a b c. rewrite !Z.leb_le. lia. }
  clear Hs. induction Hs' as [| x l Hl IH Hx]; constructor.
  - exact IH.
  - eapply List.Forall_impl; [| exact Hx]. intros y Hy. simpl in Hy.
    apply Z.leb_le. exact Hy.
Qed.

End KeyOrder.

(** ** Slices and the rewriting of non-overlapping spans *)

Section Rewriting.

Lemma len_firstn (c : str) (s : Z) :
  0 <= s <= len c -> len (firstn (Z.to_nat s) c) = s.
Proof. unfold len. intros Hs. rewrite length_firstn. lia. Qed.

Lemma slice_assign_inside (l r : str) (s e : Z) :
  0 <= s -> s <= e -> e <= len l ->
  slice_assign l s e r
  = firstn (Z.to_nat s) l ++ r ++ skipn (Z.to_nat e) l.
Proof.
  intros H0 Hse He. unfold slice_assign. fold (len l).
  rewrite !clamp_inside by lia. rewrite Z.max_r by lia. reflexivity.
Qed.

Lemma slice_to_end (c : str) (e : Z) :
  0 <= e <= len c -> slice c e (len c) = skipn (Z.to_nat e) c.
Proof.
  intros He. unfold slice. rewrite !clamp_inside by lia.
  apply firstn_all2. rewrite length_skipn. unfold len. lia.
Qed.

Lemma slice_firstn (c : str) (s i j : Z) :
  0 <= i -> 0 <= j -> j <= s -> s <= len c ->
  slice (firstn (Z.to_nat s) c) i j = slice c i j.
Proof.
  intros Hi Hj Hjs Hs. unfold slice. rewrite len_firstn by lia.
  rewrite (clamp_inside s j), (clamp_inside (len c) j) by lia.
  unfold clamp. destruct (Z.ltb_spec i 0); [lia |].
  destruct (Z.le_gt_cases i s) as [Hle | Hgt].
  - rewrite !Z.min_l by lia.
    rewrite skipn_firstn_comm, firstn_firstn.
    f_equal. lia.
  - replace (Z.to_nat (j - Z.min i s)) with 0%nat by lia.
    replace (Z.to_nat (j - Z.min i (len c))) with 0%nat by lia.
    reflexivity.
Qed.

(** A span that lies inside a prefix is rewritten inside that prefix. *)
Lemma slice_assign_prefix (pre suf r : str) (s e : Z) :
  0 <= s -> s <= e -> e <= len pre ->
  slice_assign (pre ++ suf) s e r = slice_assign pre s e r ++ suf.
Proof.
  intros H0 Hse He.
  assert (Hlen : len (pre ++ suf) = len pre + len suf)
    by (unfold len; rewrite length_app; lia).
  rewrite !slice_assign_inside by (unfold len in *; lia).
  rewrite firstn_app, skipn_app.
  replace (Z.to_nat s - length pre)%nat with 0%nat by (unfold len in *; lia).
  replace (Z.to_nat e - length pre)%nat with 0%nat by (unfold len in *; lia).
  simpl. rewrite app_nil_r, <- !app_assoc. reflexivity.
Qed.

Lemma backwards_tail (r : Redaction) (rest : list Redaction) :
  Spec.backwards (r :: rest) ->
  List.Forall (fun b => red_end b <= red_start r) rest /\ Spec.backwards rest.
Proof. intros Hb. inversion Hb; subst. split; assumption. Qed.

Lemma apply_prefix (redactions : list Redaction) :
  forall pre suf : str,
    Spec.backwards redactions ->
    List.Forall (Spec.inside pre) redactions ->
    apply_redactions_to (pre ++ suf) redactions
    = apply_redactions_to pre redactions ++ suf.
Proof.
  induction redactions as [| r rest IH]; intros pre suf Hb Hin; simpl.
  - reflexivity.
  - apply backwards_tail in Hb. destruct Hb as [Hr Hb].
    inversion Hin as [| r' rest' [H0 [Hse He]] Hrest]; subst.
    rewrite slice_assign_prefix by assumption.
    apply IH; [exact Hb |].
    rewrite List.Forall_forall in *. intros b Hb'.
    specialize (Hr b Hb'). specialize (Hrest b Hb').
    destruct Hrest as [Hb0 [Hbse Hbe]].
    unfold Spec.inside. repeat split; try assumption.
    rewrite slice_assign_inside by assumption.
    unfold len in *. rewrite length_app, length_firstn. lia.
Qed.

Lemma splice_last (c : str) (r : Redaction) (spans : list Redaction) :
  Spec.inside c r ->
  forall cursor : Z,
    0 <= cursor ->
    List.Forall (fun a => 0 <= red_start a /\ 0 <= red_end a
                          /\ red_start a <= red_start r
                          /\ red_end a <= red_start r) spans ->
    Spec.splice c cursor (spans ++ [r])
    = Spec.splice (firstn (Z.to_nat (red_start r)) c) cursor spans
      ++ red_repl r ++ skipn (Z.to_nat (red_end r)) c.
Proof.
  intros [H0 [Hse He]].
  induction spans as [| a spans IH]; intros cursor Hc Hspans; simpl.
  - rewrite len_firstn by lia.
    rewrite slice_firstn by lia. rewrite slice_to_end by lia.
    reflexivity.
  - inversion Hspans as [| a' spans' [Ha0 [Hae0 [Has Hae]]] Hrest]; subst.
    rewrite IH by assumption.
    rewrite slice_firstn by lia.
    rewrite <- !app_assoc. reflexivity.
Qed.

(** Rewriting backwards a list of spans that do not overlap gives the
    content with each span replaced. *)
Lemma apply_backwards (redactions : list Redaction) :
  forall c : str,
    Spec.backwards redactions ->
    List.Forall (Spec.inside c) redactions ->
    apply_redactions_to c redactions = Spec.splice c 0 (rev redactions).
Proof.
  induction redactions as [| r rest IH]; intros c Hb Hin.
  - cbn [apply_redactions_to fold_left rev Spec.splice].
    rewrite slice_to_end by (unfold len; lia). reflexivity.
  - destruct (backwards_tail _ _ Hb) as [Hr Hb'].
    inversion Hin as [| r' rest' Hrin Hrest]; subst.
    destruct Hrin as [H0 [Hse He]].
    assert (Hrest' : List.Forall
                       (Spec.inside (firstn (Z.to_nat (red_start r)) c)) rest).
    { rewrite List.Forall_forall in *. intros b Hb0.
      destruct (Hrest b Hb0) as [Hb1 [Hb2 Hb3]]. specialize (Hr b Hb0).
      unfold Spec.inside. rewrite len_firstn by lia. lia. }
    cbn [apply_redactions_to fold_left rev].
    change (fold_left _ rest ?x) with (apply_redactions_to x rest).
    rewrite slice_assign_inside by assumption.
    rewrite apply_prefix by assumption.
    rewrite (IH _ Hb' Hrest').
    rewrite splice_last; [reflexivity | repeat split; assumption | lia |].
    rewrite List.Forall_forall in *. intros b Hb0. apply in_rev in Hb0.
    destruct (Hrest b Hb0) as [Hb1 [Hb2 Hb3]]. specialize (Hr b Hb0). lia.
Qed.

End Rewriting.

(** ** The text applier as a whole *)

Section TextApplier.
Context `{Unicode}.

Lemma pairwise_perm {A} (R : A -> A -> Prop) (l l' : list A) :
  (forall a b, R a b -> R b a) ->
  Permutation l l' -> ForallOrdPairs R l -> ForallOrdPairs R l'.
Proof.
  intros Hsym Hp. induction Hp as [| x l l' Hp IH | x y l | l l' l'' _ IH1 _ IH2];
    intros Hl.
  - constructor.
  - inversion Hl; subst. constructor.
    + eapply Permutation_Forall; eassumption.
    + apply IH. assumption.
  - inversion Hl as [| y' l0 Hy Hl0]; subst.
    inversion Hl0 as [| x' l1 Hx Hl1]; subst.
    inversion Hy as [| x' l2 Hyx Hyl]; subst.
    constructor; [constructor; [apply Hsym; exact Hyx | exact Hx] |].
    constructor; assumption.
  - apply IH2, IH1, Hl.
Qed.

Lemma disjoint_sym (a b : Redaction) : Spec.disjoint a b -> Spec.disjoint b a.
Proof. unfold Spec.disjoint. intros [Hd | Hd]; [right | left]; exact Hd. Qed.

(** Sorted by descending start, non-empty spans that do not overlap lie
    one before the other in the order of rewriting. *)
Lemma sorted_disjoint_backwards (redactions : list Redaction) :
  StronglySorted (fun a b => red_start b <= red_start a) redactions ->
  Spec.pairwise_disjoint redactions ->
  List.Forall (fun r => red_start r < red_end r) redactions ->
  Spec.backwards redactions.
Proof.
  unfold Spec.pairwise_disjoint, Spec.backwards.
  induction redactions as [| r rest IH]; intros Hs Hd Hn; [constructor |].
  inversion Hs as [| r1 l1 Hs' Hr]; subst.
  inversion Hd as [| r2 l2 Hdr Hd']; subst.
  inversion Hn as [| r3 l3 Hnr Hn']; subst.
  constructor; [| apply IH; assumption].
  rewrite List.Forall_forall in *. intros b Hb.
  specialize (Hr b Hb). specialize (Hdr b Hb). specialize (Hn' b Hb).
  unfold Spec.disjoint in Hdr. lia.
Qed.

Lemma recorded_spans (content : str) (ordered : list Suggestion) (r : Redaction) :
  In r (collect_redactions content ordered []) ->
  exists s p, In s ordered /\ In p (Spec.occurrences content (text s))
              /\ r = Spec.span_of (text s) p.
Proof.
  rewrite collect_redactions_spec. simpl. intros Hr.
  apply in_flat_map in Hr. destruct Hr as (s & Hs & Hr).
  apply in_map_iff in Hr. destruct Hr as (p & <- & Hp).
  exists s, p. auto.
Qed.

(** The text applier in general: the accepted texts are processed by
    descending length and, among texts of one length, by their lower-cased
    form; the span of every occurrence of every text is recorded; the
    recorded spans are rewritten by descending start offset; and on the
    inputs where no accepted text is empty and no two recorded spans
    overlap, the output is the content with each span replaced by
    [[REDACTED]]. *)
Lemma text_applier_on_disjoint_spans (content : str) (suggestions : list Suggestion) :
  let ordered := sort_suggestions suggestions in
  let recorded := collect_redactions content ordered [] in
  let applied := sort_redactions recorded in
  (StronglySorted Spec.key_order ordered /\ Permutation ordered suggestions)
  /\ recorded
     = flat_map (fun s => map (Spec.span_of (text s))
                              (Spec.occurrences content (text s))) ordered
  /\ (StronglySorted (fun a b => red_start b <= red_start a) applied
      /\ Permutation applied recorded)
  /\ redacted_content content suggestions = apply_redactions_to content applied
  /\ ((forall s, In s suggestions -> text s <> []) ->
      Spec.pairwise_disjoint recorded ->
      List.Forall (fun r => red_repl r = REDACTED) applied
      /\ redacted_content content suggestions
         = Spec.splice content 0 (rev applied)).
Proof.
  intros ordered recorded applied.
  destruct (sort_suggestions_sorted suggestions) as [Hord Hperm].
  destruct (sort_redactions_sorted recorded) as [Hdesc Hperm'].
  split; [split; assumption |].
  split; [apply (collect_redactions_spec content ordered []) |].
  split; [split; assumption |].
  split; [reflexivity |].
  intros Hne Hdis.
  assert (Hrec : forall r, In r applied ->
                   Spec.inside content r /\ red_start r < red_end r
                   /\ red_repl r = REDACTED).
  { intros r Hr.
    apply (Permutation_in _ Hperm') in Hr.
    apply recorded_spans in Hr. destruct Hr as (s & p & Hs & Hp & ->).
    split; [apply occurrence_inside; exact Hp |].
    split; [| reflexivity].
    apply (Permutation_in _ Hperm) in Hs. apply Hne in Hs.
    unfold Spec.span_of, red_start, red_end, len. simpl.
    destruct (text s); [congruence | simpl; lia]. }
  split.
  - rewrite List.Forall_forall. intros r Hr. apply Hrec. exact Hr.
  - unfold redacted_content. fold ordered. fold recorded. fold applied.
    apply apply_backwards.
    + apply sorted_disjoint_backwards.
      * exact Hdesc.
      * apply (pairwise_perm _ recorded applied).
        -- apply disjoint_sym.
        -- apply Permutation_sym. exact Hperm'.
        -- exact Hdis.
      * rewrite List.Forall_forall. intros r Hr. apply Hrec. exact Hr.
    + rewrite List.Forall_forall. intros r Hr. apply Hrec. exact Hr.
Qed.

End TextApplier.

(** The applier at a document with two accepted texts that occur apart. *)
Lemma text_applier_on_disjoint_spans_example :
  let suggestions := [Samples.request "123-45-6789";
                      Samples.request "john@example.com"] in
  let applied :=
    sort_redactions
      (collect_redactions Samples.ssn_text (sort_suggestions suggestions) []) in
  List.Forall (fun r => red_repl r = REDACTED) applied
  /\ redacted_content Samples.ssn_text suggestions
     = Spec.splice Samples.ssn_text 0 (rev applied).
Proof.
  intros suggestions applied.
  apply (text_applier_on_disjoint_spans Samples.ssn_text suggestions).
  - intros s [<- | [<- | []]]; vm_compute; discriminate.
  - assert (Hr : collect_redactions Samples.ssn_text
                   (sort_suggestions suggestions) []
                 = [(43, 59, REDACTED); (18, 29, REDACTED)])
      by (vm_compute; reflexivity).
    rewrite Hr. unfold Spec.pairwise_disjoint.
    apply FOP_cons;
      [apply List.Forall_cons; [| apply List.Forall_nil]
      | apply FOP_cons; [apply List.Forall_nil | apply FOP_nil]].
    right. unfold red_end, red_start. simpl. lia.
Defined.

(** C2, what the code does: the search of line 459 restarts one character
    after the last occurrence, so occurrences that overlap are all
    recorded, and every recorded span is rewritten at its original offsets
    although the rewriting of a later span has moved the text.  For the
    content "aaa" and the accepted text "aa" the recorded spans (0,2) and
    (1,3) overlap and the output is "[REDACTED]REDACTED]".  For a document
    that reads "Contact Mary Jane Boston today" and the accepted texts
    "Jane" and "Mary Jane Boston", the recorded spans (8,24) and (13,17)
    are nested, [redact_document] returns the output path, and the output
    reads "Contact [REDACTED]Boston today": six characters of the longer
    accepted text are still there. *)
Theorem C2_overlapping_spans_rewritten_wrongly :
  let requests := [Samples.request "Jane"; Samples.request "Mary Jane Boston"] in
  let content := py "Contact Mary Jane Boston today" in
  let w := Samples.disk [(py "memo.txt", TextFile content)] [] in
  let out := py "memo_redacted.txt" in
  let run := redact_document (py "memo.txt") requests out w in
  (collect_redactions (py "aaa") (sort_suggestions [Samples.request "aa"]) []
   = [(0, 2, REDACTED); (1, 3, REDACTED)]
   /\ ~ Spec.pairwise_disjoint
          (collect_redactions (py "aaa")
                              (sort_suggestions [Samples.request "aa"]) [])
   /\ redacted_content (py "aaa") [Samples.request "aa"]
      = py "[REDACTED]REDACTED]")
  /\ (collect_redactions content (sort_suggestions requests) []
      = [(8, 24, REDACTED); (13, 17, REDACTED)]
      /\ ~ Spec.pairwise_disjoint
             (collect_redactions content (sort_suggestions requests) [])
      /\ fst run = Ok (Some out)
      /\ files (snd run) !! out
         = Some (TextFile (py "Contact [REDACTED]Boston today"))
      /\ contains (py "Contact [REDACTED]Boston today") (py "Boston") = true).
Proof.
  intros requests content w out run.
  assert (Hr : collect_redactions (py "aaa")
                 (sort_suggestions [Samples.request "aa"]) []
               = [(0, 2, REDACTED); (1, 3, REDACTED)])
    by (vm_compute; reflexivity).
  assert (Hn : collect_redactions content (sort_suggestions requests) []
               = [(8, 24, REDACTED); (13, 17, REDACTED)])
    by (vm_compute; reflexivity).
  split; [split; [exact Hr | split] | split; [exact Hn | split; [| split; [| split]]]].
  - rewrite Hr. intros Hd. inversion Hd as [| r l Hrl _]; subst.
    inversion Hrl as [| b l' Hb _]; subst.
    unfold Spec.disjoint, red_end, red_start in Hb. simpl in Hb. lia.
  - vm_compute. reflexivity.
  - rewrite Hn. intros Hd. inversion Hd as [| r l Hrl _]; subst.
    inversion Hrl as [| b l' Hb _]; subst.
    unfold Spec.disjoint, red_end, red_start in Hb. simpl in Hb. lia.
  - vm_compute. reflexivity.
  - vm_compute. reflexivity.
  - vm_compute. reflexivity.
Qed.

(** ** Column detection *)

Section Rationals.

Lemma Qlt_bool_true (a b : Q) : Qlt_bool a b = true <-> (a < b)%Q.
Proof.
  unfold Qlt_bool. rewrite negb_true_iff. split.
  - intros Hf. apply Qnot_le_lt. intros Hle.
    apply Qle_bool_iff in Hle. congruence.
  - intros Hlt. destruct (Qle_bool b a) eqn:E; [| reflexivity].
    apply Qle_bool_iff in E. exfalso. eapply Qlt_not_le; eassumption.
Qed.

Lemma Qlt_bool_false (a b : Q) : Qlt_bool a b = false <-> (b <= a)%Q.
Proof.
  unfold Qlt_bool. rewrite negb_false_iff. apply Qle_bool_iff.
Qed.

(** [min] is below, and [max] above, every element of the sequence. *)
Lemma py_min_below (xs : list Q) :
  forall x, (py_min x xs <= x)%Q
            /\ forall y, In y xs -> (py_min x xs <= y)%Q.
Proof.
  unfold py_min. induction xs as [| z xs IH]; intros x; simpl.
  - split; [apply Qle_refl | intros y []].
  - destruct (Qlt_bool z x) eqn:E.
    + apply Qlt_bool_true in E. destruct (IH z) as [Hz Hxs].
      split; [eapply Qle_trans; [exact Hz | apply Qlt_le_weak, E] |].
      intros y [<- | Hy]; [exact Hz | apply Hxs, Hy].
    + apply Qlt_bool_false in E. destruct (IH x) as [Hx Hxs].
      split; [exact Hx |].
      intros y [<- | Hy]; [eapply Qle_trans; eassumption | apply Hxs, Hy].
Qed.

Lemma py_max_above (xs : list Q) :
  forall x, (x <= py_max x xs)%Q
            /\ forall y, In y xs -> (y <= py_max x xs)%Q.
Proof.
  unfold py_max. induction xs as [| z xs IH]; intros x; simpl.
  - split; [apply Qle_refl | intros y []].
  - destruct (Qlt_bool x z) eqn:E.
    + apply Qlt_bool_true in E. destruct (IH z) as [Hz Hxs].
      split; [eapply Qle_trans; [apply Qlt_le_weak, E | exact Hz] |].
      intros y [<- | Hy]; [exact Hz | apply Hxs, Hy].
    + apply Qlt_bool_false in E. destruct (IH x) as [Hx Hxs].
      split; [exact Hx |].
      intros y [<- | Hy]; [eapply Qle_trans; eassumption | apply Hxs, Hy].
Qed.

(** [min] and [max] are elements of the sequence. *)
Lemma py_min_in (xs : list Q) : forall x, In (py_min x xs) (x :: xs).
Proof.
  unfold py_min. induction xs as [| y xs IH]; intros x; simpl; [auto |].
  destruct (IH (if Qlt_bool y x then y else x)) as [Heq | Hin]; [| auto].
  destruct (Qlt_bool y x); auto.
Qed.

Lemma py_max_in (xs : list Q) : forall x, In (py_max x xs) (x :: xs).
Proof.
  unfold py_max. induction xs as [| y xs IH]; intros x; simpl; [auto |].
  destruct (IH (if Qlt_bool x y then y else x)) as [Heq | Hin]; [| auto].
  destruct (Qlt_bool x y); auto.
Qed.

End Rationals.

Section Grouping.

Lemma zip_length {A B} (a : list A) (b : list B) :
  length (zip a b) = Nat.min (length a) (length b).
Proof.
  revert b. induction a as [| x a IH]; intros [| y b]; simpl; auto.
Qed.



Lemma flat_map_split {A B} (h f : A -> list B) (l : list A) :
  Permutation (flat_map (fun c => h c ++ f c) l) (flat_map h l ++ flat_map f l).
Proof.
  induction l as [| a l IH]; simpl; [apply perm_nil |].
  rewrite <- !app_assoc. apply Permutation_app_head.
  eapply perm_trans; [apply Permutation_app_head, IH |].
  apply Permutation_app_swap_app.
Qed.

(** A label occurs once among the clusters [a .. a+n-1] that contain it. *)
Lemma one_cluster {B} (w : B) (l a n : nat) :
  (a <= l)%nat -> (l < a + n)%nat ->
  flat_map (fun c => if Nat.eqb l c then [w] else []) (seq a n) = [w].
Proof.
  revert a. induction n as [| n IH]; intros a Hal Hl; [lia |]. simpl.
  destruct (Nat.eqb_spec l a) as [-> | Hne].
  - simpl. f_equal.
    clear IH Hal Hl. generalize (S a), (Nat.lt_succ_diag_r a).
    induction n as [| n IH]; intros b Hb; simpl; [reflexivity |].
    destruct (Nat.eqb_spec a b); [lia |]. apply IH. lia.
  - simpl. apply IH; lia.
Qed.


End Grouping.

Section Detector.
Context `{Sklearn}.

(** The columns built from a labelling. *)
Lemma cluster_column_words (ws : list Word) (labels : list nat) (c : nat) :
  flat_map words (cluster_column ws labels c)
  = map fst (List.filter (fun wl => Nat.eqb (snd wl) c) (zip ws labels)).
Proof.
  unfold cluster_column.
  destruct (map fst _) as [| w rest]; simpl; [| rewrite app_nil_r]; reflexivity.
Qed.

Lemma cluster_column_covers (ws : list Word) (labels : list nat) (c : nat) :
  List.Forall (fun col => words col <> [] /\ LayoutSpec.covers col)
              (cluster_column ws labels c).
Proof.
  unfold cluster_column.
  destruct (map fst _) as [| w rest]; constructor; [| constructor].
  split; [discriminate |]. unfold LayoutSpec.covers. simpl.
  destruct (py_min_below (map x0 rest) (x0 w)) as [Hm Hms].
  destruct (py_max_above (map x1 rest) (x1 w)) as [HM HMs].
  intros w' [<- | Hw]; split; auto.
  - apply Hms, in_map, Hw.
  - apply HMs, in_map, Hw.
Qed.

(** The count the loop ends with is the one it started from or one of
    the candidates. *)
Lemma score_candidate_count (x : list Q) (best best' : nat * Q) (n : nat)
      (g g' : Rng) :
  score_candidate x best n g = (Ok best', g') ->
  fst best' = fst best \/ fst best' = n.
Proof.
  unfold score_candidate. destruct (1 <? n)%nat.
  - destruct (fit_predict n random_state x g) as [[labels | e] g1];
      [| discriminate].
    destruct (silhouette_score x labels) as [score | e]; [| discriminate].
    destruct (Qlt_bool (snd best) score); intros Heq; injection Heq as <- _; auto.
  - intros Heq; injection Heq as <- _; auto.
Qed.

Lemma best_clusters_count (x : list Q) (counts : list nat) :
  forall (best : nat * Q) (g g' : Rng) (k : nat) (s : Q),
    best_clusters x counts best g = (Ok (k, s), g') ->
    k = fst best \/ In k counts.
Proof.
  induction counts as [| n rest IH]; intros best g g' k s; simpl.
  - intros Heq; injection Heq as -> _; auto.
  - destruct (score_candidate x best n g) as [[best' | e] g1] eqn:Hs;
      [| discriminate].
    intros Hb. destruct (IH _ _ _ _ _ Hb) as [-> | Hin]; [| auto].
    destruct (score_candidate_count _ _ _ _ _ _ Hs) as [-> | ->]; auto.
Qed.



Lemma flat_map_flat_map {A B C} (f : A -> list B) (g : B -> list C) (l : list A) :
  flat_map g (flat_map f l) = flat_map (fun a => flat_map g (f a)) l.
Proof.
  induction l as [| a l IH]; simpl; [reflexivity |].
  rewrite flat_map_app, IH. reflexivity.
Qed.


(** With seeded clusterings, the choice of the count does not depend on
    the global generator. *)
Lemma score_candidate_seeded (x : list Q) (best : nat * Q) (n : nat)
      (g1 g2 : Rng) :
  LayoutSpec.seeded ->
  fst (score_candidate x best n g1) = fst (score_candidate x best n g2).
Proof.
  intros Hseed. unfold score_candidate.
  destruct (1 <? n)%nat; [| reflexivity].
  assert (Hs := Hseed n 42 x g1 g2). unfold random_state.
  destruct (fit_predict n (Some 42) x g1) as [[l1 | e1] g1'],
           (fit_predict n (Some 42) x g2) as [[l2 | e2] g2'];
    simpl in Hs; try discriminate; injection Hs as ->; try reflexivity.
  destruct (silhouette_score x l2); [| reflexivity].
  destruct (Qlt_bool _ _); reflexivity.
Qed.

Lemma best_clusters_seeded (x : list Q) (candidates : list nat) :
  LayoutSpec.seeded ->
  forall (best : nat * Q) (g1 g2 : Rng),
    fst (best_clusters x candidates best g1)
    = fst (best_clusters x candidates best g2).
Proof.
  intros Hseed. induction candidates as [| n rest IH]; intros best g1 g2;
    simpl; [reflexivity |].
  assert (Hs := score_candidate_seeded x best n g1 g2 Hseed).
  destruct (score_candidate x best n g1) as [[b1 | e1] g1'],
           (score_candidate x best n g2) as [[b2 | e2] g2'];
    simpl in Hs; try discriminate; injection Hs as ->; [apply IH | reflexivity].
Qed.

Lemma detect_try_seeded (ws : list Word) (max_columns : nat) (g1 g2 : Rng) :
  LayoutSpec.seeded ->
  fst (detect_try ws max_columns g1) = fst (detect_try ws max_columns g2).
Proof.
  intros Hseed. unfold detect_try.
  assert (Hb := best_clusters_seeded (map x0 ws)
                  (candidates max_columns (map x0 ws)) Hseed (1%nat, -1 # 1) g1 g2).
  destruct (best_clusters _ _ _ g1) as [[[k1 s1] | e1] g1'],
           (best_clusters _ _ _ g2) as [[[k2 s2] | e2] g2'];
    simpl in Hb; try discriminate; [| injection Hb as ->; reflexivity].
  injection Hb as -> ->.
  assert (Hs := Hseed k2 42 (map x0 ws) g1' g2'). unfold random_state.
  destruct (fit_predict k2 (Some 42) _ g1') as [[l1 | e1] g1''],
           (fit_predict k2 (Some 42) _ g2') as [[l2 | e2] g2''];
    simpl in Hs; try discriminate; injection Hs as ->; reflexivity.
Qed.

Lemma detect_columns_seeded (ws : list Word) (g1 g2 : Rng) :
  LayoutSpec.seeded ->
  fst (_detect_columns ws g1) = fst (_detect_columns ws g2).
Proof.
  intros Hseed. unfold _detect_columns, _detect_columns_with.
  destruct ws as [| w ws]; [reflexivity |].
  assert (Hd := detect_try_seeded (w :: ws) 3 g1 g2 Hseed).
  destruct (detect_try (w :: ws) 3 g1) as [[c1 | e1] g1'],
           (detect_try (w :: ws) 3 g2) as [[c2 | e2] g2'];
    simpl in Hd; try discriminate; [injection Hd as -> |]; reflexivity.
Qed.

(** C8: when the clustering with a seed does not depend on the state of
    the global generator, two runs of [_detect_columns] on the same words,
    from whatever states of that generator, return the same columns, and
    so the same number of columns; both constructions of [KMeans] in the
    detector pass the seed. *)
Theorem C8_column_count_deterministic (ws : list Word) (g1 g2 : Rng) :
  LayoutSpec.seeded ->
  fst (_detect_columns ws g1) = fst (_detect_columns ws g2)
  /\ length (fst (_detect_columns ws g1)) = length (fst (_detect_columns ws g2)).
Proof.
  intros Hseed.
  assert (Hd := detect_columns_seeded ws g1 g2 Hseed).
  split; [exact Hd | rewrite Hd; reflexivity].
Qed.


End Detector.

(** ** The exact instance meets the contract *)

Section ExactInstance.
Import Instances.ExactSklearn.

Lemma exact_seeded : @LayoutSpec.seeded Exact.
Proof.
  intros n seed x g1 g2. simpl. unfold kmeans.
  destruct (n =? 0)%nat; [reflexivity |].
  destruct (length x <? n)%nat; reflexivity.
Qed.

Lemma nearest_range (x : Q) (centers : list Q) :
  forall (i best : nat) (d : Q),
    nearest x centers i best d = best
    \/ (i <= nearest x centers i best d < i + length centers)%nat.
Proof.
  induction centers as [| c rest IH]; intros i best d; simpl; [left; reflexivity |].
  destruct (Qlt_bool (dist x c) d).
  - destruct (IH (S i) i (dist x c)) as [-> | Hr]; right; lia.
  - destruct (IH (S i) best d) as [-> | Hr]; [left; reflexivity | right; lia].
Qed.

Lemma label_of_range (centers : list Q) (x : Q) :
  centers <> [] -> (label_of centers x < length centers)%nat.
Proof.
  destruct centers as [| c rest]; [congruence |]. intros _. simpl.
  destruct (nearest_range x rest 1 0 (dist x c)) as [-> | Hr]; lia.
Qed.

Lemma update_length (xs : list Q) (labels : list nat) (centers : list Q) :
  length (update xs labels centers) = length centers.
Proof.
  unfold update. rewrite length_map, zip_length, length_seq. lia.
Qed.

Lemma lloyd_labels (n : nat) (xs : list Q) :
  (0 < n)%nat ->
  forall (max_iter : nat) (centers : list Q),
    length centers = n ->
    length (lloyd max_iter xs centers) = length xs
    /\ List.Forall (fun l => (l < n)%nat) (lloyd max_iter xs centers).
Proof.
  intros Hn.
  assert (Hbase : forall centers, length centers = n ->
            length (map (label_of centers) xs) = length xs
            /\ List.Forall (fun l => (l < n)%nat) (map (label_of centers) xs)).
  { intros centers Hc. split; [apply length_map |].
    rewrite List.Forall_forall. intros l Hl. apply in_map_iff in Hl.
    destruct Hl as (x & <- & _). rewrite <- Hc. apply label_of_range.
    destruct centers; [simpl in Hc; lia | discriminate]. }
  induction max_iter as [| k IH]; intros centers Hc; simpl.
  - apply Hbase, Hc.
  - destruct (same_centers _ _); [apply Hbase, Hc |].
    apply IH. rewrite update_length. exact Hc.
Qed.

Lemma more_centers_length (k : nat) (xs : list Q) :
  forall centers, length (more_centers k xs centers) = (length centers + k)%nat.
Proof.
  induction k as [| k IH]; intros centers; simpl; [lia |].
  rewrite IH, length_app. simpl. lia.
Qed.

Lemma exact_well_labelled : @LayoutSpec.well_labelled Exact.
Proof.
  intros n rs x g g' labels. simpl. unfold kmeans.
  destruct (Nat.eqb_spec n 0); [discriminate |].
  destruct (length x <? n)%nat; [discriminate |].
  assert (Hl := lloyd_labels n x ltac:(lia) 300%nat
                  (init n match rs with Some s => s | None => g end x)).
  remember (lloyd 300 x _) as computed eqn:Hc. clear Hc.
  intros Heq. injection Heq as Hlabels _. subst labels.
  apply Hl. unfold init. rewrite more_centers_length. simpl. lia.
Qed.

(** Without a seed the clustering does read the global generator. *)
Lemma exact_unseeded_reads_generator :
  fst (kmeans 2 None [0; 1; 2; 9]%Q 0) <> fst (kmeans 2 None [0; 1; 2; 9]%Q 3).
Proof. vm_compute. discriminate. Qed.

End ExactInstance.

(** Two runs on the page of forty words, from two states of the
    generator. *)
Lemma C8_column_count_deterministic_witness :
  fst (_detect_columns (H := Instances.ExactSklearn.Exact)
                       Samples.two_column_page 0)
  = fst (_detect_columns (H := Instances.ExactSklearn.Exact)
                         Samples.two_column_page 2024)
  /\ length (fst (_detect_columns (H := Instances.ExactSklearn.Exact)
                                  Samples.two_column_page 0))
     = length (fst (_detect_columns (H := Instances.ExactSklearn.Exact)
                                    Samples.two_column_page 2024)).
Proof.
  apply (C8_column_count_deterministic (H := Instances.ExactSklearn.Exact)
           Samples.two_column_page 0 2024).
  exact exact_seeded.
Defined.

(** ** The columns of a page *)

Section Pages.
Import Instances.ExactSklearn.

Lemma two_column_page_columns :
  fst (_detect_columns (H := Exact) Samples.two_column_page 0)
  = [ mkColumn (72, 112)%Q (repeat (Samples.word_at 72 112) 20);
      mkColumn (320, 360)%Q (repeat (Samples.word_at 320 360) 20) ].
Proof. vm_compute. reflexivity. Qed.


Lemma aligned_page_columns :
  fst (_detect_columns (H := Exact) Samples.aligned_page 0) = [].
Proof. vm_compute. reflexivity. Qed.

End Pages.





(** ** The choice of the number of columns *)

Section Choice.
Context `{Sklearn}.
Variable Hseed : LayoutSpec.seeded.

Lemma candidates_cases (x : list Q) :
  candidates 3 x
  = match length x with
    | 0%nat | 1%nat => []
    | 2%nat => [1%nat]
    | 3%nat => [1%nat; 2%nat]
    | _ => [1%nat; 2%nat; 3%nat]
    end.
Proof.
  unfold candidates, range.
  destruct (length x) as [| [| [| [| m]]]]; reflexivity.
Qed.

Lemma candidate_score_seeded (x : list Q) (g1 g2 : Rng) (n : nat) :
  LayoutSpec.candidate_score x g1 n = LayoutSpec.candidate_score x g2 n.
Proof using Hseed.
  unfold LayoutSpec.candidate_score, random_state.
  rewrite (Hseed n 42 x g1 g2). reflexivity.
Qed.

(** One scored turn of the loop. *)
Lemma score_candidate_scored (x : list Q) (best : nat * Q) (n : nat) (g : Rng) :
  (1 < n)%nat ->
  fst (score_candidate x best n g)
  = match LayoutSpec.candidate_score x g n with
    | Ok score => Ok (if Qlt_bool (snd best) score then (n, score) else best)
    | Raise e => Raise e
    end.
Proof.
  intros Hn. unfold score_candidate, LayoutSpec.candidate_score.
  destruct (Nat.ltb_spec 1 n); [| lia].
  destruct (fit_predict n random_state x g) as [[labels | e] g1]; simpl;
    [| reflexivity].
  destruct (silhouette_score x labels); [| reflexivity].
  destruct (Qlt_bool _ _); reflexivity.
Qed.

Lemma score_candidate_skipped (x : list Q) (best : nat * Q) (g : Rng) :
  score_candidate x best 1 g = (Ok best, g).
Proof. reflexivity. Qed.

(** The loop over the candidates of a page, turn by turn. *)
Lemma best_clusters_turns (x : list Q) (g : Rng) :
  fst (best_clusters x (candidates 3 x) (1%nat, -1 # 1) g)
  = match length x with
    | 0%nat | 1%nat | 2%nat => Ok (1%nat, -1 # 1)
    | 3%nat =>
        match LayoutSpec.candidate_score x g 2 with
        | Ok s2 => Ok (if Qlt_bool (-1 # 1) s2 then (2%nat, s2) else (1%nat, -1 # 1))
        | Raise e => Raise e
        end
    | _ =>
        match LayoutSpec.candidate_score x g 2 with
        | Ok s2 =>
            let best := if Qlt_bool (-1 # 1) s2 then (2%nat, s2)
                        else (1%nat, -1 # 1) in
            match LayoutSpec.candidate_score x g 3 with
            | Ok s3 => Ok (if Qlt_bool (snd best) s3 then (3%nat, s3) else best)
            | Raise e => Raise e
            end
        | Raise e => Raise e
        end
    end.
Proof using Hseed.
  rewrite candidates_cases.
  destruct (length x) as [| [| [| [| m]]]]; try reflexivity.
  - cbn [best_clusters]. rewrite score_candidate_skipped.
    assert (Hs := score_candidate_scored x (1%nat, -1 # 1) 2 g ltac:(lia)).
    destruct (score_candidate x (1%nat, -1 # 1) 2 g) as [[b | e] g1];
      simpl in Hs; destruct (LayoutSpec.candidate_score x g 2);
      try discriminate; injection Hs as ->; reflexivity.
  - cbn [best_clusters]. rewrite score_candidate_skipped.
    assert (Hs := score_candidate_scored x (1%nat, -1 # 1) 2 g ltac:(lia)).
    destruct (score_candidate x (1%nat, -1 # 1) 2 g) as [[b | e] g1];
      simpl in Hs; destruct (LayoutSpec.candidate_score x g 2) as [s2 | e2];
      try discriminate; injection Hs as ->; [| reflexivity].
    cbv zeta.
    set (best := if Qlt_bool (-1 # 1) s2 then (2%nat, s2) else (1%nat, -1 # 1)).
    assert (Hs := score_candidate_scored x best 3 g1 ltac:(lia)).
    rewrite (candidate_score_seeded x g1 g 3) in Hs.
    destruct (score_candidate x best 3 g1) as [[b | e] g2];
      simpl in Hs; destruct (LayoutSpec.candidate_score x g 3);
      try discriminate; injection Hs as ->; reflexivity.
Qed.

(** The count the loop settles on is the choice among the scored counts. *)
Lemma best_clusters_best_count (x : list Q) (g g' : Rng) (k : nat) (s : Q) :
  best_clusters x (candidates 3 x) (1%nat, -1 # 1) g = (Ok (k, s), g') ->
  LayoutSpec.best_count x g k s.
Proof using Hseed.
  intros Hb. assert (Ht := best_clusters_turns x g). rewrite Hb in Ht.
  simpl in Ht. unfold LayoutSpec.best_count, LayoutSpec.scored.
  destruct (length x) as [| [| [| [| m]]]] eqn:Hlen.
  1, 2, 3: injection Ht as Hk Hs; subst k s; left; repeat split; intros n Hn; lia.
  - destruct (LayoutSpec.candidate_score x g 2) as [s2 | e2] eqn:H2;
      [| discriminate].
    destruct (Qlt_bool (-1 # 1) s2) eqn:Hq; injection Ht as Hk Hs; subst k s.
    + apply Qlt_bool_true in Hq. right.
      split; [lia |]. split; [exact H2 |]. split; [exact Hq |].
      intros n Hn. assert (n = 2%nat) as -> by lia.
      exists s2. split; [exact H2 |]. split; [apply Qle_refl | lia].
    + apply Qlt_bool_false in Hq. left.
      split; [reflexivity |]. split; [reflexivity |].
      intros n Hn. assert (n = 2%nat) as -> by lia.
      exists s2. split; [exact H2 | exact Hq].
  - destruct (LayoutSpec.candidate_score x g 2) as [s2 | e2] eqn:H2;
      [| discriminate].
    destruct (LayoutSpec.candidate_score x g 3) as [s3 | e3] eqn:H3;
      [| discriminate].
    destruct (Qlt_bool (-1 # 1) s2) eqn:Hq2; simpl in Ht;
      destruct (Qlt_bool _ s3) eqn:Hq3; injection Ht as Hk Hs; subst k s;
      try apply Qlt_bool_true in Hq2; try apply Qlt_bool_false in Hq2;
      try apply Qlt_bool_true in Hq3; try apply Qlt_bool_false in Hq3.
    + right. split; [lia |]. split; [exact H3 |].
      split; [eapply Qlt_trans; eassumption |].
      intros n Hn. assert (n = 2%nat \/ n = 3%nat) as [-> | ->] by lia.
      * exists s2. split; [exact H2 |].
        split; [apply Qlt_le_weak; exact Hq3 | intros _; exact Hq3].
      * exists s3. split; [exact H3 |]. split; [apply Qle_refl | lia].
    + right. split; [lia |]. split; [exact H2 |]. split; [exact Hq2 |].
      intros n Hn. assert (n = 2%nat \/ n = 3%nat) as [-> | ->] by lia.
      * exists s2. split; [exact H2 |]. split; [apply Qle_refl | lia].
      * exists s3. split; [exact H3 |]. split; [exact Hq3 | lia].
    + right. split; [lia |]. split; [exact H3 |]. split; [exact Hq3 |].
      intros n Hn. assert (n = 2%nat \/ n = 3%nat) as [-> | ->] by lia.
      * exists s2. split; [exact H2 |].
        assert (Hlt : (s2 < s3)%Q) by (eapply Qle_lt_trans; eassumption).
        split; [apply Qlt_le_weak; exact Hlt | intros _; exact Hlt].
      * exists s3. split; [exact H3 |]. split; [apply Qle_refl | lia].
    + left. split; [reflexivity |]. split; [reflexivity |].
      intros n Hn. assert (n = 2%nat \/ n = 3%nat) as [-> | ->] by lia.
      * exists s2. split; [exact H2 | exact Hq2].
      * exists s3. split; [exact H3 | exact Hq3].
Qed.

(** A scored count whose clustering or scoring raises empties the result. *)
Lemma raise_gives_no_columns (ws : list Word) (g : Rng) (n : nat) (e : Exn) :
  LayoutSpec.scored (map x0 ws) n ->
  LayoutSpec.candidate_score (map x0 ws) g n = Raise e ->
  fst (_detect_columns ws g) = [].
Proof using Hseed.
  intros (H2 & H3 & Hl) Hr.
  unfold _detect_columns, _detect_columns_with, detect_try.
  destruct ws as [| w ws]; [reflexivity |].
  assert (Ht := best_clusters_turns (map x0 (w :: ws)) g).
  destruct (best_clusters _ _ _ g) as [[[k s] | e'] g1]; [| reflexivity].
  exfalso. simpl fst in Ht.
  destruct (length (map x0 (w :: ws))) as [| [| [| [| m]]]]; try lia.
  - assert (n = 2%nat) as -> by lia. rewrite Hr in Ht. discriminate.
  - assert (n = 2%nat \/ n = 3%nat) as [-> | ->] by lia.
    + rewrite Hr in Ht. discriminate.
    + destruct (LayoutSpec.candidate_score _ g 2); [| discriminate].
      cbv zeta in Ht. rewrite Hr in Ht. discriminate.
Qed.

End Choice.

Section FewWords.
Context `{Sklearn}.

Lemma single_cluster_words (ws : list Word) (labels : list nat) :
  length labels = length ws ->
  List.Forall (fun l => (l < 1)%nat) labels ->
  map fst (List.filter (fun wl => Nat.eqb (snd wl) 0) (zip ws labels)) = ws.
Proof.
  revert labels. induction ws as [| w ws IH]; intros [| l labels] Hlen Hl;
    simpl in *; try discriminate; [reflexivity |].
  inversion Hl as [| l' labels' Hl0 Hl']; subst.
  assert (l = 0%nat) as -> by lia. simpl.
  rewrite IH; [reflexivity | lia | exact Hl'].
Qed.

(** With fewer than three words no count is scored and the single cluster
    holds every word. *)
Lemma few_words_single_column (ws : list Word) (g g' : Rng) (labels : list nat) :
  LayoutSpec.well_labelled ->
  ws <> [] -> (length ws < 3)%nat ->
  fit_predict 1 random_state (map x0 ws) g = (Ok labels, g') ->
  exists r, fst (_detect_columns ws g) = [mkColumn r ws].
Proof.
  intros Hlab Hne Hlen Hfit.
  destruct (Hlab _ _ _ _ _ _ Hfit) as [Hl Hz]. rewrite length_map in Hl.
  unfold _detect_columns, _detect_columns_with, detect_try.
  rewrite candidates_cases, length_map.
  assert (Hcols : group_columns ws labels 1
                  = match ws with
                    | [] => []
                    | w :: rest =>
                        [mkColumn (py_min (x0 w) (map x0 rest),
                                   py_max (x1 w) (map x1 rest)) ws]
                    end).
  { unfold group_columns, range, cluster_column. simpl.
    rewrite (single_cluster_words ws labels Hl Hz), app_nil_r.
    destruct ws; reflexivity. }
  destruct ws as [| w [| w' [| w'' rest]]]; [congruence | | | simpl in Hlen; lia].
  - cbn [length best_clusters]. rewrite Hfit, Hcols. eexists. reflexivity.
  - cbn [length best_clusters]. rewrite score_candidate_skipped.
    rewrite Hfit, Hcols. eexists. reflexivity.
Qed.

End FewWords.

(** C6, as the code has it: the loop scores the counts from 2 to 3 that are
    below the number of words, each by the silhouette score of the seeded
    k-means clustering of the x0 coordinates; when no clustering or scoring
    raises, the detector groups the words by the clustering into the least
    count of greatest score, provided that score exceeds -1, and into the
    single cluster otherwise; with fewer than three words no count is
    scored and a single column with all the words is returned; and when the
    clustering or scoring of a scored count raises, no column is
    returned. *)
Theorem C6_column_count (S : Sklearn) (ws : list Word) (g : Rng) :
  LayoutSpec.seeded -> LayoutSpec.well_labelled ->
  ws <> [] ->
  let x := map x0 ws in
  (forall k s g' labels g'',
      best_clusters x (candidates 3 x) (1%nat, -1 # 1) g = (Ok (k, s), g') ->
      fit_predict k random_state x g' = (Ok labels, g'') ->
      LayoutSpec.best_count x g k s
      /\ fst (_detect_columns ws g) = group_columns ws labels k)
  /\ ((length ws < 3)%nat ->
      forall labels g',
        fit_predict 1 random_state x g = (Ok labels, g') ->
        exists r, fst (_detect_columns ws g) = [mkColumn r ws])
  /\ (forall n e,
        LayoutSpec.scored x n ->
        LayoutSpec.candidate_score x g n = Raise e ->
        fst (_detect_columns ws g) = []).
Proof.
  intros Hseed Hlab Hne x. split; [| split].
  - intros k s g' labels g'' Hb Hfit. split.
    + apply (best_clusters_best_count Hseed x g g'). exact Hb.
    + unfold _detect_columns, _detect_columns_with, detect_try.
      destruct ws as [| w ws']; [congruence |].
      fold x. rewrite Hb, Hfit. reflexivity.
  - intros Hlen labels g' Hfit.
    apply (few_words_single_column ws g g' labels); assumption.
  - intros n e Hn Hr. apply (raise_gives_no_columns Hseed ws g n e); assumption.
Qed.

(** The three parts on the page of forty words, on a page of two words and
    on the page of three words that start at one x0. *)
Lemma C6_column_count_witness :
  let E := Instances.ExactSklearn.Exact in
  let x := map x0 Samples.two_column_page in
  (LayoutSpec.best_count (H := E) x 0 2 1
   /\ fst (_detect_columns (H := E) Samples.two_column_page 0)
      = group_columns Samples.two_column_page
                      (repeat 0%nat 20 ++ repeat 1%nat 20) 2)
  /\ (exists r, fst (_detect_columns (H := E) Samples.short_page 0)
                = [mkColumn r Samples.short_page])
  /\ fst (_detect_columns (H := E) Samples.aligned_page 0) = [].
Proof.
  intros E x. split; [| split].
  - apply (proj1 (C6_column_count E Samples.two_column_page 0
                    exact_seeded exact_well_labelled ltac:(discriminate))
                 2%nat 1%Q 0 (repeat 0%nat 20 ++ repeat 1%nat 20) 0).
    + vm_compute. reflexivity.
    + vm_compute. reflexivity.
  - apply (proj1 (proj2 (C6_column_count E Samples.short_page 0
                           exact_seeded exact_well_labelled ltac:(discriminate)))
                 ltac:(simpl; lia) [0%nat; 0%nat] 0).
    vm_compute. reflexivity.
  - apply (proj2 (proj2 (C6_column_count E Samples.aligned_page 0
                           exact_seeded exact_well_labelled ltac:(discriminate)))
                 2%nat
                 (Instances.ExactSklearn.exn
                    "Number of labels is invalid. Valid values are 2 to n_samples - 1 (inclusive)")).
    + unfold LayoutSpec.scored. simpl. lia.
    + vm_compute. reflexivity.
Defined.

(** C6 as stated fails: the page of three words that all start at x0 = 5
    has fewer than two distinguishable x-positions, yet the detector
    returns no column at all rather than a single one, because the scoring
    of the count 2 raises. *)
Lemma C6_degenerate_page_no_column :
  Samples.aligned_page <> []
  /\ map x0 Samples.aligned_page = [5; 5; 5]%Q
  /\ (exists e, LayoutSpec.candidate_score
                  (H := Instances.ExactSklearn.Exact)
                  (map x0 Samples.aligned_page) 0 2 = Raise e)
  /\ fst (_detect_columns (H := Instances.ExactSklearn.Exact)
                          Samples.aligned_page 0) = []
  /\ length (fst (_detect_columns (H := Instances.ExactSklearn.Exact)
                                  Samples.aligned_page 0)) <> 1%nat.
Proof.
  split; [discriminate |]. split; [reflexivity |].
  split; [eexists; vm_compute; reflexivity |].
  rewrite aligned_page_columns. split; [reflexivity | discriminate].
Qed.

(** * Further properties of the engine *)

(** ** What [redact_document] raises and which files it touches *)

Section EntryPointMore.
Context `{Fitz} `{Unicode} `{Suggester}.

(** X1: whatever the arguments, an exception that leaves [redact_document]
    is either a [ValueError], raised with the world as it was (no file
    operation had been performed), or the [RuntimeError] made from the
    exception of the applier of the format: the applier registered for the
    extension was run, it raised, and the message is
    "Document redaction failed: " followed by the message of its
    exception. *)
Theorem redact_document_raises (file_path output_path : str)
        (suggestions : list Suggestion) (w : World) :
  match redact_document file_path suggestions output_path w with
  | (Ok _, _) => True
  | (Raise e, w') =>
      (exn_class e = ValueError /\ w' = w)
      \/ (exists redaction_method inner,
            formats_get (replace (lower (snd (splitext file_path))) (py ".") [])
                        supported_formats
            = Some redaction_method
            /\ redaction_method file_path suggestions output_path w
               = (Raise inner, w')
            /\ e = mkExn RuntimeError
                         (py "Document redaction failed: " ++ exn_msg inner))
  end.
Proof.
  unfold redact_document.
  destruct suggestions as [| s rest]; [left; split; reflexivity |].
  destruct (formats_get _ supported_formats) as [method |] eqn:Hget;
    [| left; split; reflexivity].
  unfold try_except.
  destruct (method file_path (s :: rest) output_path w) as [[r | e] w'] eqn:Hrun;
    [exact I |].
  right. exists method, e. split; [reflexivity |]. split; [exact Hrun | reflexivity].
Qed.

(** The operations of a run, read off the trace. *)
Ltac performed :=
  match goal with
  | |- exists ops, ?t = ops ++ ?base /\ _ =>
      let rec go tr :=
        match tr with
        | base => constr:(@nil Event)
        | ?e :: ?rest => let r := go rest in constr:(e :: r)
        end in
      let o := go t in
      exists o; split; [reflexivity |];
      repeat (apply List.Forall_cons; [simpl; auto |]); apply List.Forall_nil
  end.

Lemma redact_text_operations (file_path output_path : str)
      (suggestions : list Suggestion) (w : World) :
  exists ops,
    trace (snd (_redact_text file_path suggestions output_path w))
    = ops ++ trace w
    /\ List.Forall (OperationSpec.allowed file_path output_path) ops.
Proof.
  unfold _redact_text, read_text, write_text. io.
  destruct (files w !! file_path) as [[c | d | ps |] |]; simpl; try performed.
  destruct (failing_writes w output_path); simpl; performed.
Qed.

Lemma redact_docx_operations (file_path output_path : str)
      (suggestions : list Suggestion) (w : World) :
  exists ops,
    trace (snd (_redact_docx file_path suggestions output_path w))
    = ops ++ trace w
    /\ List.Forall (OperationSpec.allowed file_path output_path) ops.
Proof.
  unfold _redact_docx, docx_open, docx_save. io.
  destruct (files w !! file_path) as [[c | d | ps |] |]; simpl; try performed.
  destruct suggester_init; simpl; [| performed].
  destruct (failing_writes w output_path); simpl; performed.
Qed.

Lemma redact_pdf_operations (file_path output_path : str)
      (suggestions : list Suggestion) (w : World) :
  exists ops,
    trace (snd (_redact_pdf file_path suggestions output_path w))
    = ops ++ trace w
    /\ List.Forall (OperationSpec.allowed file_path output_path) ops.
Proof.
  unfold _redact_pdf, _verify_redaction, fitz_open, fitz_save, os_path_exists,
    os_remove. io.
  destruct (files w !! file_path) as [[c | d | ps |] |] eqn:Hin; simpl.
  1, 2, 4, 5:
    destruct (files w !! output_path) eqn:Hout; simpl; rewrite ?Hout; simpl;
    performed.
  destruct (failing_writes w output_path) eqn:Hfull; simpl.
  - rewrite !lookup_insert_eq. simpl. rewrite !lookup_insert_eq. simpl.
    performed.
  - rewrite lookup_insert_eq. simpl. performed.
Qed.

(** X2: whether it returns or raises, and for every format,
    [redact_document] performs file operations on the two paths it was
    given and on no other: it opens for reading the input path and, to
    verify a PDF, the output path; what it opens for writing, tests for
    existence or removes is the output path alone; and it never asks for a
    size. *)
Theorem redact_document_operations (file_path output_path : str)
        (suggestions : list Suggestion) (w : World) :
  exists ops,
    trace (snd (redact_document file_path suggestions output_path w))
    = ops ++ trace w
    /\ List.Forall (OperationSpec.allowed file_path output_path) ops.
Proof.
  unfold redact_document.
  destruct suggestions as [| s rest]; [exists []; split; [reflexivity | constructor] |].
  set (ext := replace (lower (snd (splitext file_path))) (py ".") []).
  unfold supported_formats. cbn [formats_get].
  repeat (case_bool_decide; [
    unfold try_except;
    first
      [ assert (Hf := redact_pdf_operations file_path output_path (s :: rest) w);
        destruct (_redact_pdf file_path (s :: rest) output_path w) as [[r | e] w'];
        exact Hf
      | assert (Hf := redact_docx_operations file_path output_path (s :: rest) w);
        destruct (_redact_docx file_path (s :: rest) output_path w) as [[r | e] w'];
        exact Hf
      | assert (Hf := redact_text_operations file_path output_path (s :: rest) w);
        destruct (_redact_text file_path (s :: rest) output_path w) as [[r | e] w'];
        exact Hf ] |]).
  exists []. split; [reflexivity | constructor].
Qed.

End EntryPointMore.

(** ** Formats the handler accepts and the engine refuses *)

Section HandlerAndEngine.
Context `{Fitz} `{Unicode} `{Mimetypes} `{Suggester}.

Lemma validate_file_accepts (w : World) (file_path : str) (b : Body) (t : str) :
  files w !! file_path = Some b ->
  body_size b <= 100 * 1024 * 1024 ->
  FileHandler.get_file_type file_path = Some t ->
  fst (FileHandler.validate_file file_path w) = Ok true.
Proof.
  intros Hb Hsmall Ht. unfold FileHandler.validate_file.
  unfold bind at 1. rewrite exists_result, Hb.
  cbv beta iota. cbn [negb]. unfold bind.
  rewrite (getsize_result _ _ b) by exact Hb.
  rewrite (proj2 (within_limit (body_size b)) Hsmall). cbn [negb].
  unfold FileHandler.get_file_type in Ht.
  destruct (FileHandler.known_mime (guess_type file_path)); [reflexivity |].
  rewrite (extension_accepted _ _ _ Ht). reflexivity.
Qed.

(** X3: a file of at most 100 MiB whose lower-cased extension is [.rtf],
    [.doc] or [.text] passes [validate_file] and has a type for
    [get_file_type], yet [redact_document] refuses it with
    [ValueError("Unsupported file format: ...")] before any file
    operation: the engine dispatches on the extensions pdf, docx and txt
    alone. *)
Theorem accepted_by_handler_refused_by_engine
        (w : World) (file_path output_path ext : str) (b : Body)
        (s : Suggestion) (rest : list Suggestion) :
  files w !! file_path = Some b ->
  body_size b <= 100 * 1024 * 1024 ->
  lower (snd (splitext file_path)) = ext ->
  In ext [py ".rtf"; py ".doc"; py ".text"] ->
  fst (FileHandler.validate_file file_path w) = Ok true
  /\ (exists t, FileHandler.get_file_type file_path = Some t)
  /\ redact_document file_path (s :: rest) output_path w
     = (Raise (mkExn ValueError
                 (py "Unsupported file format: " ++ replace ext (py ".") [])),
        w).
Proof.
  intros Hb Hsmall Hext Hin.
  assert (Ht : exists t, FileHandler.get_file_type file_path = Some t).
  { unfold FileHandler.get_file_type.
    destruct (FileHandler.known_mime (guess_type file_path)) as [v |];
      [eexists; reflexivity |].
    rewrite Hext.
    destruct Hin as [<- | [<- | [<- | []]]]; eexists; vm_compute; reflexivity. }
  split; [| split; [exact Ht |]].
  - destruct Ht as [t Ht]. apply (validate_file_accepts w file_path b t); assumption.
  - unfold redact_document. rewrite Hext.
    assert (Hnone : formats_get (replace ext (py ".") []) supported_formats = None)
      by (destruct Hin as [<- | [<- | [<- | []]]]; vm_compute; reflexivity).
    rewrite Hnone. reflexivity.
Qed.

End HandlerAndEngine.

(** An RTF file on the disk. *)
Lemma accepted_by_handler_refused_by_engine_witness :
  let w := Samples.disk [(py "notes.RTF", TextFile (py "{\rtf1 call 555-0100}"))] [] in
  fst (FileHandler.validate_file (py "notes.RTF") w) = Ok true
  /\ (exists t, FileHandler.get_file_type (py "notes.RTF") = Some t)
  /\ redact_document (py "notes.RTF") [Samples.request "555-0100"]
                     (py "out.rtf") w
     = (Raise (mkExn ValueError
                 (py "Unsupported file format: " ++ replace (py ".rtf") (py ".") [])),
        w).
Proof.
  intros w.
  apply (accepted_by_handler_refused_by_engine w (py "notes.RTF") (py "out.rtf")
           (py ".rtf") (TextFile (py "{\rtf1 call 555-0100}"))).
  - vm_compute. reflexivity.
  - vm_compute. discriminate.
  - vm_compute. reflexivity.
  - left. reflexivity.
Defined.

(** ** The outcomes of the PDF applier *)

Section PdfOutcomes.
Context `{Fitz} `{Unicode} `{Suggester}.

(** X4: every call of [_redact_pdf] ends in one of three ways.  It returns
    the output path, and then the saved file has been reopened and its text
    contains none of the texts; or it returns [None], and then the saved
    file, whose text still contains one of the texts, is left at the output
    path; or it raises [RuntimeError], and then no file is left at the
    output path, not even one that was there before the call. *)
Theorem redact_pdf_outcomes (file_path output_path : str)
        (suggestions : list Suggestion) (w : World) :
  match _redact_pdf file_path suggestions output_path w with
  | (Ok (Some p), w') =>
      p = output_path
      /\ exists pages,
          files w' !! output_path = Some (PdfFile pages)
          /\ survives (join (py " ") (map get_text pages)) suggestions = false
  | (Ok None, w') =>
      exists pages,
        files w' !! output_path = Some (PdfFile pages)
        /\ survives (join (py " ") (map get_text pages)) suggestions = true
  | (Raise e, w') =>
      exn_class e = RuntimeError /\ files w' !! output_path = None
  end.
Proof.
  unfold _redact_pdf, _verify_redaction, fitz_open, fitz_save, os_path_exists,
    os_remove, survives. io.
  destruct (files w !! file_path) as [[c | d | ps |] |] eqn:Hin; simpl.
  1, 2, 4, 5:
    destruct (files w !! output_path) eqn:Hout; simpl; rewrite ?Hout; simpl;
    (split; [reflexivity |]);
    first [apply lookup_delete_eq | exact Hout | reflexivity].
  destruct (failing_writes w output_path) eqn:Hfull; simpl.
  - rewrite !lookup_insert_eq. simpl. rewrite !lookup_insert_eq. simpl.
    split; [reflexivity | apply lookup_delete_eq].
  - rewrite lookup_insert_eq. simpl.
    destruct (existsb _ suggestions) eqn:Hs; simpl.
    + eexists. rewrite lookup_insert_eq. split; [reflexivity | exact Hs].
    + split; [reflexivity |]. eexists. rewrite lookup_insert_eq.
      split; [reflexivity | exact Hs].
Qed.

End PdfOutcomes.

(** ** Substring search, step by step *)

Section Containment.

Lemma find_at_shift (s t : str) :
  forall i j, 0 <= i -> 0 <= j ->
    (find_at s t i =? -1) = (find_at s t j =? -1).
Proof.
  induction s as [| c s IH]; intros i j Hi Hj; cbn [find_at].
  - destruct (startswith [] t); [| reflexivity].
    destruct (Z.eqb_spec i (-1)), (Z.eqb_spec j (-1)); try lia; reflexivity.
  - destruct (startswith (c :: s) t).
    + destruct (Z.eqb_spec i (-1)), (Z.eqb_spec j (-1)); try lia; reflexivity.
    + apply IH; lia.
Qed.

Lemma find_from_zero (s t : str) : find s t 0 = find_at s t 0.
Proof.
  unfold find, clamp, len.
  destruct (Z.ltb_spec (Z.of_nat (length s)) 0); [lia |].
  simpl. rewrite Z.min_l by lia. reflexivity.
Qed.

(** [t in s]: [t] starts [s], or [t] is in the rest of [s]. *)
Lemma contains_cons (c : char) (s t : str) :
  contains (c :: s) t = startswith (c :: s) t || contains s t.
Proof.
  unfold contains. rewrite !find_from_zero. cbn [find_at].
  destruct (startswith (c :: s) t); [reflexivity |].
  rewrite (find_at_shift s t (0 + 1) 0) by lia. reflexivity.
Qed.

Lemma contains_nil (t : str) : contains [] t = startswith [] t.
Proof.
  unfold contains. rewrite find_from_zero. cbn [find_at].
  destruct (startswith [] t); reflexivity.
Qed.

Lemma startswith_nil (s : str) : startswith s [] = true.
Proof. destruct s; reflexivity. Qed.

Lemma contains_empty (s : str) : contains s [] = true.
Proof.
  destruct s; [reflexivity |]. rewrite contains_cons, startswith_nil. reflexivity.
Qed.

Lemma contains_skipn (k : nat) (s t : str) :
  contains (skipn k s) t = true -> contains s t = true.
Proof.
  revert s. induction k as [| k IH]; intros [| c s]; simpl; auto.
  intros Hc. rewrite contains_cons. apply IH in Hc. rewrite Hc.
  apply orb_true_r.
Qed.

Lemma find_at_absent (t : str) :
  forall (s : str) (i : Z),
    0 <= i -> find_at s t i = -1 -> Spec.occurrences_at s t i = [].
Proof.
  induction s as [| c s IH]; intros i Hi; cbn [find_at Spec.occurrences_at].
  - destruct (startswith [] t); [lia | reflexivity].
  - destruct (startswith (c :: s) t); [lia |].
    intros Hf. apply IH; [lia | exact Hf].
Qed.

(** A text that is nowhere in the content has no occurrence. *)
Lemma absent_no_occurrence (content t : str) :
  contains content t = false -> Spec.occurrences content t = [].
Proof.
  rewrite occurrences_from_start. unfold contains. rewrite find_from_zero.
  rewrite negb_false_iff, Z.eqb_eq. apply find_at_absent. lia.
Qed.

End Containment.

(** ** Replacement by filler *)

Section Replacement.

Lemma replace_from_skip (old new : str) :
  forall (s : str) (k : nat),
    replace_from s old new k = replace_from (skipn k s) old new 0.
Proof.
  induction s as [| c s IH]; intros [| k]; try reflexivity.
  cbn [replace_from skipn]. apply IH.
Qed.

(** The filler that takes the place of a non-empty text. *)
Lemma filler_block (t : str) :
  t <> [] ->
  (exists new', times FILLER (len t) = 226%N :: new')
  /\ forall c, In c (times FILLER (len t)) -> In c FILLER.
Proof.
  intros Ht. unfold times, len. rewrite Nat2Z.id. split.
  - destruct t as [| x t]; [congruence |]. simpl. eexists. reflexivity.
  - intros c Hc. apply in_concat in Hc. destruct Hc as (blk & Hblk & Hc).
    apply repeat_spec in Hblk. subst blk. exact Hc.
Qed.

Section Blocks.
Variables old new new' : str.
Variable f : char.
Hypothesis Hnew : new = f :: new'.
Hypothesis Hfill : forall c, In c new -> In c FILLER.

Lemma head_is_filler : In f FILLER.
Proof using Hnew Hfill. apply Hfill. rewrite Hnew. left. reflexivity. Qed.

(** A filler-free text that starts the rewritten string started the
    original. *)
Lemma replaced_prefix (u : str) :
  DocxSpec.filler_free u ->
  forall s, startswith (replace_from s old new 0) u = true ->
            startswith s u = true.
Proof using Hnew Hfill.
  revert u. intros u Hu s. revert u Hu.
  induction s as [| c s IH]; intros u Hu; [simpl; auto |].
  cbn [replace_from]. destruct (startswith (c :: s) old).
  - rewrite Hnew. destruct u as [| d u]; [reflexivity |].
    cbn [app startswith]. intros Hs. apply andb_prop in Hs.
    destruct Hs as [Hd _]. apply N.eqb_eq in Hd. subst d.
    exfalso. apply (Hu f); [left; reflexivity | apply head_is_filler].
  - destruct u as [| d u]; [reflexivity |].
    cbn [startswith]. intros Hs. apply andb_prop in Hs.
    destruct Hs as [Hd Hs]. rewrite Hd. simpl.
    apply IH; [| exact Hs].
    intros x Hx. apply Hu. right. exact Hx.
Qed.

(** A removable text found after a run of filler is found behind it. *)
Lemma contains_after_filler (a b t : str) :
  (forall c, In c a -> In c FILLER) ->
  DocxSpec.removable t ->
  contains (a ++ b) t = true -> contains b t = true.
Proof.
  intros Ha [Hne Hfree]. induction a as [| x a IH]; [auto |].
  cbn [app]. rewrite contains_cons. intros Hc.
  apply orb_prop in Hc. destruct Hc as [Hs | Hc].
  - destruct t as [| d t]; [congruence |]. cbn [startswith] in Hs.
    apply andb_prop in Hs. destruct Hs as [Hd _]. apply N.eqb_eq in Hd.
    subst d. exfalso. apply (Hfree x); [left; reflexivity |].
    apply Ha. left. reflexivity.
  - apply IH; [| exact Hc]. intros c Hin. apply Ha. right. exact Hin.
Qed.

(** The rewriting creates no occurrence of a removable text. *)
Lemma replace_creates_nothing (t : str) :
  DocxSpec.removable t ->
  forall (n : nat) (s : str),
    (length s <= n)%nat ->
    contains (replace_from s old new 0) t = true -> contains s t = true.
Proof using Hnew Hfill.
  intros Ht. induction n as [| n IH]; intros s Hlen.
  - destruct s; [auto | simpl in Hlen; lia].
  - destruct s as [| c s]; [auto |]. simpl in Hlen.
    cbn [replace_from]. destruct (startswith (c :: s) old).
    + rewrite replace_from_skip. intros Hc.
      apply contains_after_filler in Hc; [| exact Hfill | exact Ht].
      apply IH in Hc; [| rewrite length_skipn; lia].
      rewrite contains_cons. apply contains_skipn in Hc. rewrite Hc.
      apply orb_true_r.
    + rewrite !contains_cons. intros Hc. apply orb_prop in Hc.
      destruct Hc as [Hs | Hc].
      * destruct Ht as [Hne Hfree]. destruct t as [| d t]; [congruence |].
        cbn [startswith] in Hs |- *. apply andb_prop in Hs.
        destruct Hs as [Hd Hs]. rewrite Hd. simpl.
        rewrite (replaced_prefix t); [reflexivity | | exact Hs].
        intros x Hx. apply Hfree. right. exact Hx.
      * rewrite (IH s); [apply orb_true_r | lia | exact Hc].
Qed.

End Blocks.

(** The rewriting of a removable text leaves no occurrence of it. *)
Lemma replace_removes (t new new' : str) (f : char) :
  new = f :: new' ->
  (forall c, In c new -> In c FILLER) ->
  DocxSpec.removable t ->
  forall (n : nat) (s : str),
    (length s <= n)%nat ->
    contains (replace_from s t new 0) t = false.
Proof.
  intros Hnew Hfill Ht. induction n as [| n IH]; intros s Hlen.
  - destruct s; [| simpl in Hlen; lia]. simpl. rewrite contains_nil.
    destruct Ht as [Hne _]. destruct t; [congruence | reflexivity].
  - destruct s as [| c s].
    + simpl. rewrite contains_nil.
      destruct Ht as [Hne _]. destruct t; [congruence | reflexivity].
    + simpl in Hlen. cbn [replace_from].
      destruct (startswith (c :: s) t) eqn:Hsw.
      * rewrite replace_from_skip.
        destruct (contains (new ++ _) t) eqn:Hc; [| reflexivity].
        apply contains_after_filler in Hc; [| exact Hfill | exact Ht].
        rewrite IH in Hc; [discriminate | rewrite length_skipn; lia].
      * rewrite contains_cons, (IH s) by lia. rewrite orb_false_r.
        destruct (startswith (c :: replace_from s t new 0) t) eqn:Hs;
          [| reflexivity].
        destruct Ht as [Hne Hfree]. destruct t as [| d t]; [congruence |].
        cbn [startswith] in Hs, Hsw. apply andb_prop in Hs.
        destruct Hs as [Hd Hs]. rewrite Hd in Hsw. simpl in Hsw.
        rewrite (replaced_prefix (d :: t) new new' f Hnew Hfill t) in Hsw;
          [discriminate | | exact Hs].
        intros x Hx. apply Hfree. right. exact Hx.
Qed.

End Replacement.

(** ** Completeness of the DOCX applier *)

Section DocxCompleteness.
Context `{Fitz} `{Unicode} `{Suggester}.

Lemma replace_empty (s : str) : replace s [] [] = s.
Proof.
  unfold replace. simpl. induction s as [| c s IH]; simpl; [| rewrite IH];
    reflexivity.
Qed.

(** A paragraph without hyperlinks stays one. *)
Lemma redact_paragraph_plain (t : str) (p : Paragraph) :
  DocxSpec.no_hyperlink p -> DocxSpec.no_hyperlink (redact_paragraph t p).
Proof.
  intros Hp. unfold redact_paragraph.
  destruct (contains (paragraph_text p) t); [| exact Hp].
  unfold DocxSpec.no_hyperlink in *. cbn [inlines].
  rewrite forallb_app. cbn [forallb is_run]. rewrite andb_true_r.
  induction (inlines p) as [| i l IH]; [reflexivity |].
  cbn [map forallb] in *. apply andb_prop in Hp. destruct Hp as [Hi Hl].
  rewrite (IH Hl), andb_true_r. destruct i; [reflexivity | discriminate].
Qed.

(** The text of a paragraph without hyperlinks after [redact_paragraph]. *)
Lemma redact_paragraph_text (t : str) (p : Paragraph) :
  DocxSpec.no_hyperlink p ->
  paragraph_text (redact_paragraph t p)
  = if contains (paragraph_text p) t
    then replace (paragraph_text p) t (times FILLER (len t))
    else paragraph_text p.
Proof.
  intros Hp. unfold redact_paragraph. destruct (contains (paragraph_text p) t);
    [| reflexivity].
  unfold paragraph_text at 1. cbn [inlines].
  rewrite (plain_inlines p Hp), clear_inline_runs, map_app, concat_app, map_map.
  change (map (fun x => inline_text (InlineRun x)) (cleared (runs p)))
    with (map run_text (cleared (runs p))).
  rewrite cleared_text. simpl. apply app_nil_r.
Qed.

Lemma redact_paragraph_removes (t : str) (p : Paragraph) :
  DocxSpec.no_hyperlink p ->
  DocxSpec.removable t ->
  contains (paragraph_text (redact_paragraph t p)) t = false.
Proof.
  intros Hp Ht. rewrite (redact_paragraph_text t p Hp).
  destruct (contains (paragraph_text p) t) eqn:Hc; [| exact Hc].
  destruct (filler_block t (proj1 Ht)) as [[new' Hnew] Hfill].
  assert (Hr : replace (paragraph_text p) t (times FILLER (len t))
               = replace_from (paragraph_text p) t (times FILLER (len t)) 0)
    by (destruct Ht as [Hne _]; destruct t; [congruence | reflexivity]).
  rewrite Hr.
  apply (replace_removes t _ new' 226%N Hnew Hfill Ht
           (length (paragraph_text p))). lia.
Qed.

Lemma redact_paragraph_preserves (t1 t2 : str) (p : Paragraph) :
  DocxSpec.no_hyperlink p ->
  DocxSpec.removable t1 ->
  contains (paragraph_text p) t1 = false ->
  contains (paragraph_text (redact_paragraph t2 p)) t1 = false.
Proof.
  intros Hp Ht1 Hclean. rewrite (redact_paragraph_text t2 p Hp).
  destruct (contains (paragraph_text p) t2); [| exact Hclean].
  destruct t2 as [| d t2].
  - change (times FILLER (len [])) with (@nil char). rewrite replace_empty.
    exact Hclean.
  - destruct (filler_block (d :: t2) ltac:(discriminate)) as [[new' Hnew] Hfill].
    change (replace (paragraph_text p) (d :: t2) ?n)
      with (replace_from (paragraph_text p) (d :: t2) n 0).
    destruct (contains (replace_from _ _ _ 0) t1) eqn:Hc; [| reflexivity].
    apply (replace_creates_nothing (d :: t2) _ new' 226%N Hnew Hfill t1 Ht1
             (length (paragraph_text p))) in Hc; [congruence | lia].
Qed.

Lemma redact_paragraphs_step_plain (t : str) (doc : Document) :
  DocxSpec.plain doc -> DocxSpec.plain (map (redact_paragraph t) doc).
Proof.
  intros Hdoc p Hp. apply in_map_iff in Hp. destruct Hp as (p0 & <- & Hp0).
  apply redact_paragraph_plain, Hdoc, Hp0.
Qed.

Lemma redact_paragraphs_preserve (t : str) (suggestions : list Suggestion) :
  DocxSpec.removable t ->
  forall doc, DocxSpec.plain doc -> DocxSpec.clean t doc ->
              DocxSpec.clean t (redact_paragraphs doc suggestions).
Proof.
  intros Ht. unfold redact_paragraphs.
  induction suggestions as [| s rest IH]; intros doc Hplain Hclean;
    [exact Hclean |].
  cbn [fold_left]. apply IH; [apply redact_paragraphs_step_plain, Hplain |].
  intros p Hp. apply in_map_iff in Hp.
  destruct Hp as (p0 & <- & Hp0).
  apply redact_paragraph_preserves;
    [apply Hplain, Hp0 | exact Ht | apply Hclean, Hp0].
Qed.

Lemma redact_paragraphs_length (suggestions : list Suggestion) :
  forall doc, length (redact_paragraphs doc suggestions) = length doc.
Proof.
  unfold redact_paragraphs.
  induction suggestions as [| s rest IH]; intros doc; [reflexivity |].
  cbn [fold_left]. rewrite IH. apply length_map.
Qed.

Lemma redact_paragraphs_clean (suggestions : list Suggestion) :
  (forall s, In s suggestions -> DocxSpec.removable (text s)) ->
  forall doc s, DocxSpec.plain doc -> In s suggestions ->
                DocxSpec.clean (text s) (redact_paragraphs doc suggestions).
Proof.
  induction suggestions as [| s rest IH]; intros Hall doc s' Hplain Hs';
    [destruct Hs' |].
  change (redact_paragraphs doc (s :: rest))
    with (redact_paragraphs (map (redact_paragraph (text s)) doc) rest).
  destruct Hs' as [<- | Hs'].
  - apply redact_paragraphs_preserve;
      [apply Hall; left; reflexivity
      | apply redact_paragraphs_step_plain, Hplain |].
    intros p Hp. apply in_map_iff in Hp. destruct Hp as (p0 & <- & Hp0).
    apply redact_paragraph_removes; [apply Hplain, Hp0 |].
    apply Hall. left. reflexivity.
  - apply IH; [| apply redact_paragraphs_step_plain, Hplain | exact Hs'].
    intros s0 Hs0. apply Hall. right. exact Hs0.
Qed.

(** X5: for a document whose paragraphs have no hyperlinks, when every
    accepted text is non-empty and has none of the three code points of
    the filler, then, however the texts overlap or contain one another,
    after the rewriting of lines 413-432 no paragraph of the document
    contains any accepted text, and the document still has as many
    paragraphs as before. *)
Theorem redact_paragraphs_complete (doc : Document) (suggestions : list Suggestion) :
  DocxSpec.plain doc ->
  (forall s, In s suggestions -> DocxSpec.removable (text s)) ->
  (forall s, In s suggestions ->
             DocxSpec.clean (text s) (redact_paragraphs doc suggestions))
  /\ length (redact_paragraphs doc suggestions) = length doc.
Proof.
  intros Hplain Hall. split; [| apply redact_paragraphs_length].
  intros s Hs. apply redact_paragraphs_clean; assumption.
Qed.

(** A text without a line feed that is in the joined paragraphs is in one
    of them. *)
Lemma startswith_before_feed (a b t : str) :
  ~ In DocxSpec.LF t ->
  startswith (a ++ DocxSpec.LF :: b) t = true -> startswith a t = true.
Proof.
  revert t. induction a as [| x a IH]; intros [| d t] Hlf; try reflexivity.
  - cbn [app startswith]. intros Hs. apply andb_prop in Hs.
    destruct Hs as [Hd _]. apply N.eqb_eq in Hd. subst d.
    exfalso. apply Hlf. left. reflexivity.
  - cbn [app startswith]. intros Hs. apply andb_prop in Hs.
    destruct Hs as [Hd Hs]. rewrite Hd. simpl. apply IH; [| exact Hs].
    intros Hin. apply Hlf. right. exact Hin.
Qed.

Lemma contains_across_feed (a b t : str) :
  t <> [] -> ~ In DocxSpec.LF t ->
  contains (a ++ DocxSpec.LF :: b) t = true ->
  contains a t = true \/ contains b t = true.
Proof.
  intros Hne Hlf. induction a as [| x a IH]; cbn [app]; rewrite contains_cons;
    intros Hc; apply orb_prop in Hc; destruct Hc as [Hs | Hc].
  - destruct t as [| d t]; [congruence |]. cbn [startswith] in Hs.
    apply andb_prop in Hs. destruct Hs as [Hd _]. apply N.eqb_eq in Hd.
    subst d. exfalso. apply Hlf. left. reflexivity.
  - right. exact Hc.
  - left. rewrite contains_cons.
    rewrite (startswith_before_feed (x :: a) b t Hlf Hs). reflexivity.
  - destruct (IH Hc) as [Ha | Hb]; [left | right; exact Hb].
    rewrite contains_cons, Ha. apply orb_true_r.
Qed.

Lemma join_clean (t : str) (parts : list str) :
  t <> [] -> ~ In DocxSpec.LF t ->
  (forall part, In part parts -> contains part t = false) ->
  contains (join [DocxSpec.LF] parts) t = false.
Proof.
  intros Hne Hlf. induction parts as [| p rest IH]; intros Hall.
  - simpl. rewrite contains_nil. destruct t; [congruence | reflexivity].
  - destruct rest as [| q rest]; [apply Hall; left; reflexivity |].
    change (join [DocxSpec.LF] (p :: q :: rest))
      with (p ++ DocxSpec.LF :: join [DocxSpec.LF] (q :: rest)).
    destruct (contains (p ++ _) t) eqn:Hc; [| reflexivity].
    apply contains_across_feed in Hc; [| exact Hne | exact Hlf].
    destruct Hc as [Hp | Hr].
    + rewrite Hall in Hp; [discriminate | left; reflexivity].
    + rewrite IH in Hr; [discriminate |].
      intros part Hpart. apply Hall. right. exact Hpart.
Qed.

(** X6: for a DOCX document that can be read, whose paragraphs have no
    hyperlinks, and an output that can be written, when every accepted text
    is non-empty, has no code point of the filler and no line feed,
    [_redact_docx] returns the output path and the text then re-extracted
    from the output by [_extract_docx_text] contains none of the accepted
    texts: the check of [_verify_redaction], were it run on that text,
    would pass. *)
Theorem redact_docx_verifiable (w : World) (file_path output_path : str)
        (doc : Document) (suggestions : list Suggestion) :
  files w !! file_path = Some (DocxFile doc) ->
  DocxSpec.plain doc ->
  suggester_init = Ok tt ->
  failing_writes w output_path = false ->
  (forall s, In s suggestions ->
             DocxSpec.removable (text s) /\ ~ In DocxSpec.LF (text s)) ->
  let run := _redact_docx file_path suggestions output_path w in
  fst run = Ok (Some output_path)
  /\ exists extracted,
      fst (FileHandler._extract_docx_text output_path (snd run)) = Ok extracted
      /\ survives extracted suggestions = false.
Proof.
  intros Hin Hplain Hs Hout Hall run. subst run.
  rewrite (redact_docx_ok w _ _ doc suggestions Hin Hs Hout).
  split; [reflexivity |].
  exists (join [DocxSpec.LF] (map paragraph_text (redact_paragraphs doc suggestions))).
  split.
  - unfold FileHandler._extract_docx_text, docx_open. io.
    rewrite lookup_insert_eq. reflexivity.
  - unfold survives.
    destruct (existsb _ suggestions) eqn:He; [| reflexivity].
    apply existsb_exists in He. destruct He as (s & Hsin & Hc).
    destruct (Hall s Hsin) as [Hrem Hlf].
    rewrite join_clean in Hc; [discriminate | exact (proj1 Hrem) | exact Hlf |].
    intros part Hpart. apply in_map_iff in Hpart.
    destruct Hpart as (p & <- & Hp).
    apply (redact_paragraphs_clean suggestions
             (fun s0 H0 => proj1 (Hall s0 H0)) doc s Hplain Hsin p Hp).
Qed.

End DocxCompleteness.

Ltac removable_text :=
  split; [vm_compute; discriminate
         | intros c Hc Hf; vm_compute in Hc; vm_compute in Hf;
           intuition congruence].

(** The letter with the requests "Jane" and "Roe lives". *)
Lemma redact_paragraphs_complete_witness :
  let suggestions := [Samples.request "Jane"; Samples.request "Roe lives"] in
  (forall s, In s suggestions ->
             DocxSpec.clean (text s) (redact_paragraphs Samples.letter suggestions))
  /\ length (redact_paragraphs Samples.letter suggestions)
     = length Samples.letter.
Proof.
  intros suggestions.
  apply (redact_paragraphs_complete Samples.letter suggestions).
  - intros p [<- | [<- | []]]; reflexivity.
  - intros s [<- | [<- | []]]; removable_text.
Defined.

Lemma redact_docx_verifiable_witness :
  let w := Samples.disk [(py "letter.docx", DocxFile Samples.letter)] [] in
  let suggestions := [Samples.request "Jane"; Samples.request "Roe lives"] in
  let run := _redact_docx (py "letter.docx") suggestions (py "out.docx") w in
  fst run = Ok (Some (py "out.docx"))
  /\ exists extracted,
      fst (FileHandler._extract_docx_text (py "out.docx") (snd run)) = Ok extracted
      /\ survives extracted suggestions = false.
Proof.
  intros w suggestions.
  apply (redact_docx_verifiable w (py "letter.docx") (py "out.docx")
           Samples.letter suggestions).
  - vm_compute. reflexivity.
  - intros p [<- | [<- | []]]; reflexivity.
  - reflexivity.
  - reflexivity.
  - intros s [<- | [<- | []]]; (split; [removable_text |]);
      intros Hlf; vm_compute in Hlf; intuition congruence.
Defined.

(** ** Accepted texts that do not occur *)

Section Absent.
Context `{Fitz} `{Unicode} `{Suggester}.

Lemma redacted_content_absent (content : str) (suggestions : list Suggestion) :
  (forall s, In s suggestions -> contains content (text s) = false) ->
  redacted_content content suggestions = content.
Proof.
  intros Habs. unfold redacted_content. rewrite collect_redactions_spec.
  assert (Hnone : flat_map
                    (fun s => map (Spec.span_of (text s))
                                  (Spec.occurrences content (text s)))
                    (sort_suggestions suggestions) = []).
  { assert (Hin : forall s, In s (sort_suggestions suggestions) ->
                            In s suggestions)
      by (intros s; apply Permutation_in, sort_by_perm).
    induction (sort_suggestions suggestions) as [| s rest IH]; [reflexivity |].
    cbn [flat_map].
    rewrite (absent_no_occurrence content (text s))
      by (apply Habs, Hin; left; reflexivity).
    apply IH. intros s0 Hs0. apply Hin. right. exact Hs0. }
  rewrite Hnone. reflexivity.
Qed.

(** Text without a carriage return is read as it is stored. *)
Lemma universal_newlines_plain (stored : str) :
  ~ In 13%N stored -> universal_newlines stored = stored.
Proof.
  induction stored as [| c rest IH]; intros Hcr; [reflexivity |].
  cbn [universal_newlines].
  destruct (N.eqb_spec c 13) as [-> | Hc]; [exfalso; apply Hcr; left; reflexivity |].
  rewrite IH; [reflexivity |]. intros Hin. apply Hcr. right. exact Hin.
Qed.

(** X7: when no accepted text occurs in the text read from a document,
    [_redact_text] returns the output path and writes there the text it
    read: the stored characters with every carriage return, and the line
    feed after it if there is one, turned into one line feed.  The output
    has exactly the content of the input when the input has no carriage
    return; a file with CRLF line ends comes out with LF line ends. *)
Theorem redact_text_absent (w : World) (file_path output_path content : str)
        (suggestions : list Suggestion) :
  files w !! file_path = Some (TextFile content) ->
  failing_writes w output_path = false ->
  (forall s, In s suggestions ->
             contains (universal_newlines content) (text s) = false) ->
  let after := snd (_redact_text file_path suggestions output_path w) in
  fst (_redact_text file_path suggestions output_path w) = Ok (Some output_path)
  /\ files after !! output_path = Some (TextFile (universal_newlines content))
  /\ (~ In 13%N content -> files after !! output_path = Some (TextFile content)).
Proof.
  intros Hin Hout Habs after. subst after.
  rewrite (redact_text_ok w _ _ content suggestions Hin Hout).
  rewrite (redacted_content_absent _ suggestions Habs).
  cbn [fst snd files].
  split; [reflexivity |]. split; [apply lookup_insert_eq |].
  intros Hcr. rewrite lookup_insert_eq, (universal_newlines_plain _ Hcr).
  reflexivity.
Qed.

Lemma redact_paragraph_absent (t : str) (p : Paragraph) :
  contains (paragraph_text p) t = false -> redact_paragraph t p = p.
Proof. intros Hc. unfold redact_paragraph. rewrite Hc. reflexivity. Qed.

(** X8: when no paragraph of a DOCX document contains an accepted text,
    [_redact_docx] returns the output path and saves the document with
    every paragraph, and every run of it, as it was. *)
Theorem redact_docx_absent (w : World) (file_path output_path : str)
        (doc : Document) (suggestions : list Suggestion) :
  files w !! file_path = Some (DocxFile doc) ->
  suggester_init = Ok tt ->
  failing_writes w output_path = false ->
  (forall s p, In s suggestions -> In p doc ->
               contains (paragraph_text p) (text s) = false) ->
  fst (_redact_docx file_path suggestions output_path w) = Ok (Some output_path)
  /\ files (snd (_redact_docx file_path suggestions output_path w)) !! output_path
     = Some (DocxFile doc).
Proof.
  intros Hin Hs Hout Habs.
  rewrite (redact_docx_ok w _ _ doc suggestions Hin Hs Hout).
  assert (Hsame : redact_paragraphs doc suggestions = doc).
  { unfold redact_paragraphs.
    induction suggestions as [| s rest IH]; [reflexivity |].
    cbn [fold_left].
    assert (Hmap : map (redact_paragraph (text s)) doc = doc).
    { rewrite <- (map_id doc) at 2. apply map_ext_in. intros p Hp.
      apply redact_paragraph_absent, Habs; [left; reflexivity | exact Hp]. }
    rewrite Hmap. apply IH. intros s0 p Hs0 Hp. apply Habs; [right |]; assumption. }
  rewrite Hsame. split; [reflexivity | apply lookup_insert_eq].
Qed.

End Absent.

Lemma redact_text_absent_witness :
  let content := py "The RED team met" ++ [13%N; 10%N] ++ py "at noon" in
  let w := Samples.disk [(py "memo.txt", TextFile content)] [] in
  let suggestions := [Samples.request "blue"; Samples.request "red"] in
  let after := snd (_redact_text (py "memo.txt") suggestions (py "out.txt") w) in
  fst (_redact_text (py "memo.txt") suggestions (py "out.txt") w)
  = Ok (Some (py "out.txt"))
  /\ files after !! py "out.txt" = Some (TextFile (universal_newlines content))
  /\ (~ In 13%N content -> files after !! py "out.txt" = Some (TextFile content)).
Proof.
  intros content w suggestions.
  apply (redact_text_absent w (py "memo.txt") (py "out.txt") content suggestions).
  - vm_compute. reflexivity.
  - reflexivity.
  - intros s [<- | [<- | []]]; vm_compute; reflexivity.
Defined.

Lemma redact_docx_absent_witness :
  let w := Samples.disk [(py "letter.docx", DocxFile Samples.letter)] [] in
  let suggestions := [Samples.across_paragraphs; Samples.request "Smith"] in
  fst (_redact_docx (py "letter.docx") suggestions (py "out.docx") w)
  = Ok (Some (py "out.docx"))
  /\ files (snd (_redact_docx (py "letter.docx") suggestions (py "out.docx") w))
       !! py "out.docx"
     = Some (DocxFile Samples.letter).
Proof.
  intros w suggestions.
  apply (redact_docx_absent w (py "letter.docx") (py "out.docx")
           Samples.letter suggestions).
  - vm_compute. reflexivity.
  - reflexivity.
  - reflexivity.
  - intros s p [<- | [<- | []]] [<- | [<- | []]]; vm_compute; reflexivity.
Defined.

(** * Further properties of the file handler *)

Section HandlerSound.
Context `{Fitz} `{Unicode} `{Mimetypes}.

(** An extension among those [validate_file] lists has a type for
    [get_file_type]. *)
Lemma extension_has_type (ext : str) (m : list (str * (str * list str))) :
  FileHandler.str_in_list ext (flat_map (fun mime_info => snd (snd mime_info)) m)
  = true ->
  exists t, FileHandler.type_of_extension ext m = Some t.
Proof.
  induction m as [| [k [ft exts]] m IH]; simpl; [discriminate |].
  unfold FileHandler.str_in_list in *. rewrite existsb_app.
  destruct (existsb (FileHandler.str_eqb ext) exts); simpl.
  - intros _. exists ft. reflexivity.
  - exact IH.
Qed.

Lemma extension_without_type (ext : str) (m : list (str * (str * list str))) :
  FileHandler.str_in_list ext (flat_map (fun mime_info => snd (snd mime_info)) m)
  = false ->
  FileHandler.type_of_extension ext m = None.
Proof.
  induction m as [| [k [ft exts]] m IH]; simpl; [reflexivity |].
  unfold FileHandler.str_in_list in *. rewrite existsb_app.
  destruct (existsb (FileHandler.str_eqb ext) exts); simpl.
  - discriminate.
  - exact IH.
Qed.

Lemma getsize_missing (w : World) (p : str) :
  files w !! p = None ->
  os_path_getsize p w
  = (Raise (mkExn FileNotFoundError (no_such_file p)),
     mkWorld (files w) (failing_writes w) (EvGetsize p :: trace w)).
Proof.
  intros Hb. unfold os_path_getsize. io. rewrite Hb. reflexivity.
Qed.

(** What [validate_file] does, by the state of the disk. *)
Lemma validate_file_run (w : World) (file_path : str) :
  FileHandler.validate_file file_path w
  = match files w !! file_path with
    | None =>
        (Raise (mkExn FileNotFoundError (py "File does not exist")),
         mkWorld (files w) (failing_writes w) (EvExists file_path :: trace w))
    | Some b =>
        let w' := mkWorld (files w) (failing_writes w)
                          (EvGetsize file_path :: EvExists file_path :: trace w) in
        if Z.leb (body_size b) (100 * 1024 * 1024)
        then match FileHandler.get_file_type file_path with
             | Some _ => (Ok true, w')
             | None =>
                 (Raise (mkExn ValueError
                           (py "Unsupported file type: "
                            ++ lower (snd (splitext file_path)))), w')
             end
        else (Raise (mkExn ValueError (py "File exceeds 100MB limit")), w')
    end.
Proof.
  unfold FileHandler.validate_file.
  unfold bind at 1. rewrite exists_result.
  destruct (files w !! file_path) as [b |] eqn:Hb; [| reflexivity].
  cbv beta iota. cbn [negb]. unfold bind.
  rewrite (getsize_result _ _ b) by exact Hb.
  cbv zeta.
  destruct (Z.leb (body_size b) (100 * 1024 * 1024)) eqn:Hle.
  - apply Z.leb_le in Hle.
    rewrite (proj2 (within_limit (body_size b)) Hle). cbn [negb].
    unfold FileHandler.get_file_type.
    destruct (FileHandler.known_mime (guess_type file_path)); [reflexivity |].
    destruct (FileHandler.str_in_list _ _) eqn:Hin.
    + destruct (extension_has_type _ _ Hin) as [t ->]. reflexivity.
    + rewrite (extension_without_type _ _ Hin). reflexivity.
  - apply Z.leb_gt in Hle.
    destruct (Qle_bool _ _) eqn:Hq.
    + apply within_limit in Hq. lia.
    + reflexivity.
Qed.

(** X9: [validate_file] accepts exactly the files that exist, hold at
    most 100 MiB and have a type for [get_file_type]: it never returns
    [False], it raises [FileNotFoundError] for a missing file and
    [ValueError] for a file that is too large or of no known type, and it
    changes no file. *)
Theorem validate_file_sound (w : World) (file_path : str) :
  files (snd (FileHandler.validate_file file_path w)) = files w
  /\ match fst (FileHandler.validate_file file_path w) with
     | Ok answer =>
         answer = true
         /\ (exists b, files w !! file_path = Some b
                       /\ body_size b <= 100 * 1024 * 1024)
         /\ (exists t, FileHandler.get_file_type file_path = Some t)
     | Raise e =>
         (exn_class e = FileNotFoundError /\ files w !! file_path = None)
         \/ (exn_class e = ValueError
             /\ exists b, files w !! file_path = Some b
                          /\ (100 * 1024 * 1024 < body_size b
                              \/ FileHandler.get_file_type file_path = None))
     end.
Proof.
  rewrite validate_file_run.
  destruct (files w !! file_path) as [b |] eqn:Hb.
  - cbv zeta. destruct (Z.leb (body_size b) (100 * 1024 * 1024)) eqn:Hle.
    + apply Z.leb_le in Hle.
      destruct (FileHandler.get_file_type file_path) as [t |] eqn:Ht.
      * split; [reflexivity |]. simpl.
        split; [reflexivity |]. split; [exists b | exists t]; auto.
      * split; [reflexivity |]. simpl. right.
        split; [reflexivity |]. exists b. auto.
    + apply Z.leb_gt in Hle. split; [reflexivity |]. simpl. right.
      split; [reflexivity |]. exists b. split; [reflexivity | left; lia].
  - split; [reflexivity |]. simpl. left. auto.
Qed.

End HandlerSound.

Import MoreInstances.

Section Extracting.
Context `{Fitz} `{Unicode} `{Mimetypes} `{Pdfplumber}.

(** Each of the three extractors reads one file: its result is a function
    of the files on the disk, it changes none of them, and what it raises
    is a [RuntimeError]. *)
Lemma plain_text_reads (p : str) :
  exists (r : gmap str Body -> result str) (ev : list Event),
    (forall w, FileHandler._extract_plain_text p w
               = (r (files w),
                  mkWorld (files w) (failing_writes w) (ev ++ trace w)))
    /\ (forall fs e, r fs = Raise e -> exn_class e = RuntimeError).
Proof.
  exists (fun fs =>
            match fs !! p with
            | None =>
                Raise (mkExn RuntimeError
                         (py "Text file extraction failed: " ++ no_such_file p))
            | Some (TextFile c) => Ok (universal_newlines c)
            | Some _ =>
                Raise (mkExn RuntimeError
                         (py "Text file extraction failed: "
                          ++ py "'utf-8' codec can't decode byte"))
            end), [EvOpenRead p].
  split.
  - intros w. unfold FileHandler._extract_plain_text, read_text. io.
    destruct (files w !! p) as [[c | d | ps |] |]; reflexivity.
  - intros fs e. destruct (fs !! p) as [[c | d | ps |] |];
      intros Heq; inversion Heq; reflexivity.
Qed.

Lemma docx_text_reads (p : str) :
  exists (r : gmap str Body -> result str) (ev : list Event),
    (forall w, FileHandler._extract_docx_text p w
               = (r (files w),
                  mkWorld (files w) (failing_writes w) (ev ++ trace w)))
    /\ (forall fs e, r fs = Raise e -> exn_class e = RuntimeError).
Proof.
  exists (fun fs =>
            match fs !! p with
            | Some (DocxFile d) =>
                Ok (join (py (String (ascii_of_nat 10) EmptyString))
                         (map paragraph_text d))
            | _ =>
                Raise (mkExn RuntimeError
                         (py "DOCX text extraction failed: "
                          ++ (py "Package not found at '" ++ p ++ py "'")))
            end), [EvOpenRead p].
  split.
  - intros w. unfold FileHandler._extract_docx_text, docx_open. io.
    destruct (files w !! p) as [[c | d | ps |] |]; reflexivity.
  - intros fs e. destruct (fs !! p) as [[c | d | ps |] |];
      intros Heq; inversion Heq; reflexivity.
Qed.

Lemma pdf_text_reads (p : str) :
  exists (r : gmap str Body -> result str) (ev : list Event),
    (forall w, Extraction._extract_pdf_text p w
               = (r (files w),
                  mkWorld (files w) (failing_writes w) (ev ++ trace w)))
    /\ (forall fs e, r fs = Raise e -> exn_class e = RuntimeError).
Proof.
  exists (fun fs =>
            match fs !! p with
            | Some (PdfFile ps) =>
                Ok (join (py (String (ascii_of_nat 10) EmptyString))
                         (map Extraction.page_text_or_empty ps))
            | None =>
                Raise (mkExn RuntimeError
                         (py "PDF text extraction failed: " ++ no_such_file p))
            | Some _ =>
                Raise (mkExn RuntimeError
                         (py "PDF text extraction failed: "
                          ++ py "No /Root object! - Is this really a PDF?"))
            end), [EvOpenRead p].
  split.
  - intros w. unfold Extraction._extract_pdf_text, Extraction.plumber_open. io.
    destruct (files w !! p) as [[c | d | ps |] |]; reflexivity.
  - intros fs e. destruct (fs !! p) as [[c | d | ps |] |];
      intros Heq; inversion Heq; reflexivity.
Qed.

(** The dictionary of [extract_text] holds these three functions only. *)
Lemma extractor_reads (t : option str) (extractor : str -> IO str) (p : str) :
  Extraction.extractor_for t = Some extractor ->
  exists (r : gmap str Body -> result str) (ev : list Event),
    (forall w, extractor p w
               = (r (files w),
                  mkWorld (files w) (failing_writes w) (ev ++ trace w)))
    /\ (forall fs e, r fs = Raise e -> exn_class e = RuntimeError).
Proof.
  destruct t as [t |]; [| discriminate].
  unfold Extraction.extractor_for, Extraction.extractors.
  cbn [formats_get].
  repeat (destruct (bool_decide _);
          [intros Heq; injection Heq as <-;
           first [apply pdf_text_reads | apply docx_text_reads
                 | apply plain_text_reads] |]).
  discriminate.
Qed.

(** Every type [get_file_type] answers has an extractor. *)
Lemma known_mime_types (m : option str) (v : str * list str) :
  FileHandler.known_mime m = Some v ->
  In (fst v) [py "pdf"; py "docx"; py "txt"; py "rtf"].
Proof.
  destruct m as [[| c m] |]; [discriminate | | discriminate].
  unfold FileHandler.known_mime, FileHandler.MIME_TYPE_MAPPING.
  cbn [FileHandler.mapping_get].
  repeat (destruct (FileHandler.str_eqb _ _);
          [intros Heq; injection Heq as <-; simpl; tauto |]).
  discriminate.
Qed.

Lemma extension_types (ext t : str) :
  FileHandler.type_of_extension ext FileHandler.MIME_TYPE_MAPPING = Some t ->
  In t [py "pdf"; py "docx"; py "txt"; py "rtf"].
Proof.
  unfold FileHandler.MIME_TYPE_MAPPING. cbn [FileHandler.type_of_extension].
  repeat (destruct (FileHandler.str_in_list _ _);
          [intros Heq; injection Heq as <-; simpl; tauto |]).
  discriminate.
Qed.

Lemma type_has_extractor (p t : str) :
  FileHandler.get_file_type p = Some t ->
  exists extractor, Extraction.extractor_for (Some t) = Some extractor.
Proof.
  intros Ht.
  assert (Hin : In t [py "pdf"; py "docx"; py "txt"; py "rtf"]).
  { unfold FileHandler.get_file_type in Ht.
    destruct (FileHandler.known_mime (guess_type p)) as [v |] eqn:Hk.
    - injection Ht as <-. exact (known_mime_types _ _ Hk).
    - exact (extension_types _ _ Ht). }
  destruct Hin as [<- | [<- | [<- | [<- | []]]]]; eexists; vm_compute; reflexivity.
Qed.

(** X10: [extract_text] only reads: it changes no file, a second
    extraction gives the result of the first, and what it raises is either
    the [ValueError] of a path without a type, raised before any file
    operation, or a [RuntimeError] of the extractor of the type. *)
Theorem extract_text_reads_only (w : World) (file_path : str) :
  files (snd (Extraction.extract_text file_path w)) = files w
  /\ fst (Extraction.extract_text file_path
            (snd (Extraction.extract_text file_path w)))
     = fst (Extraction.extract_text file_path w)
  /\ match fst (Extraction.extract_text file_path w) with
     | Ok _ => FileHandler.get_file_type file_path <> None
     | Raise e =>
         (e = mkExn ValueError
                    (py "No text extractor available for file type: None")
          /\ FileHandler.get_file_type file_path = None
          /\ snd (Extraction.extract_text file_path w) = w)
         \/ (exn_class e = RuntimeError
             /\ FileHandler.get_file_type file_path <> None)
     end.
Proof.
  unfold Extraction.extract_text.
  destruct (FileHandler.get_file_type file_path) as [t |] eqn:Ht.
  - destruct (type_has_extractor _ _ Ht) as [extractor Hx]. rewrite Hx.
    destruct (extractor_reads _ _ file_path Hx) as (r & ev & Hrun & Hraise).
    rewrite !Hrun. cbn [fst snd files].
    split; [reflexivity |]. split; [reflexivity |].
    destruct (r (files w)) as [c | e] eqn:Hr.
    + discriminate.
    + right. split; [exact (Hraise _ _ Hr) | discriminate].
  - cbn [Extraction.extractor_for Extraction.show_type]. unfold raise.
    cbn [fst snd]. split; [reflexivity |]. split; [reflexivity |].
    left. auto.
Qed.

(** X11: a path [validate_file] accepts has an extractor: [extract_text]
    runs the extractor of its type, and fails with a [RuntimeError] only,
    never with the [ValueError] of a missing extractor. *)
Theorem validated_file_has_extractor (w : World) (file_path : str) :
  fst (FileHandler.validate_file file_path w) = Ok true ->
  exists extractor,
    Extraction.extractor_for (FileHandler.get_file_type file_path)
    = Some extractor
    /\ Extraction.extract_text file_path w = extractor file_path w
    /\ forall e, fst (Extraction.extract_text file_path w) = Raise e ->
                 exn_class e = RuntimeError.
Proof.
  intros Hvalid. rewrite validate_file_run in Hvalid.
  destruct (FileHandler.get_file_type file_path) as [t |] eqn:Ht.
  - destruct (type_has_extractor _ _ Ht) as [extractor Hx].
    exists extractor. unfold Extraction.extract_text. rewrite Ht, Hx.
    split; [reflexivity |]. split; [reflexivity |].
    destruct (extractor_reads _ _ file_path Hx) as (r & ev & Hrun & Hraise).
    rewrite Hrun. cbn [fst]. intros e He. exact (Hraise _ _ He).
  - destruct (files w !! file_path) as [b |]; [| discriminate].
    cbv zeta in Hvalid.
    destruct (Z.leb (body_size b) (100 * 1024 * 1024)); discriminate.
Qed.

End Extracting.

Lemma validated_file_has_extractor_witness :
  let w := Samples.disk [(py "notes.rtf", TextFile (py "{\rtf1 hello}"))] [] in
  exists extractor,
    Extraction.extractor_for (FileHandler.get_file_type (py "notes.rtf"))
    = Some extractor
    /\ Extraction.extract_text (py "notes.rtf") w = extractor (py "notes.rtf") w
    /\ forall e, fst (Extraction.extract_text (py "notes.rtf") w) = Raise e ->
                 exn_class e = RuntimeError.
Proof.
  intros w. apply (validated_file_has_extractor w (py "notes.rtf")).
  vm_compute. reflexivity.
Defined.

Section SavingTemp.
Context `{Fitz} `{Unicode} `{Mimetypes} `{TempFiles.Tempfile}.

(** The [except] block on a disk that holds the temporary file: the file
    goes, and the error is a [RuntimeError]. *)
Lemma discard_temp_removes (p : str) (e : Exn) (w : World) (b : Body) :
  files w !! p = Some b ->
  TempFiles.discard_temp p e w
  = (TempFiles.Raised
       (mkExn RuntimeError (py "Failed to save temporary file: " ++ exn_msg e)),
     mkWorld (delete p (files w)) (failing_writes w)
             (EvRemove p :: EvExists p :: trace w)).
Proof.
  intros Hb. unfold TempFiles.discard_temp, os_path_exists, os_remove. io.
  rewrite Hb. simpl. rewrite Hb. reflexivity.
Qed.

(** X12: on a disk where the name of the temporary file is free,
    [save_temp_file] returns that name exactly when the device takes the
    data, the upload holds at most 100 MiB and the name has a type; the
    file then holds the upload.  When it raises [RuntimeError] the
    temporary file is gone and the disk is as before.  When the device
    refuses the data inside [write], the [except] block reads [temp_path]
    before it is bound: the call ends with [UnboundLocalError] and the
    unfinished temporary file stays on the disk. *)
Theorem save_temp_file_outcomes (uploaded_file : TempFiles.UploadedFile)
        (w : World) :
  let name :=
    TempFiles.temp_name (files w)
      (lower (snd (splitext (TempFiles.upload_name uploaded_file)))) in
  let value := TempFiles.upload_value uploaded_file in
  files w !! name = None ->
  match TempFiles.save_temp_file uploaded_file w with
  | (TempFiles.Returned p, w') =>
      p = name
      /\ files w' = <[name := value]> (files w)
      /\ failing_writes w name = false
      /\ body_size value <= 100 * 1024 * 1024
      /\ exists t, FileHandler.get_file_type name = Some t
  | (TempFiles.Raised e, w') =>
      exn_class e = RuntimeError
      /\ files w' = files w
      /\ ((failing_writes w name = true /\ TempFiles.unbuffered value = false)
          \/ (failing_writes w name = false
              /\ (100 * 1024 * 1024 < body_size value
                  \/ FileHandler.get_file_type name = None)))
  | (TempFiles.UnboundLocalError v, w') =>
      v = py "temp_path"
      /\ files w' = <[name := Truncated]> (files w)
      /\ failing_writes w name = true
      /\ TempFiles.unbuffered value = true
  end.
Proof.
  intros name value Hfree. unfold TempFiles.save_temp_file.
  fold name. fold value. cbv zeta.
  destruct (failing_writes w name) eqn:Hfull.
  - destruct (TempFiles.unbuffered value) eqn:Hbuf.
    + simpl. auto.
    + rewrite (discard_temp_removes _ _ _ Truncated)
        by (cbn [files]; apply lookup_insert_eq).
      cbn [files]. split; [reflexivity |]. split; [| left; auto].
      apply delete_insert_id. exact Hfree.
  - rewrite validate_file_run. cbn [files failing_writes trace].
    rewrite insert_insert_eq, lookup_insert_eq. cbv zeta.
    destruct (Z.leb (body_size value) (100 * 1024 * 1024)) eqn:Hle.
    + apply Z.leb_le in Hle.
      destruct (FileHandler.get_file_type name) as [t |] eqn:Ht.
      * cbn [files]. split; [reflexivity |]. split; [reflexivity |].
        split; [reflexivity |]. split; [exact Hle | exists t; reflexivity].
      * rewrite (discard_temp_removes _ _ _ value)
          by (cbn [files]; apply lookup_insert_eq).
        cbn [files]. split; [reflexivity |].
        split; [apply delete_insert_id; exact Hfree |]. right. auto.
    + apply Z.leb_gt in Hle.
      rewrite (discard_temp_removes _ _ _ value)
        by (cbn [files]; apply lookup_insert_eq).
      cbn [files]. split; [reflexivity |].
      split; [apply delete_insert_id; exact Hfree |]. right.
      split; [reflexivity | left; lia].
Qed.

End SavingTemp.

Lemma save_temp_file_outcomes_witness :
  let w := Samples.disk [(py "a.txt", TextFile (py "hello"))]
                        [py "/tmp/tmpx.pdf"] in
  let uploaded_file :=
    TempFiles.mkUpload (py "Scan.PDF")
                       (PdfFile (repeat [(mkRect 0 0 1 1, py "x")] 2)) in
  let name :=
    TempFiles.temp_name (files w)
      (lower (snd (splitext (TempFiles.upload_name uploaded_file)))) in
  let value := TempFiles.upload_value uploaded_file in
  files w !! name = None
  /\ match TempFiles.save_temp_file uploaded_file w with
     | (TempFiles.Returned p, w') =>
         p = name
         /\ files w' = <[name := value]> (files w)
         /\ failing_writes w name = false
         /\ body_size value <= 100 * 1024 * 1024
         /\ exists t, FileHandler.get_file_type name = Some t
     | (TempFiles.Raised e, w') =>
         exn_class e = RuntimeError
         /\ files w' = files w
         /\ ((failing_writes w name = true /\ TempFiles.unbuffered value = false)
             \/ (failing_writes w name = false
                 /\ (100 * 1024 * 1024 < body_size value
                     \/ FileHandler.get_file_type name = None)))
     | (TempFiles.UnboundLocalError v, w') =>
         v = py "temp_path"
         /\ files w' = <[name := Truncated]> (files w)
         /\ failing_writes w name = true
         /\ TempFiles.unbuffered value = true
     end.
Proof.
  intros w uploaded_file name value.
  assert (Hfree : files w !! name = None) by (vm_compute; reflexivity).
  split; [exact Hfree |].
  exact (save_temp_file_outcomes uploaded_file w Hfree).
Defined.

(** * Further properties of the layout analysis *)

Import LayoutAnalysis AnalysisSpec.

(** ** The loop that groups sorted words

    [_identify_reading_zones] and [_extract_text_blocks] run the same
    loop: a word either closes the group in progress and opens a new one,
    or joins the group in progress. *)

Section Greedy.
Context {W G : Type}.
Variables (opens : W -> G) (extends : G -> W -> G) (breaks : G -> W -> bool).
Variable step : list G * option G -> W -> list G * option G.
Variables (of_words : list W -> G) (brk : list W -> W -> bool).

Hypothesis step_eq : forall st w,
  step st w
  = match snd st with
    | None => (fst st, Some (opens w))
    | Some current =>
        if breaks current w
        then (fst st ++ [current], Some (opens w))
        else (fst st, Some (extends current w))
    end.
Hypothesis open_ok : forall w, opens w = of_words [w].
Hypothesis extend_ok : forall l w,
  l <> [] -> extends (of_words l) w = of_words (l ++ [w]).
Hypothesis breaks_ok : forall l w,
  l <> [] -> breaks (of_words l) w = brk l w.

Lemma snoc_split {A} (l : list A) (x : A) (a : list A) (y : A) (b : list A) :
  l ++ [x] = a ++ y :: b ->
  (b = [] /\ l = a /\ x = y)
  \/ (exists b', b = b' ++ [x] /\ l = a ++ y :: b').
Proof.
  intros Heq. destruct (@exists_last _ (y :: b)) as (b0 & x0 & Hb);
    [discriminate |].
  rewrite Hb, app_assoc in Heq. apply app_inj_tail in Heq.
  destruct Heq as [Hl <-].
  destruct b as [| z b].
  - left. destruct b0 as [| z0 b0].
    + injection Hb as <-. rewrite app_nil_r in Hl. auto.
    + injection Hb as _ Hb. destruct b0; discriminate.
  - right. destruct (@exists_last _ (z :: b)) as (b1 & x1 & Hb1);
      [discriminate |].
    exists b1. rewrite Hb1 in Hb.
    change (y :: b1 ++ [x1]) with ((y :: b1) ++ [x1]) in Hb.
    apply app_inj_tail in Hb. destruct Hb as [<- <-].
    split; [exact Hb1 | exact Hl].
Qed.

(** The groups of a run of the loop, said of lists of words: none is
    empty; inside a group no word after the first breaks off from the
    words before it; and the first word of a group breaks off from the
    group before. *)
Lemma greedy_run (ws : list W) :
  forall (done : list (list W)) (current : list W),
    List.Forall (fun l => l <> []) (done ++ [current]) ->
    List.Forall (fun l => forall a w b, l = a ++ w :: b -> a <> [] ->
                                        brk a w = false) (done ++ [current]) ->
    (forall l g1 g2 r, done ++ [current] = l ++ g1 :: g2 :: r ->
                       exists w rest, g2 = w :: rest /\ brk g1 w = true) ->
    exists (done' : list (list W)) (current' : list W),
      fold_left step ws (map of_words done, Some (of_words current))
      = (map of_words done', Some (of_words current'))
      /\ concat (done' ++ [current']) = concat (done ++ [current]) ++ ws
      /\ List.Forall (fun l => l <> []) (done' ++ [current'])
      /\ List.Forall (fun l => forall a w b, l = a ++ w :: b -> a <> [] ->
                                             brk a w = false) (done' ++ [current'])
      /\ (forall l g1 g2 r, done' ++ [current'] = l ++ g1 :: g2 :: r ->
                            exists w rest, g2 = w :: rest /\ brk g1 w = true).
Proof.
  induction ws as [| w ws IH]; intros done current Hne Hknit Hapart.
  - exists done, current. rewrite app_nil_r. auto.
  - assert (Hcur : current <> []).
    { apply List.Forall_app in Hne. destruct Hne as [_ Hc].
      inversion Hc; assumption. }
    cbn [fold_left]. rewrite step_eq. cbn [fst snd].
    rewrite (breaks_ok _ _ Hcur).
    destruct (brk current w) eqn:Hb.
    + rewrite open_ok.
      change (map of_words done ++ [of_words current])
        with (map of_words done ++ map of_words [current]).
      rewrite <- map_app.
      destruct (IH (done ++ [current]) [w]) as (done' & current' & Hrun & Hcat & H1 & H2 & H3).
      * apply List.Forall_app. split; [exact Hne |].
        constructor; [discriminate | constructor].
      * apply List.Forall_app. split; [exact Hknit |].
        constructor; [| constructor].
        intros a w' b Heq Ha. destruct a as [| x a]; [congruence |].
        destruct a; discriminate.
      * intros l g1 g2 r Heq.
        assert (Heq' : (done ++ [current]) ++ [[w]] = (l ++ [g1]) ++ g2 :: r)
          by (rewrite <- (app_assoc l); exact Heq).
        destruct (snoc_split _ _ _ _ _ Heq') as [(-> & Hl & <-) | (r' & -> & Hl)].
        -- apply app_inj_tail in Hl. destruct Hl as [_ <-].
           exists w, []. auto.
        -- apply (Hapart l g1 g2 r'). rewrite Hl, <- app_assoc. reflexivity.
      * exists done', current'. split; [exact Hrun |].
        split; [| auto].
        rewrite Hcat, !concat_app. simpl. rewrite <- !app_assoc. reflexivity.
    + rewrite (extend_ok _ _ Hcur).
      destruct (IH done (current ++ [w])) as (done' & current' & Hrun & Hcat & H1 & H2 & H3).
      * apply List.Forall_app in Hne. destruct Hne as [Hd _].
        apply List.Forall_app. split; [exact Hd |].
        constructor; [| constructor]. destruct current; discriminate.
      * apply List.Forall_app in Hknit. destruct Hknit as [Hd Hc].
        apply List.Forall_app. split; [exact Hd |].
        constructor; [| constructor].
        intros a w' b Heq Ha.
        destruct (snoc_split _ _ _ _ _ Heq)
          as [(-> & <- & <-) | (b' & -> & Hl)].
        -- exact Hb.
        -- inversion Hc as [| c cs Hc' _]; subst. apply (Hc' a w' b'); auto.
      * intros l g1 g2 r Heq.
        destruct r as [| g3 r].
        -- change (l ++ [g1; g2]) with (l ++ g1 :: [g2]) in Heq.
           assert (Heq' : done ++ [current ++ [w]] = (l ++ [g1]) ++ [g2])
             by (rewrite <- app_assoc; exact Heq).
           apply app_inj_tail in Heq'. destruct Heq' as [Hd <-].
           destruct (Hapart l g1 current []) as (w0 & rest & -> & Hw0).
           { rewrite Hd, <- app_assoc. reflexivity. }
           exists w0, (rest ++ [w]). auto.
        -- destruct (@exists_last _ (g3 :: r)) as (r' & x & Hr);
             [discriminate |].
           rewrite Hr in Heq.
           assert (Heq' : done ++ [current ++ [w]] = (l ++ g1 :: g2 :: r') ++ [x])
             by (rewrite <- app_assoc; exact Heq).
           apply app_inj_tail in Heq'. destruct Heq' as [Hd _].
           apply (Hapart l g1 g2 (r' ++ [current])).
           rewrite Hd, <- app_assoc. reflexivity.
      * exists done', current'. split; [exact Hrun |].
        split; [| auto].
        rewrite Hcat, !concat_app. simpl. rewrite !app_nil_r, <- !app_assoc.
        reflexivity.
Qed.

(** The groups the loop returns for the sorted words. *)
Lemma greedy_groups (sorted : list W) :
  exists groups : list (list W),
    (let st := fold_left step sorted ([], None) in
     match snd st with
     | Some current => fst st ++ [current]
     | None => fst st
     end) = map of_words groups
    /\ concat groups = sorted
    /\ List.Forall (fun l => l <> []) groups
    /\ List.Forall (fun l => forall a w b, l = a ++ w :: b -> a <> [] ->
                                           brk a w = false) groups
    /\ (forall l g1 g2 r, groups = l ++ g1 :: g2 :: r ->
                          exists w rest, g2 = w :: rest /\ brk g1 w = true).
Proof.
  destruct sorted as [| w ws].
  - exists []. simpl. split; [reflexivity |]. split; [reflexivity |].
    split; [constructor |]. split; [constructor |].
    intros l g1 g2 r Heq. destruct l; discriminate.
  - cbn [fold_left]. rewrite step_eq. cbn [fst snd]. rewrite open_ok.
    destruct (greedy_run ws [] [w]) as (done' & current' & Hrun & Hcat & H1 & H2 & H3).
    + constructor; [discriminate | constructor].
    + constructor; [| constructor].
      intros a w' b Heq Ha. destruct a as [| x a]; [congruence |].
      destruct a; discriminate.
    + intros l g1 g2 r Heq. destruct l as [| x l]; [discriminate |].
      destruct l; discriminate.
    + exists (done' ++ [current']).
      change (@nil G) with (map of_words []).
      rewrite Hrun. cbn [fst snd]. rewrite map_app. simpl.
      split; [reflexivity |]. split; [exact Hcat |]. auto.
Qed.

End Greedy.

(** ** Reading zones and text blocks *)

Section ZonesAndBlocks.

Lemma join_snoc (sep : str) (l : list str) (a : str) :
  l <> [] -> join sep (l ++ [a]) = join sep l ++ sep ++ a.
Proof.
  induction l as [| p l IH]; [congruence |]. intros _.
  destruct l as [| q l]; [reflexivity |].
  change (join sep ((p :: q :: l) ++ [a]))
    with (p ++ sep ++ join sep ((q :: l) ++ [a])).
  rewrite IH by discriminate.
  change (join sep (p :: q :: l)) with (p ++ sep ++ join sep (q :: l)).
  rewrite <- !app_assoc. reflexivity.
Qed.

Lemma greatest_snoc (qs : list Q) (q : Q) :
  qs <> [] -> greatest (qs ++ [q]) = max2 (greatest qs) q.
Proof.
  destruct qs as [| x rest]; [congruence |]. intros _.
  unfold greatest, py_max, max2. simpl. rewrite fold_left_app. reflexivity.
Qed.

(** The greatest coordinate is one of the sequence, and none is above
    it. *)
Lemma greatest_in (qs : list Q) : qs <> [] -> In (greatest qs) qs.
Proof.
  destruct qs as [| x rest]; [congruence |]. intros _.
  unfold greatest, py_max. revert x.
  induction rest as [| y rest IH]; intros x; simpl; [auto |].
  destruct (IH (if Qlt_bool x y then y else x)) as [Heq | Hin]; [| auto].
  destruct (Qlt_bool x y); auto.
Qed.

Lemma zone_extend (l : list Word) (w : Word) :
  l <> [] -> extend_zone (zone_of l) w = zone_of (l ++ [w]).
Proof.
  intros Hl. unfold extend_zone, zone_of. cbn [zone_top zone_bottom zone_words zone_text].
  rewrite !map_app. cbn [map].
  rewrite greatest_snoc by (destruct l; [congruence | discriminate]).
  rewrite join_snoc by (destruct l; [congruence | discriminate]).
  destruct l; [congruence | reflexivity].
Qed.

(** The zones, as lists of words. *)
Lemma reading_zones_groups (ws : list Word) :
  exists groups : list (list Word),
    _identify_reading_zones ws = map zone_of groups
    /\ concat groups = sort_by (fun a b => Qle_bool (top a) (top b)) ws
    /\ List.Forall (fun l => l <> []) groups
    /\ List.Forall
         (fun l => forall a w b, l = a ++ w :: b -> a <> [] ->
                    Qlt_bool 10 (top w - greatest (map bottom a)) = false)
         groups
    /\ (forall l g1 g2 r, groups = l ++ g1 :: g2 :: r ->
          exists w rest,
            g2 = w :: rest
            /\ Qlt_bool 10 (top w - greatest (map bottom g1)) = true).
Proof.
  unfold _identify_reading_zones.
  apply (greedy_groups open_zone extend_zone
           (fun current w => Qlt_bool 10 (top w - zone_bottom current))
           zone_step zone_of
           (fun l w => Qlt_bool 10 (top w - greatest (map bottom l)))).
  - reflexivity.
  - reflexivity.
  - exact zone_extend.
  - reflexivity.
Qed.

Lemma top_order_total (a b : Word) :
  Qle_bool (top a) (top b) = false -> Qle_bool (top b) (top a) = true.
Proof.
  intros Hf. apply Qle_bool_iff.
  destruct (Qlt_le_dec (top a) (top b)) as [Hlt | Hle]; [| exact Hle].
  apply Qlt_le_weak, Qle_bool_iff in Hlt. congruence.
Qed.

Lemma top_order_trans (a b c : Word) :
  Qle_bool (top a) (top b) = true -> Qle_bool (top b) (top c) = true ->
  Qle_bool (top a) (top c) = true.
Proof.
  rewrite !Qle_bool_iff. apply Qle_trans.
Qed.

Lemma sorted_by_top (l : list Word) :
  StronglySorted (fun a b => Qle_bool (top a) (top b) = true) l ->
  StronglySorted (fun a b => (top a <= top b)%Q) l.
Proof.
  induction 1 as [| a l Hs IH Ha]; constructor; [exact IH |].
  eapply List.Forall_impl; [| exact Ha].
  intros b Hb. apply Qle_bool_iff. exact Hb.
Qed.

Lemma flat_map_of_groups {A B} (f : list A -> B) (g : B -> list A)
      (groups : list (list A)) :
  (forall l, g (f l) = l) ->
  flat_map g (map f groups) = concat groups.
Proof.
  intros Hg. induction groups as [| l groups IH]; simpl; [reflexivity |].
  rewrite Hg, IH. reflexivity.
Qed.

(** X13: the reading zones share out the words of the page in the order
    of their tops, equal tops in the order of the page.  No zone is empty;
    a zone starts at the top of its first word, ends at the greatest
    bottom of its words, and its text is the texts of its words joined by
    single spaces.  A zone starts more than 10 below the end of the zone
    before it, and inside a zone every word after the first starts at most
    10 below the greatest bottom of the words before it. *)
Theorem reading_zones_sound (ws : list Word) :
  let zones := _identify_reading_zones ws in
  flat_map zone_words zones = sort_by (fun a b => Qle_bool (top a) (top b)) ws
  /\ Permutation (flat_map zone_words zones) ws
  /\ StronglySorted (fun a b => (top a <= top b)%Q) (flat_map zone_words zones)
  /\ List.Forall (fun z => zone_words z <> [] /\ z = zone_of (zone_words z)) zones
  /\ (forall l z1 z2 r, zones = l ++ z1 :: z2 :: r ->
                        (10 < zone_top z2 - zone_bottom z1)%Q)
  /\ (forall z a w b, In z zones -> zone_words z = a ++ w :: b -> a <> [] ->
                      (top w - greatest (map bottom a) <= 10)%Q).
Proof.
  intros zones. subst zones.
  destruct (reading_zones_groups ws) as (groups & -> & Hcat & Hne & Hknit & Hapart).
  assert (Hwords : flat_map zone_words (map zone_of groups) = concat groups)
    by (apply flat_map_of_groups; reflexivity).
  rewrite Hwords, Hcat.
  split; [reflexivity |]. split; [apply sort_by_perm |]. split; [| split; [| split]].
  - apply sorted_by_top, sort_by_sorted;
      [exact top_order_total | exact top_order_trans].
  - rewrite List.Forall_forall. intros z Hz.
    apply in_map_iff in Hz. destruct Hz as (l & <- & Hl).
    rewrite List.Forall_forall in Hne. split; [exact (Hne l Hl) | reflexivity].
  - intros l z1 z2 r Heq.
    apply map_eq_app in Heq. destruct Heq as (gl & gr & -> & <- & Hr).
    destruct gr as [| g1 gr]; [discriminate |]. injection Hr as <- Hr.
    destruct gr as [| g2 gr]; [discriminate |]. injection Hr as <- _.
    destruct (Hapart gl g1 g2 gr eq_refl) as (w & rest & -> & Hb).
    apply Qlt_bool_true in Hb. exact Hb.
  - intros z a w b Hz Heq Ha.
    apply in_map_iff in Hz. destruct Hz as (l & <- & Hl).
    rewrite List.Forall_forall in Hknit.
    apply Qlt_bool_false. exact (Hknit l Hl a w b Heq Ha).
Qed.

Lemma block_extend (l : list PlumbWord) (w : PlumbWord) :
  l <> [] -> extend_block (block_of l) w = block_of (l ++ [w]).
Proof.
  intros Hl. unfold extend_block, block_of.
  cbn [block_top block_bottom block_left block_right block_text block_words
       block_sizes block_names].
  rewrite !map_app. cbn [map].
  rewrite !greatest_snoc by (destruct l; [congruence | discriminate]).
  rewrite join_snoc by (destruct l; [congruence | discriminate]).
  destruct l; [congruence | reflexivity].
Qed.

(** The blocks, as lists of words. *)
Lemma text_blocks_groups (ws : list PlumbWord) :
  exists groups : list (list PlumbWord),
    _extract_text_blocks ws = map block_of groups
    /\ concat groups = sort_by top_left_le ws
    /\ List.Forall (fun l => l <> []) groups
    /\ List.Forall
         (fun l => forall a w b, l = a ++ w :: b -> a <> [] ->
            Qlt_bool 5 (Qabs (top (pw_word w)
                              - greatest (map (fun v => bottom (pw_word v)) a)))
            || Qlt_bool 20 (x0 (pw_word w)
                            - greatest (map (fun v => x1 (pw_word v)) a))
            = false)
         groups
    /\ (forall l g1 g2 r, groups = l ++ g1 :: g2 :: r ->
          exists w rest,
            g2 = w :: rest
            /\ Qlt_bool 5 (Qabs (top (pw_word w)
                                 - greatest (map (fun v => bottom (pw_word v)) g1)))
               || Qlt_bool 20 (x0 (pw_word w)
                               - greatest (map (fun v => x1 (pw_word v)) g1))
               = true).
Proof.
  destruct ws as [| w0 ws].
  - exists []. simpl. split; [reflexivity |]. split; [reflexivity |].
    split; [constructor |]. split; [constructor |].
    intros l g1 g2 r Heq. destruct l; discriminate.
  - unfold _extract_text_blocks.
    apply (greedy_groups open_block extend_block breaks_block block_step block_of
             (fun l w =>
                Qlt_bool 5 (Qabs (top (pw_word w)
                                  - greatest (map (fun v => bottom (pw_word v)) l)))
                || Qlt_bool 20 (x0 (pw_word w)
                                - greatest (map (fun v => x1 (pw_word v)) l)))).
    + reflexivity.
    + reflexivity.
    + exact block_extend.
    + reflexivity.
Qed.

(** X14: the text blocks share out the words of the page in the order of
    [(top, x0)].  No block is empty; a block has the top and the left of
    its first word, the greatest bottom and the greatest [x1] of its words,
    their texts joined by single spaces, and their sizes and font names in
    order.  The first word of a block is either more than 5 away from the
    bottom of the block before it or more than 20 to the right of it, and
    inside a block every word after the first is within 5 of the greatest
    bottom, and at most 20 to the right of the greatest [x1], of the words
    before it. *)
Theorem text_blocks_sound (ws : list PlumbWord) :
  let blocks := _extract_text_blocks ws in
  flat_map block_words blocks = sort_by top_left_le ws
  /\ Permutation (flat_map block_words blocks) ws
  /\ List.Forall (fun b => block_words b <> [] /\ b = block_of (block_words b))
                 blocks
  /\ (forall l b1 b2 r, blocks = l ++ b1 :: b2 :: r ->
        (5 < Qabs (block_top b2 - block_bottom b1))%Q
        \/ (20 < block_left b2 - block_right b1)%Q)
  /\ (forall b a w c, In b blocks -> block_words b = a ++ w :: c -> a <> [] ->
        (Qabs (top (pw_word w) - greatest (map (fun v => bottom (pw_word v)) a))
         <= 5)%Q
        /\ (x0 (pw_word w) - greatest (map (fun v => x1 (pw_word v)) a) <= 20)%Q).
Proof.
  intros blocks. subst blocks.
  destruct (text_blocks_groups ws) as (groups & -> & Hcat & Hne & Hknit & Hapart).
  assert (Hwords : flat_map block_words (map block_of groups) = concat groups)
    by (apply flat_map_of_groups; reflexivity).
  rewrite Hwords, Hcat.
  split; [reflexivity |]. split; [apply sort_by_perm |]. split; [| split].
  - rewrite List.Forall_forall. intros z Hz.
    apply in_map_iff in Hz. destruct Hz as (l & <- & Hl).
    rewrite List.Forall_forall in Hne. split; [exact (Hne l Hl) | reflexivity].
  - intros l z1 z2 r Heq.
    apply map_eq_app in Heq. destruct Heq as (gl & gr & -> & <- & Hr).
    destruct gr as [| g1 gr]; [discriminate |]. injection Hr as <- Hr.
    destruct gr as [| g2 gr]; [discriminate |]. injection Hr as <- _.
    destruct (Hapart gl g1 g2 gr eq_refl) as (w & rest & -> & Hb).
    apply orb_true_iff in Hb.
    destruct Hb as [Hb | Hb]; apply Qlt_bool_true in Hb; [left | right]; exact Hb.
  - intros z a w b Hz Heq Ha.
    apply in_map_iff in Hz. destruct Hz as (l & <- & Hl).
    rewrite List.Forall_forall in Hknit.
    assert (Hb := Hknit l Hl a w b Heq Ha).
    apply orb_false_iff in Hb. destruct Hb as [H5 H20].
    apply Qlt_bool_false in H5. apply Qlt_bool_false in H20. auto.
Qed.

(** X15: when every top on the page is more than 5 away from every
    bottom, as on a single line of text higher than 5, no two words share a
    block: there is one block per word, in the order of [(top, x0)]. *)
Theorem tall_words_stay_apart (ws : list PlumbWord) :
  (forall w w', In w ws -> In w' ws ->
      (5 < Qabs (top (pw_word w') - bottom (pw_word w)))%Q) ->
  _extract_text_blocks ws = map open_block (sort_by top_left_le ws).
Proof.
  intros Htall.
  destruct (text_blocks_groups ws) as (groups & -> & Hcat & Hne & Hknit & _).
  rewrite <- Hcat.
  assert (Hin : forall l w, In l groups -> In w l -> In w ws).
  { intros l w Hl Hw.
    apply (Permutation_in w (sort_by_perm top_left_le ws)).
    rewrite <- Hcat. apply in_concat. exists l. auto. }
  clear Hcat. induction groups as [| l groups IH]; [reflexivity |].
  inversion Hne as [| l' gs' Hl Hne']; subst.
  inversion Hknit as [| l' gs' Hk Hknit']; subst.
  destruct l as [| w1 l]; [congruence |].
  destruct l as [| w2 l].
  - cbn [map concat app]. f_equal.
    apply IH; [exact Hne' | exact Hknit' |].
    intros l w Hl0 Hw. apply (Hin l w); [right; exact Hl0 | exact Hw].
  - exfalso.
    assert (Hb := Hk [w1] w2 l eq_refl ltac:(discriminate)).
    apply orb_false_iff in Hb. destruct Hb as [H5 _].
    apply Qlt_bool_false in H5. cbn [map greatest py_max fold_left] in H5.
    assert (Hlt := Htall w1 w2 (Hin _ w1 (or_introl eq_refl) (or_introl eq_refl))
                         (Hin _ w2 (or_introl eq_refl) (or_intror (or_introl eq_refl)))).
    exact (Qlt_not_le _ _ Hlt H5).
Qed.

End ZonesAndBlocks.

Lemma tall_words_stay_apart_witness :
  let word (t : str) (a b : Z) :=
    mkPlumbWord (mkWord t (inject_Z a) (inject_Z b) 100 112)
                (Some (py "Helvetica")) (Some 12%Q) in
  let ws := [word (py "Dear") 72 96; word (py "Jane") 100 124] in
  _extract_text_blocks ws = map open_block (sort_by top_left_le ws).
Proof.
  intros word ws. apply (tall_words_stay_apart ws).
  intros w w' [<- | [<- | []]] [<- | [<- | []]]; vm_compute; reflexivity.
Defined.

(** ** The columns, whatever the clustering library answers *)

Section AnyLibrary.
Context `{Sklearn}.

Lemma cluster_column_length (ws : list Word) (labels : list nat) (c : nat) :
  (length (cluster_column ws labels c) <= 1)%nat.
Proof.
  unfold cluster_column. destruct (map fst _); simpl; lia.
Qed.

Lemma group_columns_length (ws : list Word) (labels : list nat) (n : nat) :
  (length (group_columns ws labels n) <= n)%nat.
Proof.
  unfold group_columns, range. rewrite Nat.sub_0_r.
  generalize 0%nat. induction n as [| n IH]; intros a; simpl; [lia |].
  rewrite length_app.
  assert (H1 := cluster_column_length ws labels a).
  assert (H2 := IH (S a)). lia.
Qed.

(** A label at or above the number of clusters falls in none of them. *)
Lemma no_cluster {B} (w : B) (l a n : nat) :
  (a + n <= l)%nat ->
  flat_map (fun c => if Nat.eqb l c then [w] else []) (seq a n) = [].
Proof.
  revert a. induction n as [| n IH]; intros a Hl; simpl; [reflexivity |].
  destruct (Nat.eqb_spec l a); [lia |]. apply IH. lia.
Qed.

(** The clusters [0 .. n-1] and the items labelled [n] or more share out
    the labelled items. *)
Lemma clusters_share {B} (zs : list (B * nat)) (n : nat) :
  Permutation
    (flat_map (fun c => map fst (List.filter (fun wl => Nat.eqb (snd wl) c) zs))
              (seq 0 n)
     ++ map fst (List.filter (fun wl => (n <=? snd wl)%nat) zs))
    (map fst zs).
Proof.
  induction zs as [| [w l] zs IH].
  - simpl. rewrite app_nil_r. induction (seq 0 n); simpl; auto.
  - cbn [List.filter map snd fst].
    assert (Hsplit :
      Permutation
        (flat_map
           (fun c => map fst (List.filter (fun wl => Nat.eqb (snd wl) c)
                                          ((w, l) :: zs)))
           (seq 0 n))
        (flat_map (fun c => if Nat.eqb l c then [w] else []) (seq 0 n)
         ++ flat_map
              (fun c => map fst (List.filter (fun wl => Nat.eqb (snd wl) c) zs))
              (seq 0 n))).
    { eapply perm_trans; [| apply flat_map_split].
      apply Permutation_refl'. apply flat_map_ext. intros c. simpl.
      destruct (Nat.eqb l c); reflexivity. }
    destruct (Nat.leb_spec n l) as [Hle | Hlt].
    + rewrite no_cluster in Hsplit by lia. simpl in Hsplit.
      eapply perm_trans; [apply Permutation_app_tail, Hsplit |].
      cbn [map fst].
      eapply perm_trans; [apply Permutation_sym, Permutation_middle |].
      apply perm_skip, IH.
    + rewrite one_cluster in Hsplit by lia.
      eapply perm_trans; [apply Permutation_app_tail, Hsplit |].
      simpl. apply perm_skip, IH.
Qed.

Lemma zip_fst_prefix {A B} (a : list A) (b : list B) :
  exists rest, a = map fst (zip a b) ++ rest.
Proof.
  revert b. induction a as [| x a IH]; intros b.
  - exists []. reflexivity.
  - destruct b as [| y b]; [exists (x :: a); reflexivity |].
    destruct (IH b) as [rest Hr]. exists rest. simpl. f_equal. exact Hr.
Qed.

(** The words of the columns of a labelling are words of the page, each
    taken at most once. *)
Lemma group_columns_within (ws : list Word) (labels : list nat) (n : nat) :
  exists rest,
    Permutation (flat_map words (group_columns ws labels n) ++ rest) ws.
Proof.
  destruct (zip_fst_prefix ws labels) as [tail Htail].
  exists (map fst (List.filter (fun wl => (n <=? snd wl)%nat) (zip ws labels))
          ++ tail).
  unfold group_columns, range. rewrite Nat.sub_0_r.
  rewrite flat_map_flat_map.
  rewrite (flat_map_ext _ _ (cluster_column_words ws labels)).
  rewrite app_assoc.
  apply perm_trans with (map fst (zip ws labels) ++ tail);
    [apply Permutation_app_tail, clusters_share |].
  rewrite <- Htail. apply Permutation_refl.
Qed.

Lemma group_columns_covers (ws : list Word) (labels : list nat) (n : nat) :
  List.Forall (fun col => words col <> [] /\ LayoutSpec.covers col)
              (group_columns ws labels n).
Proof.
  rewrite List.Forall_forall. intros col Hc. unfold group_columns in Hc.
  apply in_flat_map in Hc. destruct Hc as (c & _ & Hc).
  assert (Hcov := cluster_column_covers ws labels c).
  rewrite List.Forall_forall in Hcov. apply Hcov, Hc.
Qed.

(** The detector never returns more columns than it may look for. *)
Lemma detect_columns_count (ws : list Word) (g : Rng) :
  (length (fst (_detect_columns ws g)) <= 3)%nat.
Proof.
  unfold _detect_columns, _detect_columns_with.
  destruct ws as [| w0 ws0]; [simpl; lia |].
  remember (w0 :: ws0) as ws eqn:Hws. unfold detect_try.
  destruct (best_clusters _ _ _ g) as [[[k s] | e] g1] eqn:Hb; [| simpl; lia].
  destruct (fit_predict k random_state (map x0 ws) g1) as [[labels | e] g2];
    [| simpl; lia].
  cbn [fst].
  assert (Hk : (k <= 3)%nat).
  { destruct (best_clusters_count _ _ _ _ _ _ _ Hb) as [-> | Hin];
      [simpl; lia |].
    unfold candidates, range in Hin. apply in_seq in Hin. lia. }
  assert (Hl := group_columns_length ws labels k). lia.
Qed.

(** X16: whatever the clustering library answers, labels of a wrong
    number or out of range and exceptions included, [_detect_columns]
    returns at most three columns; their words are words of the page, none
    of them taken twice; no column is empty, and the x-range of a column
    covers each of its words. *)
Theorem columns_within_page (ws : list Word) (g : Rng) :
  let columns := fst (_detect_columns ws g) in
  (length columns <= 3)%nat
  /\ (exists rest, Permutation (flat_map words columns ++ rest) ws)
  /\ List.Forall (fun col => words col <> [] /\ LayoutSpec.covers col) columns.
Proof.
  cbv zeta. split; [apply detect_columns_count |].
  unfold _detect_columns, _detect_columns_with.
  destruct ws as [| w0 ws0].
  - simpl. split; [exists []; constructor | constructor].
  - remember (w0 :: ws0) as ws eqn:Hws.
    unfold detect_try.
    destruct (best_clusters _ _ _ g) as [[[k s] | e] g1] eqn:Hb.
    + destruct (fit_predict k random_state (map x0 ws) g1)
        as [[labels | e] g2].
      * cbn [fst]. split.
        -- apply group_columns_within.
        -- apply group_columns_covers.
      * cbn [fst]. split; [exists ws; apply Permutation_refl | constructor].
    + cbn [fst]. split; [exists ws; apply Permutation_refl | constructor].
Qed.

End AnyLibrary.

(** ** Text direction *)

Section Direction.

Lemma count_progressing (ws : list Word) :
  length (List.filter (fun b : bool => b)
                      (map (fun w => Qlt_bool (x0 w) (x1 w)) ws))
  = progressing ws.
Proof.
  unfold progressing. induction ws as [| w ws IH]; simpl; [reflexivity |].
  destruct (Qlt_bool (x0 w) (x1 w)); simpl; rewrite IH; reflexivity.
Qed.

(** A ratio of counts against a ratio of small numbers. *)
Lemma ratio_above (k n a : Z) (b : positive) :
  0 < n ->
  Qlt_bool (a # b) (inject_Z k / inject_Z n) = (a * n <? Z.pos b * k).
Proof.
  intros Hn.
  assert (Hpos : (0 < inject_Z n)%Q) by (unfold Qlt, inject_Z; simpl; lia).
  destruct (Z.ltb_spec (a * n) (Z.pos b * k)) as [Hlt | Hge].
  - apply Qlt_bool_true. apply Qlt_shift_div_l; [exact Hpos |].
    unfold Qlt, Qmult, inject_Z. simpl. lia.
  - apply Qlt_bool_false. apply Qle_shift_div_r; [exact Hpos |].
    unfold Qle, Qmult, inject_Z. simpl. lia.
Qed.

Lemma ratio_below (k n a : Z) (b : positive) :
  0 < n ->
  Qlt_bool (inject_Z k / inject_Z n) (a # b) = (Z.pos b * k <? a * n).
Proof.
  intros Hn.
  assert (Hpos : (0 < inject_Z n)%Q) by (unfold Qlt, inject_Z; simpl; lia).
  destruct (Z.ltb_spec (Z.pos b * k) (a * n)) as [Hlt | Hge].
  - apply Qlt_bool_true. apply Qlt_shift_div_r; [exact Hpos |].
    unfold Qlt, Qmult, inject_Z. simpl. lia.
  - apply Qlt_bool_false. apply Qle_shift_div_l; [exact Hpos |].
    unfold Qle, Qmult, inject_Z. simpl. lia.
Qed.

(** X17: the direction of a page, in whole numbers: with [k] of its [n]
    words having [x1] to the right of [x0], the page is ['ltr'] when
    [10 k > 9 n], ['rtl'] when [10 k < n] and ['mixed'] otherwise, so that
    exactly nine words in ten give ['mixed']; and a page without words is
    ['rtl']. *)
Theorem text_direction_by_count (ws : list Word) :
  _detect_text_direction ws
  = match ws with
    | [] => py "rtl"
    | _ :: _ =>
        let k := Z.of_nat (progressing ws) in
        let n := Z.of_nat (length ws) in
        if 9 * n <? 10 * k then py "ltr"
        else if 10 * k <? n then py "rtl"
        else py "mixed"
    end.
Proof.
  destruct ws as [| w ws]; [reflexivity |].
  remember (w :: ws) as page eqn:Hpage.
  unfold _detect_text_direction.
  assert (Hn : 0 < Z.of_nat (length page)) by (subst page; simpl; lia).
  destruct (map (fun w => Qlt_bool (x0 w) (x1 w)) page) as [| b bs] eqn:Hmap;
    [subst page; discriminate |].
  rewrite <- Hmap, count_progressing, length_map.
  rewrite ratio_above, ratio_below by lia.
  cbv zeta. rewrite Z.mul_1_l. reflexivity.
Qed.

End Direction.

(** ** Font distribution *)

From Stdlib Require Import Lqa.

Section Fonts.

(** The median and the mean of values between two bounds are between
    them. *)
Lemma median_between (data : list Q) (lo hi : Q) :
  data <> [] ->
  (forall q, In q data -> (lo <= q <= hi)%Q) ->
  (lo <= median data <= hi)%Q.
Proof.
  intros Hne Hb. unfold median.
  assert (Hperm := sort_by_perm Qle_bool data).
  assert (Hlen : length (sort_by Qle_bool data) = length data)
    by (apply Permutation_length, Hperm).
  assert (Hpos : (0 < length data)%nat) by (destruct data; simpl; [congruence | lia]).
  assert (Hnth : forall i, (i < length data)%nat ->
                           (lo <= nth i (sort_by Qle_bool data) 0 <= hi)%Q).
  { intros i Hi. apply Hb. apply (Permutation_in _ Hperm).
    apply nth_In. lia. }
  rewrite Hlen.
  assert (Hhalf : (length data / 2 < length data)%nat)
    by (apply Nat.div_lt; lia).
  destruct (Nat.odd (length data)) eqn:Hodd.
  - apply Hnth. exact Hhalf.
  - destruct (Hnth (length data / 2)%nat Hhalf) as [H1 H2].
    destruct (Hnth (length data / 2 - 1)%nat ltac:(lia)) as [H3 H4].
    split.
    + apply Qle_shift_div_l; [reflexivity |]. lra.
    + apply Qle_shift_div_r; [reflexivity |]. lra.
Qed.

Lemma sum_between (data : list Q) (lo hi : Q) :
  (forall q, In q data -> (lo <= q <= hi)%Q) ->
  (lo * inject_Z (Z.of_nat (length data)) <= fold_right Qplus 0 data
   <= hi * inject_Z (Z.of_nat (length data)))%Q.
Proof.
  induction data as [| x data IH]; intros Hb.
  - cbn [length fold_right]. change (inject_Z (Z.of_nat 0)) with 0%Q.
    split; lra.
  - destruct (Hb x (or_introl eq_refl)) as [H1 H2].
    destruct IH as [H3 H4]; [intros q Hq; apply Hb; right; exact Hq |].
    cbn [length fold_right]. rewrite Nat2Z.inj_succ, <- Z.add_1_r.
    rewrite inject_Z_plus. change (inject_Z 1) with 1%Q. split; lra.
Qed.

Lemma mean_between (data : list Q) (lo hi : Q) :
  data <> [] ->
  (forall q, In q data -> (lo <= q <= hi)%Q) ->
  (lo <= mean data <= hi)%Q.
Proof.
  intros Hne Hb. unfold mean.
  assert (Hpos : (0 < inject_Z (Z.of_nat (length data)))%Q).
  { destruct data; [congruence |]. unfold Qlt, inject_Z. simpl. lia. }
  destruct (sum_between data lo hi Hb) as [H1 H2]. split.
  - apply Qle_shift_div_l; assumption.
  - apply Qle_shift_div_r; assumption.
Qed.

(** Counting one more name. *)
Lemma count_name_count (n m : str) (counts : list (str * nat)) :
  count_of m (count_name n counts)
  = (count_of m counts + (if bool_decide (n = m) then 1 else 0))%nat.
Proof.
  induction counts as [| [k c] counts IH]; simpl.
  - destruct (bool_decide (n = m)); reflexivity.
  - destruct (bool_decide_reflect (k = n)) as [-> | Hkn]; simpl.
    + destruct (bool_decide (n = m)); lia.
    + destruct (bool_decide_reflect (k = m)) as [-> | Hkm]; [| exact IH].
      destruct (bool_decide_reflect (n = m)); [congruence | lia].
Qed.

Lemma count_name_keys (n m : str) (counts : list (str * nat)) :
  In m (map fst (count_name n counts)) <-> m = n \/ In m (map fst counts).
Proof.
  induction counts as [| [k c] counts IH]; simpl.
  - split; [intros [<- | []]; auto | intros [-> | []]; auto].
  - destruct (bool_decide_reflect (k = n)) as [-> | Hkn]; simpl.
    + split; [intros [<- | Hm]; auto | intros [-> | [<- | Hm]]; auto].
    + rewrite IH. tauto.
Qed.

Lemma count_name_nodup (n : str) (counts : list (str * nat)) :
  List.NoDup (map fst counts) -> List.NoDup (map fst (count_name n counts)).
Proof.
  induction counts as [| [k c] counts IH]; simpl; intros Hnd.
  - constructor; [intros [] | constructor].
  - inversion Hnd as [| k' ks Hk Hnd']; subst.
    destruct (bool_decide_reflect (k = n)) as [-> | Hkn]; simpl.
    + constructor; assumption.
    + constructor; [| apply IH; exact Hnd'].
      rewrite count_name_keys. intros [-> | Hin]; [congruence | contradiction].
Qed.

Lemma count_name_total (n : str) (counts : list (str * nat)) :
  total (count_name n counts) = S (total counts).
Proof.
  induction counts as [| [k c] counts IH]; simpl; [reflexivity |].
  destruct (bool_decide (k = n)); simpl; [reflexivity | rewrite IH; lia].
Qed.

Lemma counter_run (names : list str) :
  forall counts,
    List.NoDup (map fst counts) ->
    let counts' := fold_left (fun cs n => count_name n cs) names counts in
    List.NoDup (map fst counts')
    /\ (forall m, count_of m counts'
                  = (count_of m counts
                     + length (List.filter (fun n => bool_decide (n = m)) names))%nat)
    /\ total counts' = (total counts + length names)%nat
    /\ (forall m, In m (map fst counts') <-> In m (map fst counts) \/ In m names).
Proof.
  induction names as [| n names IH]; intros counts Hnd; cbn [fold_left].
  - cbv zeta. split; [exact Hnd |]. split; [intros m; simpl; lia |].
    split; [simpl; lia | intros m; simpl; tauto].
  - destruct (IH (count_name n counts) (count_name_nodup n counts Hnd))
      as (H1 & H2 & H3 & H4).
    cbv zeta. split; [exact H1 |]. split; [| split].
    + intros m. rewrite H2, count_name_count. simpl.
      destruct (bool_decide (n = m)); simpl; lia.
    + rewrite H3, count_name_total. simpl. lia.
    + intros m. rewrite H4, count_name_keys. simpl.
      split; [intros [[-> | Hm] | Hm]; auto | intros [Hm | [<- | Hm]]; auto].
Qed.

(** X18: for a page with words, the size statistics are sound: the
    minimum and the maximum are sizes of words of the page and bound every
    size, and the median and the mean lie between them; a word without a
    size counts as size 0.  The font counts name each font once, count
    for every name the words that carry it, a word without a font name
    under ['unknown'], and add up to the number of words.  A page without
    words has no statistics and no counts. *)
Theorem font_distribution_sound (ws : list PlumbWord) :
  let d := _analyze_font_distribution ws in
  let sizes := map size_of ws in
  let names := map fontname_of ws in
  match ws with
  | [] => d = mkFontDistribution None []
  | _ :: _ =>
      exists stats,
        size_stats d = Some stats
        /\ In (stat_min stats) sizes /\ In (stat_max stats) sizes
        /\ (forall s, In s sizes -> (stat_min stats <= s <= stat_max stats)%Q)
        /\ (stat_min stats <= stat_median stats <= stat_max stats)%Q
        /\ (stat_min stats <= stat_mean stats <= stat_max stats)%Q
  end
  /\ List.NoDup (map fst (font_counts d))
  /\ (forall m, count_of m (font_counts d)
                = length (List.filter (fun n => bool_decide (n = m)) names))
  /\ (forall m, In m (map fst (font_counts d)) <-> In m names)
  /\ total (font_counts d) = length ws.
Proof.
  destruct ws as [| w rest].
  - simpl. split; [reflexivity |]. split; [constructor |].
    split; [reflexivity |]. split; [tauto | reflexivity].
  - remember (w :: rest) as ws eqn:Hws. cbv zeta.
    assert (Hd : _analyze_font_distribution ws
                 = mkFontDistribution
                     (Some (mkSizeStats (py_min (size_of w) (map size_of rest))
                                        (py_max (size_of w) (map size_of rest))
                                        (median (map size_of ws))
                                        (mean (map size_of ws))))
                     (Counter (map fontname_of ws)))
      by (subst ws; reflexivity).
    rewrite Hd. cbn [size_stats font_counts].
    assert (Hsizes : map size_of ws = size_of w :: map size_of rest)
      by (subst ws; reflexivity).
    assert (Hbound : forall s, In s (map size_of ws) ->
              (py_min (size_of w) (map size_of rest) <= s
               <= py_max (size_of w) (map size_of rest))%Q).
    { intros s Hs. rewrite Hsizes in Hs.
      destruct (py_min_below (map size_of rest) (size_of w)) as [Hm Hms].
      destruct (py_max_above (map size_of rest) (size_of w)) as [HM HMs].
      destruct Hs as [<- | Hs]; split; auto. }
    assert (Hne : map size_of ws <> []) by (rewrite Hsizes; discriminate).
    split.
    + eexists. split; [reflexivity |]. cbn [stat_min stat_max stat_median stat_mean].
      split; [rewrite Hsizes; apply py_min_in |].
      split; [rewrite Hsizes; apply py_max_in |].
      split; [exact Hbound |].
      split; [apply median_between | apply mean_between]; assumption.
    + destruct (counter_run (map fontname_of ws) [] (List.NoDup_nil _))
        as (H1 & H2 & H3 & H4).
      unfold Counter. split; [exact H1 |]. split; [intros m; rewrite H2; reflexivity |].
      split; [intros m; rewrite H4; simpl; tauto |].
      rewrite H3, length_map. reflexivity.
Qed.

End Fonts.

(** ** The analysis of a document *)

Section DocumentAnalysis.
Context `{Fitz} `{Pdfplumber} `{Sklearn}.








End DocumentAnalysis.


(** ** The list of accepted redactions *)

Section Acceptance.

Lemma text_listed (t : str) (l : list Suggestion) :
  existsb (fun u => bool_decide (t = u)) (map text l) = true <-> In t (map text l).
Proof.
  rewrite existsb_exists. split.
  - intros (u & Hu & Heq). apply bool_decide_eq_true in Heq. subst. exact Hu.
  - intros Hin. exists t. split; [exact Hin | apply bool_decide_eq_true; reflexivity].
Qed.

(** X20: accepting a suggestion keeps the texts of the list distinct: a
    suggestion whose text is new goes to the end of the list, one whose
    text is listed leaves the list as it is, whatever its type and reason;
    so after an acceptance the text is listed, and accepting the same
    suggestion again changes nothing. *)
Theorem acceptance_keeps_texts_distinct (suggestion : Suggestion)
        (custom_redactions : list Suggestion) :
  List.NoDup (map text custom_redactions) ->
  let accepted := fst (App._handle_suggestion_acceptance suggestion
                                                          custom_redactions) in
  List.NoDup (map text accepted)
  /\ In (text suggestion) (map text accepted)
  /\ (In (text suggestion) (map text custom_redactions) ->
      accepted = custom_redactions)
  /\ (~ In (text suggestion) (map text custom_redactions) ->
      accepted = custom_redactions ++ [suggestion])
  /\ fst (App._handle_suggestion_acceptance suggestion accepted) = accepted.
Proof.
  intros Hnd. unfold App._handle_suggestion_acceptance.
  destruct (existsb _ (map text custom_redactions)) eqn:Hex; cbn [negb fst].
  - rewrite Hex. cbn [negb fst]. apply text_listed in Hex.
    split; [exact Hnd |]. split; [exact Hex |].
    split; [reflexivity |]. split; [contradiction | reflexivity].
  - assert (Hnew : ~ In (text suggestion) (map text custom_redactions)).
    { intros Hin. apply text_listed in Hin. congruence. }
    assert (Hin : In (text suggestion)
                     (map text (custom_redactions ++ [suggestion])))
      by (rewrite map_app; apply in_or_app; right; left; reflexivity).
    rewrite (proj2 (text_listed _ _) Hin). cbn [negb fst].
    split; [| split; [exact Hin | split; [contradiction | split; reflexivity]]].
    rewrite map_app. cbn [map].
    apply List.NoDup_rev in Hnd. rewrite <- (rev_involutive (_ ++ _)).
    apply List.NoDup_rev. rewrite rev_app_distr. cbn [rev app].
    constructor; [rewrite <- in_rev; exact Hnew | exact Hnd].
Qed.

End Acceptance.

Lemma acceptance_keeps_texts_distinct_witness :
  let listed := [Samples.request "123-45-6789"] in
  let suggestion :=
    mkSuggestion (py "123-45-6789") (py "FINANCIAL") 40 (py "account number") in
  let accepted := fst (App._handle_suggestion_acceptance suggestion listed) in
  List.NoDup (map text accepted)
  /\ In (text suggestion) (map text accepted)
  /\ (In (text suggestion) (map text listed) -> accepted = listed)
  /\ (~ In (text suggestion) (map text listed) ->
      accepted = listed ++ [suggestion])
  /\ fst (App._handle_suggestion_acceptance suggestion accepted) = accepted.
Proof.
  intros listed suggestion.
  assert (Hnd : List.NoDup (map text listed))
    by (constructor; [intros [] | constructor]).
  exact (acceptance_keeps_texts_distinct suggestion listed Hnd).
Defined.

(** ** Vertical spread *)

Section Spread.

(** X21: the vertical spread of a page reaches from the top of any of its
    words to the bottom of any of its words, and it is the distance from
    the top of one word of the page to the bottom of one. *)
Theorem vertical_spread_covers (ws : list Word) (w w' : Word) :
  In w ws -> In w' ws ->
  (bottom w - top w' <= _calculate_vertical_spread ws)%Q
  /\ exists low high, In low ws /\ In high ws
       /\ _calculate_vertical_spread ws = (bottom low - top high)%Q.
Proof.
  intros Hw Hw'.
  destruct ws as [| w0 rest]; [contradiction |].
  unfold _calculate_vertical_spread.
  destruct (py_max_above (map bottom rest) (bottom w0)) as [HM HMs].
  destruct (py_min_below (map top rest) (top w0)) as [Hm Hms].
  split.
  - assert (Hb : (bottom w <= py_max (bottom w0) (map bottom rest))%Q)
      by (destruct Hw as [<- | Hw]; [exact HM | apply HMs, in_map, Hw]).
    assert (Ht : (py_min (top w0) (map top rest) <= top w')%Q)
      by (destruct Hw' as [<- | Hw']; [exact Hm | apply Hms, in_map, Hw']).
    lra.
  - assert (Hlow := py_max_in (map bottom rest) (bottom w0)).
    assert (Hhigh := py_min_in (map top rest) (top w0)).
    change (bottom w0 :: map bottom rest) with (map bottom (w0 :: rest)) in Hlow.
    change (top w0 :: map top rest) with (map top (w0 :: rest)) in Hhigh.
    apply in_map_iff in Hlow. destruct Hlow as (low & Hl & Hlin).
    apply in_map_iff in Hhigh. destruct Hhigh as (high & Hh & Hhin).
    exists low, high. rewrite Hl, Hh. auto.
Qed.

End Spread.

Lemma vertical_spread_covers_witness :
  let dear := mkWord (py "Dear") 72 96 100 112 in
  let jane := mkWord (py "Jane") 72 96 130 142 in
  let ws := [dear; jane] in
  (bottom jane - top dear <= _calculate_vertical_spread ws)%Q
  /\ exists low high, In low ws /\ In high ws
       /\ _calculate_vertical_spread ws = (bottom low - top high)%Q.
Proof.
  intros dear jane ws.
  apply (vertical_spread_covers ws jane dear); simpl; auto.
Defined.
